(** * txmsgpackrpc: the MessagePack-RPC protocol engine

    A shallow embedding of [txmsgpackrpc/protocol.py]: the base protocol
    ([MsgpackBaseProtocol]) and its two transports ([MsgpackStreamProtocol],
    [MsgpackDatagramProtocol]).

    The protocol object is a record of its fields; every method is a
    computation in a state-and-exception monad over that record.  The
    libraries the source builds on are modelled by what the source uses of
    them:
    - Twisted's [Deferred] is a cell that is either pending or fired with an
      outcome; firing it twice raises [AlreadyCalledError];
    - the reactor's [DelayedCall] is scheduled, cancelled or called, and
      [cancel] on one that is no longer scheduled raises;
    - a Python [dict] is an association list in insertion order, newest
      first, so that [popitem] takes its head;
    - the msgpack [Packer]/[Unpacker], the method registry and the rendering
      of a [Failure] are collaborators gathered in the class [Env]. *)

From Stdlib Require Import List ZArith NArith String Ascii Bool Lia Sorted.
From Stdlib.Strings Require Import Byte.
Import ListNotations.

Set Implicit Arguments.
Set Warnings "-register-all".

Local Open Scope Z_scope.

(** ** Values, keys and exceptions *)

(** The values msgpack decodes to and packs from.  Floats, maps and extension
    types are outside the model. *)
Inductive Value : Type :=
| VNil
| VBool (b : bool)
| VInt (z : Z)
| VStr (s : string)
| VList (l : list Value).

Definition MSGTYPE_REQUEST : Z := 0.
Definition MSGTYPE_RESPONSE : Z := 1.
Definition MSGTYPE_NOTIFICATION : Z := 2.

(** [v == n] for an integer constant [n]: Python's [bool] is an [int]. *)
Definition py_eq_int (v : Value) (n : Z) : bool :=
  match v with
  | VInt z => z =? n
  | VBool b => (if b then 1 else 0) =? n
  | _ => false
  end.

(** [v is not None] *)
Definition is_not_None (v : Value) : bool :=
  match v with VNil => false | _ => true end.

(** Hashable values as dictionary keys; [True] and [1] are the same key. *)
Inductive Key : Type :=
| KNil
| KInt (z : Z)
| KStr (s : string).

Definition key_of (v : Value) : option Key :=
  match v with
  | VNil => Some KNil
  | VBool b => Some (KInt (if b then 1 else 0))
  | VInt z => Some (KInt z)
  | VStr s => Some (KStr s)
  | VList _ => None
  end.

Definition key_eqb (a b : Key) : bool :=
  match a, b with
  | KNil, KNil => true
  | KInt x, KInt y => x =? y
  | KStr x, KStr y => String.eqb x y
  | _, _ => false
  end.

Inductive exn_kind : Type :=
(* txmsgpackrpc.error, as imported by protocol.py *)
| ConnectionError | ResponseError | InvalidRequest | InvalidResponse
| InvalidData | TimeoutError | SerializationError
(* named by the error taxonomy of the specification; protocol.py never
   constructs it *)
| UndefinedMessage
(* Python built-ins *)
| NotImplementedError | UnboundLocalError | TypeError | ValueError
| IndexError | AttributeError
(* twisted.internet.defer and twisted.internet.error *)
| AlreadyCalledError | AlreadyCalled | AlreadyCancelled
| ConnectionDone | ConnectionLost
| OtherError.

(** An exception value: its class and its constructor arguments.  A message
    built with [%] keeps the template and the interpolated value apart. *)
Inductive exn : Type :=
| Exn (kind : exn_kind) (args : list Value).

Definition kind_of (e : exn) : exn_kind :=
  match e with Exn k _ => k end.

Definition exn_kind_eqb (a b : exn_kind) : bool :=
  match a, b with
  | ConnectionError, ConnectionError | ResponseError, ResponseError
  | InvalidRequest, InvalidRequest | InvalidResponse, InvalidResponse
  | InvalidData, InvalidData | TimeoutError, TimeoutError
  | SerializationError, SerializationError
  | UndefinedMessage, UndefinedMessage
  | NotImplementedError, NotImplementedError
  | UnboundLocalError, UnboundLocalError | TypeError, TypeError
  | ValueError, ValueError | IndexError, IndexError
  | AttributeError, AttributeError
  | AlreadyCalledError, AlreadyCalledError | AlreadyCalled, AlreadyCalled
  | AlreadyCancelled, AlreadyCancelled | ConnectionDone, ConnectionDone
  | ConnectionLost, ConnectionLost | OtherError, OtherError => true
  | _, _ => false
  end.

(** ** Python dictionaries *)

Module PyDict.
Section Dict.
Variable V : Type.

Definition t := list (Key * V).

Fixpoint get (k : Key) (d : t) : option V :=
  match d with
  | [] => None
  | (k', v) :: d' => if key_eqb k k' then Some v else get k d'
  end.

Definition mem (k : Key) (d : t) : bool :=
  match get k d with Some _ => true | None => false end.

(** [del d[k]] *)
Fixpoint remove (k : Key) (d : t) : t :=
  match d with
  | [] => []
  | (k', v) :: d' => if key_eqb k k' then remove k d' else (k', v) :: remove k d'
  end.

Fixpoint replace (k : Key) (v : V) (d : t) : t :=
  match d with
  | [] => []
  | (k', v') :: d' =>
      if key_eqb k k' then (k', v) :: d' else (k', v') :: replace k v d'
  end.

(** [d[k] = v]: an existing key keeps its place, a new one is the newest. *)
Definition set (k : Key) (v : V) (d : t) : t :=
  if mem k d then replace k v d else (k, v) :: d.

Definition values (d : t) : list V := map snd d.
End Dict.
End PyDict.

(** ** Collaborators *)

(** One step of the streaming unpacker on its buffer: a whole value and the
    bytes after it, not enough bytes yet ([OutOfData], which ends the
    iteration and leaves the buffer as it is), or a format error. *)
Inductive unpack_result : Type :=
| Unpacked (v : Value) (rest : list byte)
| OutOfData
| UnpackError (e : exn).

(** What calling a remote method does: return a value, raise, or return a
    [Deferred] that the application fires later. *)
Inductive call_outcome : Type :=
| Returns (v : Value)
| Raises (e : exn)
| ReturnsDeferred.

(** A resolved remote method: whether [msgid] is among its
    [func_code.co_varnames], and the call [method( *params )] (with
    [msgid=...] when given). *)
Record Method : Type := {
  takes_msgid : bool;
  invoke : Value -> option Value -> call_outcome
}.

Class Env : Type := {
  (** [self._packer.pack(message)]: the packed bytes, or the exception. *)
  pack : Value -> exn + list byte;
  (** one value off the front of the unpacker's buffer *)
  unpack1 : list byte -> unpack_result;
  (** [factory.getRemoteMethod(self, name)] for a stream,
      [getattr(self.handler, "remote_" + name)] for a datagram protocol *)
  lookupMethod : Value -> exn + Method;
  (** [Failure.getErrorMessage()] and [Failure.getBriefTraceback()] *)
  getErrorMessage : exn -> Value;
  getBriefTraceback : exn -> Value
}.

(** ** The protocol object and its world *)

Inductive proto_class : Type := Stream | Datagram.

Definition Addr : Type := (string * Z)%type.

(** [Context = namedtuple('Context', ['peer'])] *)
Record Context : Type := { peer : option Addr }.

Inductive outcome : Type :=
| Success (v : Value)
| Failure (e : exn).

(** A [Deferred] handed to the caller of [createRequest]. *)
Inductive dstate : Type :=
| Pending
| Fired (o : outcome).

Inductive dc_status : Type := Scheduled | Cancelled | Called.

(** [reactor.callLater(delay, self.timeoutRequest, msgid)] *)
Record DelayedCall : Type := {
  dc_state : dc_status;
  dc_delay : N;
  dc_arg : Value
}.

(** The callbacks the protocol attaches to the [Deferred] of a remote call:
    [addCallback(self.respondCallback, msgid)],
    [addErrback(self.respondErrback, msgid)], [addBoth(self.endRequest, msgid)]
    and [addBoth(self.notificationCallback)]. *)
Inductive cb : Type :=
| CbRespondCallback (msgid : Value)
| EbRespondErrback (msgid : Value)
| BothEndRequest (msgid : Value)
| BothNotificationCallback.

(** The [Deferred] of a remote call ([defer.maybeDeferred]): its current
    result once it has fired, and the callbacks not yet run. *)
Record HandlerDeferred : Type := {
  hd_result : option outcome;
  hd_callbacks : list cb
}.

Record State : Type := {
  cls : proto_class;
  (* MsgpackBaseProtocol *)
  sendErrors : bool;
  incoming_requests : PyDict.t (nat * option Context);
  outgoing_requests : PyDict.t nat;
  next_msgid : Z;
  (* both transports *)
  connected : bool;
  (* MsgpackStreamProtocol: known to the factory; loseConnection called *)
  registered : bool;
  lose_requested : bool;
  (* MsgpackDatagramProtocol *)
  conn_address : option Addr;
  timeout : option N;
  pendingTimeouts : PyDict.t nat;
  listening : bool;
  (* the world: Deferreds by handle, delayed calls by handle, the bytes
     written to the transport, what was printed, the remote methods called *)
  deferreds : list dstate;
  handler_calls : list HandlerDeferred;
  reactor : list DelayedCall;
  transport : list (list byte * option Addr);
  stdout : list exn;
  app_calls : list (Value * Value * option Value)
}.

Definition upd_incoming (f : PyDict.t (nat * option Context) -> _) (s : State) : State :=
  {| cls := cls s; sendErrors := sendErrors s;
     incoming_requests := f (incoming_requests s);
     outgoing_requests := outgoing_requests s; next_msgid := next_msgid s;
     connected := connected s; registered := registered s;
     lose_requested := lose_requested s; conn_address := conn_address s;
     timeout := timeout s; pendingTimeouts := pendingTimeouts s;
     listening := listening s; deferreds := deferreds s;
     handler_calls := handler_calls s; reactor := reactor s;
     transport := transport s; stdout := stdout s; app_calls := app_calls s |}.

Definition upd_outgoing (f : PyDict.t nat -> PyDict.t nat) (s : State) : State :=
  {| cls := cls s; sendErrors := sendErrors s;
     incoming_requests := incoming_requests s;
     outgoing_requests := f (outgoing_requests s); next_msgid := next_msgid s;
     connected := connected s; registered := registered s;
     lose_requested := lose_requested s; conn_address := conn_address s;
     timeout := timeout s; pendingTimeouts := pendingTimeouts s;
     listening := listening s; deferreds := deferreds s;
     handler_calls := handler_calls s; reactor := reactor s;
     transport := transport s; stdout := stdout s; app_calls := app_calls s |}.

Definition upd_next_msgid (f : Z -> Z) (s : State) : State :=
  {| cls := cls s; sendErrors := sendErrors s;
     incoming_requests := incoming_requests s;
     outgoing_requests := outgoing_requests s; next_msgid := f (next_msgid s);
     connected := connected s; registered := registered s;
     lose_requested := lose_requested s; conn_address := conn_address s;
     timeout := timeout s; pendingTimeouts := pendingTimeouts s;
     listening := listening s; deferreds := deferreds s;
     handler_calls := handler_calls s; reactor := reactor s;
     transport := transport s; stdout := stdout s; app_calls := app_calls s |}.

Definition set_connected (b : bool) (s : State) : State :=
  {| cls := cls s; sendErrors := sendErrors s;
     incoming_requests := incoming_requests s;
     outgoing_requests := outgoing_requests s; next_msgid := next_msgid s;
     connected := b; registered := registered s;
     lose_requested := lose_requested s; conn_address := conn_address s;
     timeout := timeout s; pendingTimeouts := pendingTimeouts s;
     listening := listening s; deferreds := deferreds s;
     handler_calls := handler_calls s; reactor := reactor s;
     transport := transport s; stdout := stdout s; app_calls := app_calls s |}.

Definition set_registered (b : bool) (s : State) : State :=
  {| cls := cls s; sendErrors := sendErrors s;
     incoming_requests := incoming_requests s;
     outgoing_requests := outgoing_requests s; next_msgid := next_msgid s;
     connected := connected s; registered := b;
     lose_requested := lose_requested s; conn_address := conn_address s;
     timeout := timeout s; pendingTimeouts := pendingTimeouts s;
     listening := listening s; deferreds := deferreds s;
     handler_calls := handler_calls s; reactor := reactor s;
     transport := transport s; stdout := stdout s; app_calls := app_calls s |}.

Definition set_lose_requested (b : bool) (s : State) : State :=
  {| cls := cls s; sendErrors := sendErrors s;
     incoming_requests := incoming_requests s;
     outgoing_requests := outgoing_requests s; next_msgid := next_msgid s;
     connected := connected s; registered := registered s;
     lose_requested := b; conn_address := conn_address s;
     timeout := timeout s; pendingTimeouts := pendingTimeouts s;
     listening := listening s; deferreds := deferreds s;
     handler_calls := handler_calls s; reactor := reactor s;
     transport := transport s; stdout := stdout s; app_calls := app_calls s |}.

Definition upd_pendingTimeouts (f : PyDict.t nat -> PyDict.t nat) (s : State) : State :=
  {| cls := cls s; sendErrors := sendErrors s;
     incoming_requests := incoming_requests s;
     outgoing_requests := outgoing_requests s; next_msgid := next_msgid s;
     connected := connected s; registered := registered s;
     lose_requested := lose_requested s; conn_address := conn_address s;
     timeout := timeout s; pendingTimeouts := f (pendingTimeouts s);
     listening := listening s; deferreds := deferreds s;
     handler_calls := handler_calls s; reactor := reactor s;
     transport := transport s; stdout := stdout s; app_calls := app_calls s |}.

Definition set_listening (b : bool) (s : State) : State :=
  {| cls := cls s; sendErrors := sendErrors s;
     incoming_requests := incoming_requests s;
     outgoing_requests := outgoing_requests s; next_msgid := next_msgid s;
     connected := connected s; registered := registered s;
     lose_requested := lose_requested s; conn_address := conn_address s;
     timeout := timeout s; pendingTimeouts := pendingTimeouts s;
     listening := b; deferreds := deferreds s;
     handler_calls := handler_calls s; reactor := reactor s;
     transport := transport s; stdout := stdout s; app_calls := app_calls s |}.

Definition upd_deferreds (f : list dstate -> list dstate) (s : State) : State :=
  {| cls := cls s; sendErrors := sendErrors s;
     incoming_requests := incoming_requests s;
     outgoing_requests := outgoing_requests s; next_msgid := next_msgid s;
     connected := connected s; registered := registered s;
     lose_requested := lose_requested s; conn_address := conn_address s;
     timeout := timeout s; pendingTimeouts := pendingTimeouts s;
     listening := listening s; deferreds := f (deferreds s);
     handler_calls := handler_calls s; reactor := reactor s;
     transport := transport s; stdout := stdout s; app_calls := app_calls s |}.

Definition upd_handler_calls (f : list HandlerDeferred -> list HandlerDeferred) (s : State) : State :=
  {| cls := cls s; sendErrors := sendErrors s;
     incoming_requests := incoming_requests s;
     outgoing_requests := outgoing_requests s; next_msgid := next_msgid s;
     connected := connected s; registered := registered s;
     lose_requested := lose_requested s; conn_address := conn_address s;
     timeout := timeout s; pendingTimeouts := pendingTimeouts s;
     listening := listening s; deferreds := deferreds s;
     handler_calls := f (handler_calls s); reactor := reactor s;
     transport := transport s; stdout := stdout s; app_calls := app_calls s |}.

Definition upd_reactor (f : list DelayedCall -> list DelayedCall) (s : State) : State :=
  {| cls := cls s; sendErrors := sendErrors s;
     incoming_requests := incoming_requests s;
     outgoing_requests := outgoing_requests s; next_msgid := next_msgid s;
     connected := connected s; registered := registered s;
     lose_requested := lose_requested s; conn_address := conn_address s;
     timeout := timeout s; pendingTimeouts := pendingTimeouts s;
     listening := listening s; deferreds := deferreds s;
     handler_calls := handler_calls s; reactor := f (reactor s);
     transport := transport s; stdout := stdout s; app_calls := app_calls s |}.

Definition upd_transport (f : list (list byte * option Addr) -> _) (s : State) : State :=
  {| cls := cls s; sendErrors := sendErrors s;
     incoming_requests := incoming_requests s;
     outgoing_requests := outgoing_requests s; next_msgid := next_msgid s;
     connected := connected s; registered := registered s;
     lose_requested := lose_requested s; conn_address := conn_address s;
     timeout := timeout s; pendingTimeouts := pendingTimeouts s;
     listening := listening s; deferreds := deferreds s;
     handler_calls := handler_calls s; reactor := reactor s;
     transport := f (transport s); stdout := stdout s; app_calls := app_calls s |}.

Definition upd_stdout (f : list exn -> list exn) (s : State) : State :=
  {| cls := cls s; sendErrors := sendErrors s;
     incoming_requests := incoming_requests s;
     outgoing_requests := outgoing_requests s; next_msgid := next_msgid s;
     connected := connected s; registered := registered s;
     lose_requested := lose_requested s; conn_address := conn_address s;
     timeout := timeout s; pendingTimeouts := pendingTimeouts s;
     listening := listening s; deferreds := deferreds s;
     handler_calls := handler_calls s; reactor := reactor s;
     transport := transport s; stdout := f (stdout s); app_calls := app_calls s |}.

Definition upd_app_calls (f : list (Value * Value * option Value) -> _) (s : State) : State :=
  {| cls := cls s; sendErrors := sendErrors s;
     incoming_requests := incoming_requests s;
     outgoing_requests := outgoing_requests s; next_msgid := next_msgid s;
     connected := connected s; registered := registered s;
     lose_requested := lose_requested s; conn_address := conn_address s;
     timeout := timeout s; pendingTimeouts := pendingTimeouts s;
     listening := listening s; deferreds := deferreds s;
     handler_calls := handler_calls s; reactor := reactor s;
     transport := transport s; stdout := stdout s; app_calls := f (app_calls s) |}.

(** ** The monad of methods: state, and exceptions that keep the state *)

Inductive Res (A : Type) : Type :=
| Ok (a : A) (s : State)
| Raise (e : exn) (s : State).

Arguments Ok {A} a s.
Arguments Raise {A} e s.

Definition M (A : Type) : Type := State -> Res A.

Definition ret {A} (a : A) : M A := fun s => Ok a s.

Definition bind {A B} (m : M A) (k : A -> M B) : M B :=
  fun s => match m s with
           | Ok a s' => k a s'
           | Raise e s' => Raise e s'
           end.

Definition raise {A} (e : exn) : M A := fun s => Raise e s.

(** [try: m  except Exception as e: ...] seen from the handler's side. *)
Definition catch {A} (m : M A) : M (exn + A) :=
  fun s => match m s with
           | Ok a s' => Ok (inr a) s'
           | Raise e s' => Ok (inl e) s'
           end.

Definition gets {A} (f : State -> A) : M A := fun s => Ok (f s) s.
Definition modify (f : State -> State) : M unit := fun s => Ok tt (f s).

Definition state_of {A} (r : Res A) : State :=
  match r with Ok _ s => s | Raise _ s => s end.

Declare Scope proto_scope.
Delimit Scope proto_scope with proto.
Notation "x <- c ;; k" := (bind c (fun x => k))
  (at level 61, c at next level, right associativity) : proto_scope.
Notation "c ;; k" := (bind c (fun _ => k))
  (at level 61, right associativity) : proto_scope.
Local Open Scope proto_scope.

(** ** Python primitives *)

Definition str_items (s : string) : list Value :=
  map (fun c => VStr (String c EmptyString)) (list_ascii_of_string s).

(** [message[i]] *)
Definition getitem (message : Value) (i : nat) : M Value :=
  match message with
  | VList l =>
      match nth_error l i with
      | Some v => ret v
      | None => raise (Exn IndexError [VStr "list index out of range"])
      end
  | VStr s =>
      match nth_error (str_items s) i with
      | Some v => ret v
      | None => raise (Exn IndexError [VStr "string index out of range"])
      end
  | _ => raise (Exn TypeError [VStr "object is not subscriptable"])
  end.

(** The items a tuple assignment iterates over. *)
Definition iter_items (message : Value) : exn + list Value :=
  match message with
  | VList l => inr l
  | VStr s => inr (str_items s)
  | _ => inl (Exn TypeError [VStr "object is not iterable"])
  end.

(** [(a, b, c, d) = message] *)
Definition unpack4 (message : Value) : exn + (Value * Value * Value * Value) :=
  match iter_items message with
  | inl e => inl e
  | inr [a; b; c; d] => inr (a, b, c, d)
  | inr _ => inl (Exn ValueError [VStr "wrong number of values to unpack"])
  end.

(** [(a, b, c) = message] *)
Definition unpack3 (message : Value) : exn + (Value * Value * Value) :=
  match iter_items message with
  | inl e => inl e
  | inr [a; b; c] => inr (a, b, c)
  | inr _ => inl (Exn ValueError [VStr "wrong number of values to unpack"])
  end.

(** [len(message)] where the source takes it (after a failed unpacking). *)
Definition py_len (message : Value) : Z :=
  match iter_items message with
  | inr l => Z.of_nat (List.length l)
  | inl _ => 0
  end.

(** [template % message] for a template with one [%s] and a tuple
    [message]: [%] takes the items of a tuple as its arguments, so that only
    a tuple of one item fits. *)
Definition format_tuple (template : string) (message : list Value) : exn + list Value :=
  match message with
  | [x] => inr [VStr template; x]
  | [] => inl (Exn TypeError [VStr "not enough arguments for format string"])
  | _ => inl (Exn TypeError
                [VStr "not all arguments converted during string formatting"])
  end.

(** Hashing the key of a dictionary operation. *)
Definition hash (v : Value) : M Key :=
  match key_of v with
  | Some k => ret k
  | None => raise (Exn TypeError [VStr "unhashable type"])
  end.

(** [print(e)] *)
Definition print (e : exn) : M unit :=
  modify (upd_stdout (fun l => l ++ [e])).

(** A local variable that may not have been assigned. *)
Definition local {A} (name : string) (x : option A) : M A :=
  match x with
  | Some a => ret a
  | None => raise (Exn UnboundLocalError [VStr name])
  end.

Fixpoint list_set {A} (i : nat) (x : A) (l : list A) : list A :=
  match l, i with
  | [], _ => []
  | _ :: l', O => x :: l'
  | y :: l', S i' => y :: list_set i' x l'
  end.

(** ** Twisted: Deferred and DelayedCall *)

(** [defer.Deferred()] *)
Definition new_deferred : M nat :=
  fun s => Ok (List.length (deferreds s)) (upd_deferreds (fun l => l ++ [Pending]) s).

(** [d.callback(result)] and [d.errback(fail)]: a Deferred fires once, a
    second firing raises [AlreadyCalledError].  (A handle outside the store
    is never made.) *)
Definition fire (d : nat) (o : outcome) : M unit :=
  fun s => match nth_error (deferreds s) d with
           | Some Pending => Ok tt (upd_deferreds (list_set d (Fired o)) s)
           | _ => Raise (Exn AlreadyCalledError []) s
           end.

Definition callback (d : nat) (result : Value) : M unit := fire d (Success result).
Definition errback (d : nat) (fail : exn) : M unit := fire d (Failure fail).

(** [reactor.callLater(delay, self.timeoutRequest, msgid)] *)
Definition callLater (delay : N) (msgid : Value) : M nat :=
  fun s => Ok (List.length (reactor s))
              (upd_reactor (fun l => l ++ [{| dc_state := Scheduled; dc_delay := delay; dc_arg := msgid |}]) s).

Definition set_dc_state (st : dc_status) (c : DelayedCall) : DelayedCall :=
  {| dc_state := st; dc_delay := dc_delay c; dc_arg := dc_arg c |}.

(** [dc.cancel()]: only a call that is still scheduled can be cancelled. *)
Definition dc_cancel (dc : nat) : M unit :=
  fun s => match nth_error (reactor s) dc with
           | Some c =>
               match dc_state c with
               | Scheduled => Ok tt (upd_reactor (list_set dc (set_dc_state Cancelled c)) s)
               | Cancelled => Raise (Exn AlreadyCancelled []) s
               | Called => Raise (Exn AlreadyCalled []) s
               end
           | None => Raise (Exn AlreadyCalled []) s
           end.

(** [True] for a timeout that is neither [None] nor zero. *)
Definition truthy (t : option N) : option N :=
  match t with
  | Some n => if (n =? 0)%N then None else Some n
  | None => None
  end.

Section Protocol.
Context {E : Env}.

(** ** Methods the transports implement *)

(** [self.connected == 1], the same in both transports *)
Definition isConnected : M bool := gets connected.

Definition stream_getClientContext : M (option Context) := ret None.

Definition dgram_getClientContext : M (option Context) :=
  a <- gets conn_address;; ret (Some {| peer := a |}).

Definition getClientContext : M (option Context) :=
  c <- gets cls;;
  match c with
  | Stream => stream_getClientContext
  | Datagram => dgram_getClientContext
  end.

(** [self.transport.write(message)] *)
Definition stream_writeRawData (message : list byte) (context : option Context) : M unit :=
  modify (upd_transport (fun w => w ++ [(message, None)])).

(** [self.transport.write(message, context.peer)] *)
Definition dgram_writeRawData (message : list byte) (context : option Context) : M unit :=
  match context with
  | Some c => modify (upd_transport (fun w => w ++ [(message, peer c)]))
  | None => raise (Exn AttributeError [VStr "'NoneType' object has no attribute 'peer'"])
  end.

Definition writeRawData (message : list byte) (context : option Context) : M unit :=
  c <- gets cls;;
  match c with
  | Stream => stream_writeRawData message context
  | Datagram => dgram_writeRawData message context
  end.

(** ** MsgpackBaseProtocol, and the overrides of MsgpackDatagramProtocol *)

(** [message] is the tuple the callers build.  When the packer refuses and
    [sendErrors] is off, the text of the [SerializationError] is formatted
    first, and that fails for the tuples of three and four items the
    protocol writes. *)
Definition base_writeMessage (message : list Value) (context : option Context) : M unit :=
  match pack (VList message) with
  | inl e =>
      se <- gets sendErrors;;
      if se then raise e
      else match format_tuple "ERROR: Failed to write message: %s" message with
           | inr args => raise (Exn SerializationError args)
           | inl type_error => raise type_error
           end
  | inr packed => writeRawData packed context
  end.

Definition dgram_writeMessage (message : list Value) (context : option Context) : M unit :=
  t <- gets timeout;;
  match truthy t with
  | Some delay =>
      msgid <- getitem (VList message) 1;;
      dc <- callLater delay msgid;;
      k <- hash msgid;;
      modify (upd_pendingTimeouts (PyDict.set k dc))
  | None => ret tt
  end;;
  base_writeMessage message context.

Definition writeMessage (message : list Value) (context : option Context) : M unit :=
  c <- gets cls;;
  match c with
  | Stream => base_writeMessage message context
  | Datagram => dgram_writeMessage message context
  end.

Definition getNextMsgid : M Z :=
  modify (upd_next_msgid (fun n => n + 1));;
  gets next_msgid.

Definition createRequest (method params : Value) : M nat :=
  c <- isConnected;;
  if negb c then raise (Exn ConnectionError [VStr "Not connected"])
  else
    msgid <- getNextMsgid;;
    let message := [VInt MSGTYPE_REQUEST; VInt msgid; method; params] in
    ctx <- getClientContext;;
    writeMessage message ctx;;
    df <- new_deferred;;
    modify (upd_outgoing (PyDict.set (KInt msgid) df));;
    ret df.

(** [createRequest(self, method, *params)] of the datagram protocol *)
Definition dgram_createRequest (method : Value) (params : list Value) : M nat :=
  createRequest method (VList params).

Definition createNotification (method params : Value) : M unit :=
  c <- isConnected;;
  if negb c then raise (Exn ConnectionError [VStr "Not connected"])
  else
    let params := match params with VList _ => params | _ => VList [params] end in
    let message := [VInt MSGTYPE_NOTIFICATION; method; params] in
    ctx <- getClientContext;;
    writeMessage message ctx.

(** The result is a value ([inl]) or a [Deferred] of the application
    ([inr]).  [traceback.print_exc()] writes to stderr, which is not kept. *)
Definition callRemoteMethod (msgid methodName params : Value) : M (Value + unit) :=
  se <- gets sendErrors;;
  method <- match lookupMethod methodName with
            | inr m => ret m
            | inl e =>
                if se then raise e
                else raise (Exn InvalidRequest
                                [VStr "Client attempted to call unimplemented method: remote_%s";
                                 methodName])
            end;;
  let send_msgid := takes_msgid method in
  let kw := if send_msgid then Some msgid else None in
  modify (upd_app_calls (fun l => l ++ [(methodName, params, kw)]));;
  match invoke method params kw with
  | Returns v => ret (inl v)
  | ReturnsDeferred => ret (inr tt)
  | Raises e =>
      if exn_kind_eqb (kind_of e) TypeError then
        if se then raise e
        else raise (Exn InvalidRequest [VStr "Wrong number of arguments for %s"; methodName])
      else raise e
  end.

Definition endRequest (result : outcome) (msgid : Value) : M outcome :=
  k <- hash msgid;;
  inc <- gets incoming_requests;;
  (if PyDict.mem k inc then modify (upd_incoming (PyDict.remove k)) else ret tt);;
  ret result.

(** [_, ctx = self._incoming_requests[msgid]], [ctx = None] on [KeyError] *)
Definition incoming_context (msgid : Value) : M (option Context) :=
  k <- hash msgid;;
  inc <- gets incoming_requests;;
  match PyDict.get k inc with
  | Some (_, ctx) => ret ctx
  | None => ret None
  end.

Definition respondCallback (result msgid : Value) : M Value :=
  ctx <- incoming_context msgid;;
  let error := VNil in
  let response := [VInt MSGTYPE_RESPONSE; msgid; error; result] in
  writeMessage response ctx;;
  ret VNil.

Definition respondError (msgid error result : Value) : M unit :=
  ctx <- incoming_context msgid;;
  let response := [VInt MSGTYPE_RESPONSE; msgid; error; result] in
  writeMessage response ctx.

Definition respondErrback (f : exn) (msgid : Value) : M Value :=
  let result := VNil in
  se <- gets sendErrors;;
  let error := if se then getBriefTraceback f else getErrorMessage f in
  respondError msgid error result;;
  ret VNil.

Definition notificationCallback (result : outcome) : M Value := ret VNil.

(** *** The Deferred of a remote call *)

Definition as_outcome (r : exn + Value) : outcome :=
  match r with inl e => Failure e | inr v => Success v end.

(** One callback of the chain on the current result: a callback runs on a
    success, an errback on a failure, and what it returns or raises is the
    next result. *)
Definition apply_cb (c : cb) (o : outcome) : M outcome :=
  match c, o with
  | CbRespondCallback msgid, Success v =>
      r <- catch (respondCallback v msgid);; ret (as_outcome r)
  | EbRespondErrback msgid, Failure f =>
      r <- catch (respondErrback f msgid);; ret (as_outcome r)
  | BothEndRequest msgid, _ =>
      r <- catch (endRequest o msgid);;
      ret (match r with inl e => Failure e | inr o' => o' end)
  | BothNotificationCallback, _ =>
      r <- catch (notificationCallback o);; ret (as_outcome r)
  | _, _ => ret o
  end.

Fixpoint run_cbs (cbs : list cb) (o : outcome) : M outcome :=
  match cbs with
  | [] => ret o
  | c :: cbs' => o' <- apply_cb c o;; run_cbs cbs' o'
  end.

(** [Deferred._runCallbacks]: once fired, run and drop the waiting callbacks. *)
Definition runCallbacks (h : nat) : M unit :=
  hs <- gets handler_calls;;
  match nth_error hs h with
  | Some {| hd_result := Some o; hd_callbacks := cbs |} =>
      o' <- run_cbs cbs o;;
      modify (upd_handler_calls
                (list_set h {| hd_result := Some o'; hd_callbacks := [] |}))
  | _ => ret tt
  end.

(** [addCallback], [addErrback] and [addBoth] *)
Definition addCallbacks (h : nat) (c : cb) : M unit :=
  hs <- gets handler_calls;;
  match nth_error hs h with
  | Some d =>
      modify (upd_handler_calls
                (list_set h {| hd_result := hd_result d;
                               hd_callbacks := hd_callbacks d ++ [c] |}));;
      runCallbacks h
  | None => ret tt
  end.

(** [defer.maybeDeferred(f, ...)]: a fired Deferred for a value or an
    exception, the application's own Deferred otherwise. *)
Definition maybeDeferred (f : M (Value + unit)) : M nat :=
  r <- catch f;;
  let result := match r with
                | inl e => Some (Failure e)
                | inr (inl v) => Some (Success v)
                | inr (inr _) => None
                end in
  hs <- gets handler_calls;;
  modify (upd_handler_calls
            (fun l => l ++ [{| hd_result := result; hd_callbacks := [] |}]));;
  ret (List.length hs).

(** The application fires the Deferred its remote method returned. *)
Definition handlerFired (h : nat) (o : outcome) : M unit :=
  hs <- gets handler_calls;;
  match nth_error hs h with
  | Some {| hd_result := None; hd_callbacks := cbs |} =>
      modify (upd_handler_calls
                (list_set h {| hd_result := Some o; hd_callbacks := cbs |}));;
      runCallbacks h
  | _ => raise (Exn AlreadyCalledError [])
  end.

(** *** Incoming messages *)

Definition requestReceived (message : Value) (context : option Context) : M nat :=
  se <- gets sendErrors;;
  match unpack4 message with
  | inl e =>
      if se then raise e
      else if exn_kind_eqb (kind_of e) ValueError then
        if negb (py_len message =? 4) then
          raise (Exn InvalidData
                     [VStr "Incorrect message length. Expected 4; received %s";
                      VInt (py_len message)])
        else raise (Exn InvalidData [VStr "Failed to unpack request."])
      else raise (Exn InvalidData [VStr "Unexpected error. Failed to unpack request."])
  | inr (msgType, msgid, methodName, params) =>
      k <- hash msgid;;
      inc <- gets incoming_requests;;
      if PyDict.mem k inc then
        raise (Exn InvalidRequest [VStr "Request with msgid '%s' already exists"; msgid])
      else
        result <- maybeDeferred (callRemoteMethod msgid methodName params);;
        modify (upd_incoming (PyDict.set k (result, context)));;
        addCallbacks result (CbRespondCallback msgid);;
        addCallbacks result (EbRespondErrback msgid);;
        addCallbacks result (BothEndRequest msgid);;
        ret result
  end.

(** [df = self._outgoing_requests.pop(msgid)] under [except KeyError: pass]:
    on a missing key nothing is assigned to [df]. *)
Definition pop_outgoing (msgid : Value) : M (option nat) :=
  k <- hash msgid;;
  out <- gets outgoing_requests;;
  match PyDict.get k out with
  | Some d => modify (upd_outgoing (PyDict.remove k));; ret (Some d)
  | None => ret None
  end.

Definition base_responseReceived (message : Value) : M unit :=
  match unpack4 message with
  | inl e =>
      se <- gets sendErrors;;
      if se then raise e
      else raise (Exn InvalidResponse [VStr "Failed to unpack response: %s"])
  | inr (msgType, msgid, error, result) =>
      df <- pop_outgoing msgid;;
      if is_not_None error then
        let ex := Exn ResponseError [error] in
        d <- local "df" df;;
        errback d ex
      else
        d <- local "df" df;;
        callback d result
  end.

Definition dgram_responseReceived (message : Value) : M unit :=
  msgid <- getitem message 1;;
  k <- hash msgid;;
  pt <- gets pendingTimeouts;;
  match PyDict.get k pt with
  | Some dc => dc_cancel dc
  | None => ret tt
  end;;
  base_responseReceived message.

Definition responseReceived (message : Value) : M unit :=
  c <- gets cls;;
  match c with
  | Stream => base_responseReceived message
  | Datagram => dgram_responseReceived message
  end.

Definition notificationReceived (message : Value) : M unit :=
  let msgid := VNil in
  match unpack3 message with
  | inl e => print e
  | inr (msgType, methodName, params) =>
      r <- catch (result <- maybeDeferred (callRemoteMethod msgid methodName params);;
                  addCallbacks result BothNotificationCallback);;
      match r with
      | inl e => print e
      | inr _ => ret tt
      end
  end.

Definition undefinedMessageReceived (message : Value) : M unit :=
  tag <- getitem message 0;;
  raise (Exn NotImplementedError
             [VStr "Msgpack received a message of type '%s', and no method has been specified to handle this.";
              tag]).

Definition messageReceived (message : Value) (context : option Context) : M unit :=
  tag <- getitem message 0;;
  if py_eq_int tag MSGTYPE_REQUEST then
    requestReceived message context;; ret tt
  else if py_eq_int tag MSGTYPE_RESPONSE then
    responseReceived message
  else if py_eq_int tag MSGTYPE_NOTIFICATION then
    notificationReceived message
  else undefinedMessageReceived message.

(** [while self._outgoing_requests: msgid, d = popitem(); func(d)].  [func]
    adds no entry, so as many rounds as there are entries empty the table. *)
Fixpoint callbackOutgoing_loop (fuel : nat) (func : nat -> M unit) : M unit :=
  match fuel with
  | O => ret tt
  | S fuel' =>
      out <- gets outgoing_requests;;
      match out with
      | [] => ret tt
      | (msgid, d) :: out' =>
          modify (upd_outgoing (fun _ => out'));;
          func d;;
          callbackOutgoing_loop fuel' func
      end
  end.

Definition callbackOutgoingRequests (func : nat -> M unit) : M unit :=
  out <- gets outgoing_requests;;
  callbackOutgoing_loop (List.length out) func.

(** ** MsgpackStreamProtocol *)

Definition connectionMade : M unit :=
  modify (set_connected true);;
  modify (set_registered true).

Definition connectionLost (reason : exn) : M unit :=
  modify (set_connected false);;
  modify (set_registered false);;
  callbackOutgoingRequests (fun d => errback d reason).

Definition timeoutConnection : M unit :=
  callbackOutgoingRequests
    (fun d => errback d (Exn TimeoutError [VStr "Request timed out"]));;
  modify (set_lose_requested true).

Definition stream_closeConnection : M unit :=
  modify (set_lose_requested true).

(** ** MsgpackDatagramProtocol *)

Definition startProtocol : M unit :=
  modify (set_connected true).

Definition connectionRefused : M unit :=
  callbackOutgoingRequests
    (fun d => errback d (Exn ConnectionError [VStr "Connection refused"])).

Definition timeoutRequest (msgid : Value) : M unit :=
  k <- hash msgid;;
  out <- gets outgoing_requests;;
  match PyDict.get k out with
  | Some d => errback d (Exn TimeoutError [VStr "Request timed out"])
  | None => ret tt
  end.

Definition dgram_closeConnection : M unit :=
  modify (set_connected false);;
  modify (set_listening false).

(** The reactor runs a delayed call that is still scheduled. *)
Definition runDelayedCall (dc : nat) : M unit :=
  r <- gets reactor;;
  match nth_error r dc with
  | Some c =>
      match dc_state c with
      | Scheduled =>
          modify (upd_reactor (list_set dc (set_dc_state Called c)));;
          timeoutRequest (dc_arg c)
      | _ => ret tt
      end
  | None => ret tt
  end.

(** ** Receiving bytes *)

(** The protocol object: the unpacker's buffer beside the other fields. *)
Record Protocol : Type := {
  unpacker : list byte;
  st : State
}.

(** [for message in self._unpacker: self.messageReceived(message, context)]
    inside [try ... except Exception as e: print(e)]: an exception ends the
    loop, and the messages still in the buffer wait for the next call.  A
    message takes at least one byte, so one round more than the buffer has
    bytes lets the loop run to its end.  After a format error the buffer is
    left as it was. *)
Fixpoint unpacker_loop (fuel : nat) (context : option Context) (p : Protocol) : Protocol :=
  match fuel with
  | O => p
  | S fuel' =>
      match unpack1 (unpacker p) with
      | Unpacked message rest =>
          match messageReceived message context (st p) with
          | Ok _ s' => unpacker_loop fuel' context {| unpacker := rest; st := s' |}
          | Raise e s' => {| unpacker := rest; st := state_of (print e s') |}
          end
      | OutOfData => p
      | UnpackError e => {| unpacker := unpacker p; st := state_of (print e (st p)) |}
      end
  end.

Definition rawDataReceived (data : list byte) (context : option Context) (p : Protocol) : Protocol :=
  let buf := (unpacker p ++ data)%list in
  unpacker_loop (S (List.length buf)) context {| unpacker := buf; st := st p |}.

(** [dataReceived] of the stream protocol ([resetTimeout] is the mixin's) *)
Definition dataReceived (data : list byte) (p : Protocol) : Protocol :=
  rawDataReceived data None p.

Definition datagramReceived (data : list byte) (address : Addr) (p : Protocol) : Protocol :=
  let ctx := {| peer := Some address |} in
  rawDataReceived data (Some ctx) p.

End Protocol.

(** ** The protocol as a machine *)

(** What the application, the transport and the reactor do to a protocol
    object: the calls of its public interface. *)
Inductive Event : Type :=
| EvConnectionMade
| EvStartProtocol
| EvCreateRequest (method : Value) (args : list Value)
| EvCreateNotification (method params : Value)
| EvDataReceived (data : list byte)
| EvDatagramReceived (data : list byte) (address : Addr)
| EvConnectionLost (reason : exn)
| EvTimeoutConnection
| EvConnectionRefused
| EvCloseConnection
| EvDelayedCall (dc : nat)
| EvHandlerFired (h : nat) (o : outcome).

Section Machine.
Context {E : Env}.

Definition on_state {A} (m : M A) (p : Protocol) : Protocol :=
  {| unpacker := unpacker p; st := state_of (m (st p)) |}.

(** [p.createRequest(method, *args)]: the stream protocol takes
    [(method, params)], the datagram protocol [(method, *params)]. *)
Definition call_createRequest (method : Value) (args : list Value) : M nat :=
  c <- gets cls;;
  match c, args with
  | Stream, [params] => createRequest method params
  | Stream, _ => raise (Exn TypeError [VStr "createRequest() takes exactly 3 arguments"])
  | Datagram, _ => dgram_createRequest method args
  end.

(** One event; an exception goes to whoever made the call (the caller of
    the interface, or the reactor, which logs it) and the object keeps the
    state it had reached.  An event of the other transport is not
    delivered; delayed calls are the datagram protocol's. *)
Definition step (ev : Event) (p : Protocol) : Protocol :=
  match ev, cls (st p) with
  | EvConnectionMade, Stream => on_state connectionMade p
  | EvStartProtocol, Datagram => on_state startProtocol p
  | EvCreateRequest method args, _ => on_state (call_createRequest method args) p
  | EvCreateNotification method params, _ => on_state (createNotification method params) p
  | EvDataReceived data, Stream => dataReceived data p
  | EvDatagramReceived data address, Datagram => datagramReceived data address p
  | EvConnectionLost reason, Stream => on_state (connectionLost reason) p
  | EvTimeoutConnection, Stream => on_state timeoutConnection p
  | EvConnectionRefused, Datagram => on_state connectionRefused p
  | EvCloseConnection, Stream => on_state stream_closeConnection p
  | EvCloseConnection, Datagram => on_state dgram_closeConnection p
  | EvDelayedCall dc, Datagram => on_state (runDelayedCall dc) p
  | EvHandlerFired h o, _ => on_state (handlerFired h o) p
  | _, _ => p
  end.

Fixpoint run (tr : list Event) (p : Protocol) : Protocol :=
  match tr with
  | [] => p
  | ev :: tr' => run tr' (step ev p)
  end.

(** The msgids [getNextMsgid] hands out along a run: one for each
    [createRequest] that passes the connection test. *)
Definition assigned_by (ev : Event) (p : Protocol) : list Z :=
  match ev, cls (st p), connected (st p) with
  | EvCreateRequest _ [_], Stream, true => [next_msgid (st p) + 1]
  | EvCreateRequest _ _, Datagram, true => [next_msgid (st p) + 1]
  | _, _, _ => []
  end.

Fixpoint assigned_msgids (tr : list Event) (p : Protocol) : list Z :=
  match tr with
  | [] => []
  | ev :: tr' => (assigned_by ev p ++ assigned_msgids tr' (step ev p))%list
  end.

End Machine.

(** [MsgpackBaseProtocol.__init__] with the fields of the subclass *)
Definition init_state (c : proto_class) (send_errors : bool)
    (address : option Addr) (tmo : option N) : State :=
  {| cls := c; sendErrors := send_errors;
     incoming_requests := []; outgoing_requests := []; next_msgid := 0;
     connected := false; registered := false; lose_requested := false;
     conn_address := address; timeout := tmo; pendingTimeouts := [];
     listening := true; deferreds := []; handler_calls := []; reactor := [];
     transport := []; stdout := []; app_calls := [] |}.

(** [MsgpackStreamProtocol(factory, sendErrors)]; its idle timeout lives in
    [policies.TimeoutMixin]. *)
Definition stream_protocol (send_errors : bool) : Protocol :=
  {| unpacker := []; st := init_state Stream send_errors None None |}.

(** [MsgpackDatagramProtocol(address, handler, sendErrors, timeout)] *)
Definition datagram_protocol (address : option Addr) (send_errors : bool)
    (tmo : option N) : Protocol :=
  {| unpacker := []; st := init_state Datagram send_errors address tmo |}.

(** ** The wire codec: what the engine relies on *)

(** The contract of the streaming unpacker against the packer: a packed
    value followed by anything unpacks to that value and leaves the rest; a
    packed value cut short is not enough data; an empty buffer is not enough
    data. *)
Class CodecLaws (E : Env) : Prop := {
  unpack1_pack : forall v packed rest,
    pack v = inr packed -> unpack1 (packed ++ rest) = Unpacked v rest;
  unpack1_partial : forall v p q,
    pack v = inr (p ++ q) -> q <> [] -> unpack1 p = OutOfData;
  unpack1_nil : unpack1 [] = OutOfData
}.

(** The bytes of a sequence of messages, when each of them packs. *)
Fixpoint pack_all {E : Env} (ms : list Value) : option (list byte) :=
  match ms with
  | [] => Some []
  | m :: ms' =>
      match pack m, pack_all ms' with
      | inr b, Some bs => Some (b ++ bs)%list
      | _, _ => None
      end
  end.

(** Handling the messages one after the other, when none of them raises. *)
Fixpoint handle_all {E : Env} (ms : list Value) (context : option Context)
    (s : State) : option State :=
  match ms with
  | [] => Some s
  | m :: ms' =>
      match messageReceived m context s with
      | Ok _ s' => handle_all ms' context s'
      | Raise _ _ => None
      end
  end.

(** ** Notions the properties are stated with *)

(** Every state a method can end in, normally or not, is related to the
    state it started from. *)
Definition steps (R : State -> State -> Prop) {A} (m : M A) : Prop :=
  forall s, R s (state_of (m s)).

(** The caller of [createRequest] has observed outcome [o] on handle [d]. *)
Definition fired_at (s : State) (d : nat) (o : outcome) : Prop :=
  nth_error (deferreds s) d = Some (Fired o).

Definition pending_at (s : State) (d : nat) : Prop :=
  nth_error (deferreds s) d = Some Pending.

(** What has been observed stays observed. *)
Definition stable (s s' : State) : Prop :=
  forall d o, fired_at s d o -> fired_at s' d o.

(** Every key of the outgoing table is a msgid the counter has reached. *)
Definition keys_bounded (s : State) : Prop :=
  forall k d, In (k, d) (outgoing_requests s) ->
    exists z, k = KInt z /\ z <= next_msgid s.

(** The fields the handling of requests and notifications and the writing
    of messages leave alone. *)
Definition same_core (s s' : State) : Prop :=
  cls s' = cls s /\ sendErrors s' = sendErrors s /\
  outgoing_requests s' = outgoing_requests s /\
  next_msgid s' = next_msgid s /\ deferreds s' = deferreds s /\
  connected s' = connected s /\ timeout s' = timeout s /\
  conn_address s' = conn_address s.

(** The counter never goes back. *)
Definition counter_le (s s' : State) : Prop := next_msgid s <= next_msgid s'.

Definition keeps_keys_bounded (s s' : State) : Prop :=
  keys_bounded s -> keys_bounded s'.

(** Events that can resolve a pending request: bytes from the peer, the
    loss or refusal of the connection, the idle timeout, a delayed call. *)
Definition resolving (ev : Event) : bool :=
  match ev with
  | EvDataReceived _ | EvDatagramReceived _ _ | EvConnectionLost _
  | EvTimeoutConnection | EvConnectionRefused | EvDelayedCall _ => true
  | _ => false
  end.

Definition keeps_pending (d : nat) (s s' : State) : Prop :=
  pending_at s d -> pending_at s' d.

(** The delayed calls and the map of pending timeouts are untouched. *)
Definition same_timers (s s' : State) : Prop :=
  reactor s' = reactor s /\ pendingTimeouts s' = pendingTimeouts s.

Definition same_pendingTimeouts (s s' : State) : Prop :=
  pendingTimeouts s' = pendingTimeouts s.

(** Every handle of the outgoing table is still pending. *)
Definition all_pending (s : State) : Prop :=
  forall k d, In (k, d) (outgoing_requests s) -> pending_at s d.

(** The Deferreds after each handle of [ds] has been failed with [e]. *)
Definition fail_all (ds : list nat) (e : exn) (l : list dstate) : list dstate :=
  fold_left (fun l d => list_set d (Fired (Failure e)) l) ds l.

(** The callbacks [requestReceived] attaches, in order. *)
Definition request_chain (msgid : Value) : list cb :=
  [CbRespondCallback msgid; EbRespondErrback msgid; BothEndRequest msgid].

(** Where the transport sends what is written with [context]. *)
Definition route (s : State) (context : option Context) : option Addr :=
  match cls s, context with
  | Datagram, Some c => peer c
  | _, _ => None
  end.

(** [writeRawData] can use [context]: the datagram transport needs one. *)
Definition writable (s : State) (context : option Context) : Prop :=
  cls s = Stream \/ context <> None.

(** [packed] is a Response to [msgid], with an error or with a result. *)
Definition is_response_to {E : Env} (msgid : Value) (packed : list byte) : Prop :=
  exists error result,
    pack (VList [VInt MSGTYPE_RESPONSE; msgid; error; result]) = inr packed /\
    (error = VNil \/ result = VNil).

(** From [s] to [s'] exactly one Response to [msgid] went to the
    transport, routed by [context]. *)
Definition wrote_response {E : Env} (msgid : Value) (context : option Context)
    (s s' : State) : Prop :=
  exists packed,
    is_response_to msgid packed /\
    transport s' = (transport s ++ [(packed, route s context)])%list.

(** The packer accepts the error Responses to [msgid]: the msgid came off
    the wire and the error is the text of a failure. *)
Definition error_responses_pack {E : Env} (msgid : Value) : Prop :=
  forall f,
    (exists b, pack (VList [VInt MSGTYPE_RESPONSE; msgid; getErrorMessage f; VNil]) = inr b) /\
    (exists b, pack (VList [VInt MSGTYPE_RESPONSE; msgid; getBriefTraceback f; VNil]) = inr b).

(** What the writing of a message leaves alone, and what the call of a
    remote method leaves alone. *)
Definition resp_frame (s s' : State) : Prop :=
  cls s' = cls s /\ sendErrors s' = sendErrors s /\
  incoming_requests s' = incoming_requests s /\
  timeout s' = timeout s /\ handler_calls s' = handler_calls s.

Definition call_frame (s s' : State) : Prop :=
  resp_frame s s' /\ transport s' = transport s.

(** The entry under [k] is there, with [context], and can be answered. *)
Definition registered_at (k : Key) (s : State) (context : option Context) : Prop :=
  (exists h, PyDict.get k (incoming_requests s) = Some (h, context)) /\
  writable s context.

(** From [s] to [s'] the request [msgid] was answered: one Response was
    written and the entry under [k] removed. *)
Definition answered {E : Env} (msgid : Value) (k : Key)
    (context : option Context) (s s' : State) : Prop :=
  wrote_response msgid context s s' /\
  incoming_requests s' = PyDict.remove k (incoming_requests s) /\
  cls s' = cls s /\ handler_calls s' = handler_calls s.

(** What holds of a stream protocol throughout its life: the keys are
    below the counter, and the handles of the table are pending and
    distinct. *)
Definition stream_inv (s : State) : Prop :=
  cls s = Stream /\ keys_bounded s /\ all_pending s /\
  NoDup (PyDict.values (outgoing_requests s)).

Definition keeps_stream_inv (s s' : State) : Prop :=
  stream_inv s -> stream_inv s'.

(** What [getClientContext] returns in state [s]. *)
Definition client_context (s : State) : option Context :=
  match cls s with
  | Stream => None
  | Datagram => Some {| peer := conn_address s |}
  end.

(** The parameters [createNotification] sends: anything that is not a list
    or a tuple goes into a tuple of its own. *)
Definition notification_params (params : Value) : Value :=
  match params with VList _ => params | _ => VList [params] end.

(** What [maybeDeferred] makes of a call: the result the Deferred is fired
    with, or nothing yet when the call returned a Deferred of its own. *)
Definition call_result (r : Res (Value + unit)) : option outcome :=
  match r with
  | Ok (inl v) _ => Some (Success v)
  | Ok (inr _) _ => None
  | Raise e _ => Some (Failure e)
  end.

(** The Response the callbacks of a request build for the result of its
    remote method: [respondCallback] for a success, [respondErrback] for a
    failure. *)
Definition response_to {E : Env} (send_errors : bool) (msgid : Value)
    (o : outcome) : list Value :=
  match o with
  | Success v => [VInt MSGTYPE_RESPONSE; msgid; VNil; v]
  | Failure f =>
      [VInt MSGTYPE_RESPONSE; msgid;
       if send_errors then getBriefTraceback f else getErrorMessage f; VNil]
  end.

(** The exception [writeMessage] raises when the packer refuses with [e]. *)
Definition write_error (s : State) (message : list Value) (e : exn) : exn :=
  if sendErrors s then e
  else match format_tuple "ERROR: Failed to write message: %s" message with
       | inr args => Exn SerializationError args
       | inl type_error => type_error
       end.

Definition same_counter (s s' : State) : Prop := next_msgid s' = next_msgid s.

Definition same_connected (s s' : State) : Prop := connected s' = connected s.

(** What the call of a remote method leaves alone besides [call_frame]. *)
Definition same_stdout (s s' : State) : Prop := stdout s' = stdout s.

(** The outcome a Response carries: a failure [ResponseError(error)] when
    its error field is not [None], a success with its result otherwise. *)
Definition response_outcome (error result : Value) : outcome :=
  if is_not_None error then Failure (Exn ResponseError [error])
  else Success result.

(** The request sent with [msgid] and handle [d], as the protocol keeps it:
    the handle has been made, the counter has passed the msgid, the entry
    is in the table as long as the handle is unresolved, and no other key
    of the table leads to the handle. *)
Definition owns (msgid : Z) (d : nat) (s : State) : Prop :=
  (d < List.length (deferreds s))%nat /\
  msgid <= next_msgid s /\
  (pending_at s d -> PyDict.get (KInt msgid) (outgoing_requests s) = Some d) /\
  (forall k, In (k, d) (outgoing_requests s) -> k = KInt msgid).

Definition keeps_owns (msgid : Z) (d : nat) (s s' : State) : Prop :=
  owns msgid d s -> owns msgid d s'.

(** Every handle of the table has been made. *)
Definition handles_made (s : State) : Prop :=
  forall k d, In (k, d) (outgoing_requests s) ->
    (d < List.length (deferreds s))%nat.

Definition keeps_handles_made (s s' : State) : Prop :=
  handles_made s -> handles_made s'.

(** What is fixed when the protocol is built. *)
Definition same_config (s s' : State) : Prop :=
  cls s' = cls s /\ timeout s' = timeout s.

(** [responseReceived] gets to the table under key [k]: the stream protocol
    always does; the datagram protocol first cancels the delayed call the
    map of pending timeouts holds under [k], which has to be still
    scheduled. *)
Definition cancellable (k : Key) (s : State) : Prop :=
  cls s = Stream \/
  match PyDict.get k (pendingTimeouts s) with
  | None => True
  | Some dc => exists c, nth_error (reactor s) dc = Some c /\ dc_state c = Scheduled
  end.

(** From [s] to [s'] no delayed call has run: what has been observed stays
    observed, and the delayed calls stay where they are, with their
    argument and their delay. *)
Definition timers_wait (s s' : State) : Prop :=
  stable s s' /\
  forall dc c, nth_error (reactor s) dc = Some c ->
    exists c', nth_error (reactor s') dc = Some c' /\
               dc_arg c' = dc_arg c /\ dc_delay c' = dc_delay c /\
               (dc_state c' = Called -> dc_state c = Called).

(** The delayed call [dc] is a timeout of the msgid of handle [d]: it calls
    [timeoutRequest] with that msgid, and once it has run the handle carries
    an outcome. *)
Definition timeout_of (msgid : Z) (d dc : nat) (s : State) : Prop :=
  exists c, nth_error (reactor s) dc = Some c /\
            dc_arg c = VInt msgid /\
            (dc_state c = Called -> exists o, fired_at s d o).

(** ** An instance: the one-byte-header fragment of msgpack

    nil, the booleans, positive fixint, fixstr (fixraw) up to 31 bytes and
    fixarray up to 15 items, with the bytes of the msgpack format.  Outside
    the fragment this packer refuses and this unpacker reports a format
    error; the theorems below hold for every [Env], this one provides
    concrete inputs. *)
Module Msgpack.

Definition byte_of_N (n : N) : byte :=
  match Byte.of_N n with Some b => b | None => x00 end.

Definition out_of_fragment : exn :=
  Exn OtherError [VStr "outside the msgpack fragment"].

Fixpoint concat_packed (parts : list (option (list byte))) : option (list byte) :=
  match parts with
  | [] => Some []
  | Some b :: parts' =>
      match concat_packed parts' with
      | Some bs => Some (b ++ bs)%list
      | None => None
      end
  | None :: _ => None
  end.

Fixpoint pack_value (v : Value) : option (list byte) :=
  match v with
  | VNil => Some [xc0]
  | VBool false => Some [xc2]
  | VBool true => Some [xc3]
  | VInt z =>
      if (0 <=? z) && (z <? 128) then Some [byte_of_N (Z.to_N z)] else None
  | VStr s =>
      let raw := list_byte_of_string s in
      if (List.length raw <? 32)%nat
      then Some (byte_of_N (160 + N.of_nat (List.length raw)) :: raw)
      else None
  | VList l =>
      if (List.length l <? 16)%nat then
        match concat_packed (map pack_value l) with
        | Some bs => Some (byte_of_N (144 + N.of_nat (List.length l)) :: bs)
        | None => None
        end
      else None
  end.

Definition pack (v : Value) : exn + list byte :=
  match pack_value v with
  | Some b => inr b
  | None => inl out_of_fragment
  end.

(** The [k] items of an array, each unpacked by [unpack]. *)
Definition unpack_items (unpack : list byte -> unpack_result)
  : nat -> list byte -> unpack_result :=
  fix items (k : nat) (buf : list byte) : unpack_result :=
    match k with
    | O => Unpacked (VList []) buf
    | S k' =>
        match unpack buf with
        | Unpacked v r =>
            match items k' r with
            | Unpacked (VList vs) r' => Unpacked (VList (v :: vs)) r'
            | other => other
            end
        | other => other
        end
    end.

(** [fuel] bounds the nesting of arrays. *)
Fixpoint unpack_fuel (fuel : nat) (buf : list byte) : unpack_result :=
  match fuel with
  | O => OutOfData
  | S fuel' =>
      match buf with
      | [] => OutOfData
      | b :: rest =>
          let n := Byte.to_N b in
          if (n <? 128)%N then Unpacked (VInt (Z.of_N n)) rest
          else if (144 <=? n)%N && (n <=? 159)%N then
            unpack_items (unpack_fuel fuel') (N.to_nat (n - 144)) rest
          else if (160 <=? n)%N && (n <=? 191)%N then
            let len := N.to_nat (n - 160) in
            if (List.length rest <? len)%nat then OutOfData
            else Unpacked (VStr (string_of_list_byte (firstn len rest))) (skipn len rest)
          else if (n =? 192)%N then Unpacked VNil rest
          else if (n =? 194)%N then Unpacked (VBool false) rest
          else if (n =? 195)%N then Unpacked (VBool true) rest
          else UnpackError out_of_fragment
      end
  end.

(** The nesting of a value: the fuel its unpacking takes. *)
Fixpoint nesting (v : Value) : nat :=
  match v with
  | VList l => S (list_max (map nesting l))
  | _ => 1
  end.

Definition unpack1 (buf : list byte) : unpack_result :=
  unpack_fuel (S (List.length buf)) buf.

End Msgpack.

(** An application for the examples: [echo] returns its parameters, [log]
    returns nothing, [later] returns a Deferred it fires later, [strict]
    takes no argument. *)
Module Example.

Definition remote_echo : Method :=
  {| takes_msgid := false; invoke := fun params _ => Returns params |}.
Definition remote_log : Method :=
  {| takes_msgid := false; invoke := fun _ _ => Returns VNil |}.
Definition remote_later : Method :=
  {| takes_msgid := false; invoke := fun _ _ => ReturnsDeferred |}.
Definition remote_strict : Method :=
  {| takes_msgid := false;
     invoke := fun params _ =>
       match params with
       | VList [] => Returns VNil
       | _ => Raises (Exn TypeError [VStr "remote_strict() takes no arguments"])
       end |}.

Definition lookup (name : Value) : exn + Method :=
  match name with
  | VStr "echo" => inr remote_echo
  | VStr "log" => inr remote_log
  | VStr "later" => inr remote_later
  | VStr "strict" => inr remote_strict
  | _ => inl (Exn AttributeError [VStr "no such remote method"])
  end.

(** The text of a failure, kept short: the name of its class. *)
Definition error_message (e : exn) : Value :=
  VStr match kind_of e with
       | ConnectionError => "ConnectionError"
       | ResponseError => "ResponseError"
       | InvalidRequest => "InvalidRequest"
       | InvalidResponse => "InvalidResponse"
       | InvalidData => "InvalidData"
       | TimeoutError => "TimeoutError"
       | SerializationError => "SerializationError"
       | UndefinedMessage => "UndefinedMessage"
       | NotImplementedError => "NotImplementedError"
       | UnboundLocalError => "UnboundLocalError"
       | TypeError => "TypeError"
       | ValueError => "ValueError"
       | IndexError => "IndexError"
       | AttributeError => "AttributeError"
       | AlreadyCalledError => "AlreadyCalledError"
       | AlreadyCalled => "AlreadyCalled"
       | AlreadyCancelled => "AlreadyCancelled"
       | ConnectionDone => "ConnectionDone"
       | ConnectionLost => "ConnectionLost"
       | OtherError => "Exception"
       end.

#[export] Instance env : Env := {|
  pack := Msgpack.pack;
  unpack1 := Msgpack.unpack1;
  lookupMethod := lookup;
  getErrorMessage := error_message;
  getBriefTraceback := error_message
|}.

Definition peer_a : Addr := ("10.0.0.1"%string, 5000).

End Example.

(** * Properties *)

(** ** Dictionaries *)

Lemma key_eqb_refl (k : Key) : key_eqb k k = true.
Proof.
  destruct k; simpl; auto using Z.eqb_refl, String.eqb_refl.
Qed.

Lemma key_eqb_eq (a b : Key) : key_eqb a b = true <-> a = b.
Proof.
  split; [|intros ->; apply key_eqb_refl].
  destruct a, b; simpl; try discriminate; auto.
  - intros H; apply Z.eqb_eq in H; congruence.
  - intros H; apply String.eqb_eq in H; congruence.
Qed.

Lemma dict_get_In V (k : Key) (v : V) (d : PyDict.t V) :
  PyDict.get k d = Some v -> In (k, v) d.
Proof.
  induction d as [|[k' v'] d IH]; simpl; [discriminate|].
  destruct (key_eqb k k') eqn:Hk.
  - apply key_eqb_eq in Hk; subst; intros [= ->]; auto.
  - auto.
Qed.

Lemma dict_remove_In V (k k0 : Key) (v : V) (d : PyDict.t V) :
  In (k0, v) (PyDict.remove k d) -> In (k0, v) d.
Proof.
  induction d as [|[k' v'] d IH]; simpl; auto.
  destruct (key_eqb k k'); simpl; intuition.
Qed.

Lemma dict_set_In V (k k0 : Key) (v v0 : V) (d : PyDict.t V) :
  In (k0, v0) (PyDict.set k v d) -> In (k0, v0) d \/ (k0 = k /\ v0 = v).
Proof.
  unfold PyDict.set. destruct (PyDict.mem k d) eqn:Hm.
  - intros H. clear Hm. induction d as [|[k' v'] d IH]; simpl in *; auto.
    destruct (key_eqb k k') eqn:Hk; simpl in H.
    + apply key_eqb_eq in Hk; subst k'.
      destruct H as [[= <- <-]|H]; auto.
    + destruct H as [H|H]; auto. destruct (IH H); auto.
  - simpl. intros [[= <- <-]|H]; auto.
Qed.

Lemma dict_get_set V (k : Key) (v : V) (d : PyDict.t V) :
  PyDict.get k (PyDict.set k v d) = Some v.
Proof.
  unfold PyDict.set. destruct (PyDict.mem k d) eqn:Hm.
  - unfold PyDict.mem in Hm.
    induction d as [|[k' v'] d IH]; simpl in *; [discriminate|].
    destruct (key_eqb k k') eqn:Hk; simpl; rewrite Hk; auto.
  - simpl. now rewrite key_eqb_refl.
Qed.

Lemma dict_remove_absent V (k : Key) (d : PyDict.t V) :
  PyDict.mem k d = false -> PyDict.remove k d = d.
Proof.
  unfold PyDict.mem.
  induction d as [|[k' v'] d IH]; simpl; auto.
  destruct (key_eqb k k'); [discriminate|]. intros H. now rewrite IH.
Qed.

Lemma dict_remove_set_fresh V (k : Key) (v : V) (d : PyDict.t V) :
  PyDict.mem k d = false -> PyDict.remove k (PyDict.set k v d) = d.
Proof.
  intros Hm. unfold PyDict.set. rewrite Hm. simpl. rewrite key_eqb_refl.
  now apply dict_remove_absent.
Qed.

Lemma dict_get_remove V (k : Key) (d : PyDict.t V) :
  PyDict.get k (PyDict.remove k d) = None.
Proof.
  induction d as [|[k' v'] d IH]; simpl; auto.
  destruct (key_eqb k k') eqn:Hk; simpl; auto. now rewrite Hk.
Qed.

(** ** Walking through a method *)

Create HintDb steps.

(** The loop of [rawDataReceived], given what one message does. *)
Section Loop.
Context {E : Env}.
Variable R : State -> State -> Prop.
Hypothesis R_refl : forall s, R s s.
Hypothesis R_trans : forall a b c, R a b -> R b c -> R a c.
Hypothesis H_message : forall m context, steps R (messageReceived m context).
Hypothesis H_print : forall e, steps R (print e).

Lemma loop_steps fuel context :
  forall p, R (st p) (st (unpacker_loop fuel context p)).
Proof.
  induction fuel; simpl; intros p; [apply R_refl|].
  destruct (unpack1 (unpacker p)) as [m rest| |e]; simpl;
    [|apply R_refl|apply H_print].
  pose proof (H_message m context (st p)) as Hm.
  destruct (messageReceived m context (st p)) as [[] s'|e s']; simpl in *.
  - eapply R_trans; [exact Hm|]. apply (IHfuel {| unpacker := rest; st := s' |}).
  - eapply R_trans; [exact Hm|]. apply H_print.
Qed.

Lemma rawDataReceived_steps data context p :
  R (st p) (st (rawDataReceived data context p)).
Proof.
  unfold rawDataReceived.
  apply (loop_steps _ context {| unpacker := unpacker p ++ data; st := st p |}).
Qed.

End Loop.

Section Steps.
Context {E : Env}.
Variable R : State -> State -> Prop.
Hypothesis R_refl : forall s, R s s.
Hypothesis R_trans : forall a b c, R a b -> R b c -> R a c.

Lemma steps_ret A (a : A) : steps R (ret a).
Proof. intros s; apply R_refl. Qed.

Lemma steps_raise A (e : exn) : steps R (@raise A e).
Proof. intros s; apply R_refl. Qed.

Lemma steps_gets A (f : State -> A) : steps R (gets f).
Proof. intros s; apply R_refl. Qed.

Lemma steps_modify (f : State -> State) :
  (forall s, R s (f s)) -> steps R (modify f).
Proof. intros H s; apply H. Qed.

Lemma steps_bind A B (m : M A) (k : A -> M B) :
  steps R m -> (forall a, steps R (k a)) -> steps R (bind m k).
Proof.
  intros Hm Hk s. unfold bind. specialize (Hm s).
  destruct (m s) as [a s'|e s']; simpl in *; auto.
  eapply R_trans; [exact Hm|apply Hk].
Qed.

Lemma steps_catch A (m : M A) : steps R m -> steps R (catch m).
Proof.
  intros Hm s. unfold catch. specialize (Hm s).
  destruct (m s); simpl in *; auto.
Qed.

Ltac walk :=
  repeat match goal with
         | |- steps _ (bind _ _) => apply steps_bind; [|intros]
         | |- steps _ (ret _) => apply steps_ret
         | |- steps _ (raise _) => apply steps_raise
         | |- steps _ (gets _) => apply steps_gets
         | |- steps _ (catch _) => apply steps_catch
         | |- steps _ (modify _) => apply steps_modify; intros
         | |- steps _ (match ?x with _ => _ end) => destruct x
         | |- steps _ (let _ := _ in _) => cbv zeta
         end.

Hypothesis H_incoming : forall f s, R s (upd_incoming f s).
Hypothesis H_handlers : forall f s, R s (upd_handler_calls f s).
Hypothesis H_transport : forall f s, R s (upd_transport f s).
Hypothesis H_app_calls : forall f s, R s (upd_app_calls f s).
Hypothesis H_stdout : forall f s, R s (upd_stdout f s).
Hypothesis H_pendingTimeouts : forall f s, R s (upd_pendingTimeouts f s).
Hypothesis H_callLater : forall c s, R s (upd_reactor (fun l => l ++ [c]) s).
Hypothesis H_cancel : forall dc c s,
  nth_error (reactor s) dc = Some c -> dc_state c = Scheduled ->
  R s (upd_reactor (list_set dc (set_dc_state Cancelled c)) s).
Hypothesis H_called : forall dc c s,
  nth_error (reactor s) dc = Some c -> dc_state c = Scheduled ->
  R s (upd_reactor (list_set dc (set_dc_state Called c)) s).
Hypothesis H_connected : forall b s, R s (set_connected b s).
Hypothesis H_registered : forall b s, R s (set_registered b s).
Hypothesis H_lose : forall b s, R s (set_lose_requested b s).
Hypothesis H_listening : forall b s, R s (set_listening b s).
Hypothesis H_next : forall s, R s (upd_next_msgid (fun n => n + 1) s).
Hypothesis H_new : forall s, R s (upd_deferreds (fun l => l ++ [Pending]) s).
Hypothesis H_fire : forall d o s,
  pending_at s d -> R s (upd_deferreds (list_set d (Fired o)) s).
Hypothesis H_remove : forall k s, R s (upd_outgoing (PyDict.remove k) s).
Hypothesis H_pop : forall k d out' s,
  outgoing_requests s = (k, d) :: out' -> R s (upd_outgoing (fun _ => out') s).
Hypothesis H_set : forall k d s, R s (upd_outgoing (PyDict.set k d) s).

Lemma steps_getitem message i : steps R (getitem message i).
Proof. unfold getitem. walk. Qed.

Lemma steps_hash v : steps R (hash v).
Proof. unfold hash. walk. Qed.

Lemma steps_print e : steps R (print e).
Proof. unfold print. walk. auto. Qed.

Lemma steps_local A name (x : option A) : steps R (local name x).
Proof. unfold local. walk. Qed.

Lemma steps_new_deferred : steps R new_deferred.
Proof. intros s. apply H_new. Qed.

Lemma steps_fire d o : steps R (fire d o).
Proof.
  intros s. unfold fire.
  destruct (nth_error (deferreds s) d) as [[|o']|] eqn:Hd; simpl; auto.
Qed.

Lemma steps_callLater delay msgid : steps R (callLater delay msgid).
Proof. intros s. apply H_callLater. Qed.

Lemma steps_dc_cancel dc : steps R (dc_cancel dc).
Proof.
  intros s. unfold dc_cancel.
  destruct (nth_error (reactor s) dc) as [c|] eqn:Hdc; simpl; auto.
  destruct (dc_state c) eqn:Hst; simpl; auto.
Qed.

Hint Resolve steps_getitem steps_hash steps_print steps_local
  steps_new_deferred steps_fire steps_callLater steps_dc_cancel : steps.

Lemma steps_isConnected : steps R isConnected.
Proof. apply steps_gets. Qed.

Lemma steps_getClientContext : steps R getClientContext.
Proof.
  unfold getClientContext, stream_getClientContext, dgram_getClientContext. walk.
Qed.

Lemma steps_writeRawData message context : steps R (writeRawData message context).
Proof.
  unfold writeRawData, stream_writeRawData, dgram_writeRawData. walk; auto.
Qed.

Hint Resolve steps_isConnected steps_getClientContext steps_writeRawData : steps.

Lemma steps_base_writeMessage message context :
  steps R (base_writeMessage message context).
Proof. unfold base_writeMessage. walk; auto with steps. Qed.

Hint Resolve steps_base_writeMessage : steps.

Lemma steps_dgram_writeMessage message context :
  steps R (dgram_writeMessage message context).
Proof. unfold dgram_writeMessage. walk; auto with steps. Qed.

Hint Resolve steps_dgram_writeMessage : steps.

Lemma steps_writeMessage message context : steps R (writeMessage message context).
Proof. unfold writeMessage. walk; auto with steps. Qed.

Hint Resolve steps_writeMessage : steps.

Lemma steps_getNextMsgid : steps R getNextMsgid.
Proof. unfold getNextMsgid. walk; auto. Qed.

Hint Resolve steps_getNextMsgid : steps.

Lemma steps_createRequest method params : steps R (createRequest method params).
Proof. unfold createRequest. walk; auto with steps. Qed.

Lemma steps_createNotification method params :
  steps R (createNotification method params).
Proof. unfold createNotification. walk; auto with steps. Qed.

Lemma steps_callRemoteMethod msgid methodName params :
  steps R (callRemoteMethod msgid methodName params).
Proof. unfold callRemoteMethod. walk; auto with steps. Qed.

Lemma steps_endRequest result msgid : steps R (endRequest result msgid).
Proof. unfold endRequest. walk; auto with steps. Qed.

Lemma steps_incoming_context msgid : steps R (incoming_context msgid).
Proof. unfold incoming_context. walk; auto with steps. Qed.

Hint Resolve steps_createNotification
  steps_callRemoteMethod steps_endRequest steps_incoming_context : steps.

Lemma steps_respondCallback result msgid : steps R (respondCallback result msgid).
Proof. unfold respondCallback. walk; auto with steps. Qed.

Lemma steps_respondError msgid error result :
  steps R (respondError msgid error result).
Proof. unfold respondError. walk; auto with steps. Qed.

Hint Resolve steps_respondCallback steps_respondError : steps.

Lemma steps_respondErrback f msgid : steps R (respondErrback f msgid).
Proof. unfold respondErrback. walk; auto with steps. Qed.

Hint Resolve steps_respondErrback : steps.

Lemma steps_apply_cb c o : steps R (apply_cb c o).
Proof. unfold apply_cb, notificationCallback. walk; auto with steps. Qed.

Hint Resolve steps_apply_cb : steps.

Lemma steps_run_cbs cbs : forall o, steps R (run_cbs cbs o).
Proof. induction cbs; simpl; intros; walk; auto with steps. Qed.

Hint Resolve steps_run_cbs : steps.

Lemma steps_runCallbacks h : steps R (runCallbacks h).
Proof. unfold runCallbacks. walk; auto with steps. Qed.

Hint Resolve steps_runCallbacks : steps.

Lemma steps_addCallbacks h c : steps R (addCallbacks h c).
Proof. unfold addCallbacks. walk; auto with steps. Qed.

Lemma steps_maybeDeferred f : steps R f -> steps R (maybeDeferred f).
Proof. intros Hf. unfold maybeDeferred. walk; auto with steps. Qed.

Lemma steps_handlerFired h o : steps R (handlerFired h o).
Proof. unfold handlerFired. walk; auto with steps. Qed.

Hint Resolve steps_addCallbacks steps_maybeDeferred steps_handlerFired : steps.

Lemma steps_requestReceived message context :
  steps R (requestReceived message context).
Proof. unfold requestReceived. walk; auto with steps. Qed.

Lemma steps_pop_outgoing msgid : steps R (pop_outgoing msgid).
Proof. unfold pop_outgoing. walk; auto with steps. Qed.

Hint Resolve steps_requestReceived steps_pop_outgoing : steps.

Lemma steps_base_responseReceived message : steps R (base_responseReceived message).
Proof.
  unfold base_responseReceived, errback, callback. walk; auto with steps.
Qed.

Hint Resolve steps_base_responseReceived : steps.

Lemma steps_dgram_responseReceived message :
  steps R (dgram_responseReceived message).
Proof. unfold dgram_responseReceived. walk; auto with steps. Qed.

Hint Resolve steps_dgram_responseReceived : steps.

Lemma steps_responseReceived message : steps R (responseReceived message).
Proof. unfold responseReceived. walk; auto with steps. Qed.

Lemma steps_notificationReceived message : steps R (notificationReceived message).
Proof. unfold notificationReceived. walk; auto with steps. Qed.

Lemma steps_undefinedMessageReceived message :
  steps R (undefinedMessageReceived message).
Proof. unfold undefinedMessageReceived. walk; auto with steps. Qed.

Hint Resolve steps_responseReceived steps_notificationReceived
  steps_undefinedMessageReceived : steps.

Lemma steps_messageReceived message context :
  steps R (messageReceived message context).
Proof. unfold messageReceived. walk; auto with steps. Qed.

Lemma steps_callbackOutgoing_loop fuel e :
  steps R (callbackOutgoing_loop fuel (fun d => errback d e)).
Proof.
  induction fuel; simpl; [apply steps_ret|].
  intros s. unfold bind at 1, gets at 1.
  destruct (outgoing_requests s) as [|[k d] out'] eqn:Hout; [apply R_refl|].
  revert s Hout.
  assert (Hk : steps R (bind (errback d e)
                          (fun _ => callbackOutgoing_loop fuel (fun d => errback d e)))).
  { unfold errback. walk; auto with steps. }
  intros s Hout. unfold bind at 1, modify at 1.
  eapply R_trans; [eapply H_pop; eauto|apply Hk].
Qed.

Lemma steps_callbackOutgoingRequests e :
  steps R (callbackOutgoingRequests (fun d => errback d e)).
Proof.
  unfold callbackOutgoingRequests. walk. apply steps_callbackOutgoing_loop.
Qed.

Hint Resolve steps_messageReceived steps_callbackOutgoingRequests : steps.

Lemma steps_connectionMade : steps R connectionMade.
Proof. unfold connectionMade. walk; auto. Qed.

Lemma steps_connectionLost reason : steps R (connectionLost reason).
Proof. unfold connectionLost. walk; auto with steps. Qed.

Lemma steps_timeoutConnection : steps R timeoutConnection.
Proof. unfold timeoutConnection. walk; auto with steps. Qed.

Lemma steps_stream_closeConnection : steps R stream_closeConnection.
Proof. unfold stream_closeConnection. walk; auto. Qed.

Lemma steps_startProtocol : steps R startProtocol.
Proof. unfold startProtocol. walk; auto. Qed.

Lemma steps_connectionRefused : steps R connectionRefused.
Proof. unfold connectionRefused. walk; auto with steps. Qed.

Lemma steps_timeoutRequest msgid : steps R (timeoutRequest msgid).
Proof. unfold timeoutRequest, errback. walk; auto with steps. Qed.

Hint Resolve steps_timeoutRequest : steps.

Lemma steps_dgram_closeConnection : steps R dgram_closeConnection.
Proof. unfold dgram_closeConnection. walk; auto. Qed.

Lemma steps_runDelayedCall dc : steps R (runDelayedCall dc).
Proof.
  intros s. unfold runDelayedCall, bind, gets.
  destruct (nth_error (reactor s) dc) as [c|] eqn:Hdc; [|apply R_refl].
  destruct (dc_state c) eqn:Hst; try apply R_refl.
  unfold modify. eapply R_trans; [apply H_called; eauto|].
  apply steps_timeoutRequest.
Qed.

(** Registering under an arbitrary key is more than some relations allow:
    from here on [createRequest] is taken as a whole. *)
Hypothesis H_createRequest : forall method params,
  steps R (createRequest method params).

Lemma steps_call_createRequest method args :
  steps R (call_createRequest method args).
Proof.
  unfold call_createRequest, dgram_createRequest. walk; auto with steps.
Qed.

Lemma steps_rawDataReceived data context p :
  R (st p) (st (rawDataReceived data context p)).
Proof.
  apply rawDataReceived_steps; auto using steps_messageReceived, steps_print.
Qed.

Lemma steps_step ev p : R (st p) (st (step ev p)).
Proof.
  unfold step, on_state, dataReceived, datagramReceived.
  destruct ev, (cls (st p)); simpl; try apply R_refl;
    first [ apply steps_rawDataReceived
          | apply steps_connectionMade | apply steps_startProtocol
          | apply steps_call_createRequest | apply steps_createNotification
          | apply steps_connectionLost | apply steps_timeoutConnection
          | apply steps_connectionRefused | apply steps_stream_closeConnection
          | apply steps_dgram_closeConnection | apply steps_runDelayedCall
          | apply steps_handlerFired ].
Qed.

Lemma steps_run tr : forall p, R (st p) (st (run tr p)).
Proof.
  induction tr as [|ev tr IH]; simpl; intros p; [apply R_refl|].
  eapply R_trans; [apply steps_step|apply IH].
Qed.

End Steps.

(** ** What the writing of a message and the request path leave alone *)

Section SameCore.
Context {E : Env}.

Lemma same_core_refl s : same_core s s.
Proof. unfold same_core; intuition. Qed.

Lemma same_core_trans a b c : same_core a b -> same_core b c -> same_core a c.
Proof. unfold same_core; intuition congruence. Qed.

Ltac same_core_prim := intros; unfold same_core; simpl; intuition.

Lemma same_core_writeMessage message context :
  steps same_core (writeMessage message context).
Proof.
  apply steps_writeMessage;
    first [exact same_core_refl | exact same_core_trans | same_core_prim].
Qed.

Lemma same_core_getClientContext : steps same_core getClientContext.
Proof.
  apply steps_getClientContext;
    first [exact same_core_refl | exact same_core_trans].
Qed.

Lemma same_core_requestReceived message context :
  steps same_core (requestReceived message context).
Proof.
  apply steps_requestReceived;
    first [exact same_core_refl | exact same_core_trans | same_core_prim].
Qed.

Lemma same_core_notificationReceived message :
  steps same_core (notificationReceived message).
Proof.
  apply steps_notificationReceived;
    first [exact same_core_refl | exact same_core_trans | same_core_prim].
Qed.

Lemma same_core_handlerFired h o : steps same_core (handlerFired h o).
Proof.
  apply steps_handlerFired;
    first [exact same_core_refl | exact same_core_trans | same_core_prim].
Qed.

Lemma same_core_createNotification method params :
  steps same_core (createNotification method params).
Proof.
  apply steps_createNotification;
    first [exact same_core_refl | exact same_core_trans | same_core_prim].
Qed.

(** *** [createRequest], step by step *)

Lemma createRequest_spec method params s :
  match createRequest method params s with
  | Ok d s' =>
      connected s = true /\ d = List.length (deferreds s) /\
      next_msgid s' = next_msgid s + 1 /\
      outgoing_requests s' =
        PyDict.set (KInt (next_msgid s + 1)) d (outgoing_requests s) /\
      deferreds s' = (deferreds s ++ [Pending])%list /\
      cls s' = cls s
  | Raise e s' =>
      outgoing_requests s' = outgoing_requests s /\
      deferreds s' = deferreds s /\
      next_msgid s' = (if connected s then next_msgid s + 1 else next_msgid s) /\
      cls s' = cls s
  end.
Proof.
  unfold createRequest, isConnected, bind at 1, gets at 1.
  destruct (connected s) eqn:Hc; simpl; [|unfold raise; simpl; auto].
  unfold getNextMsgid, bind, modify, gets. simpl.
  set (s1 := upd_next_msgid (fun n => n + 1) s).
  pose proof (same_core_getClientContext s1) as Hg.
  destruct (getClientContext s1) as [ctx s2|e s2]; simpl in Hg;
    unfold same_core in Hg; simpl in Hg;
    destruct Hg as (Hg1 & _ & Hg3 & Hg4 & Hg5 & _).
  2:{ intuition congruence. }
  match goal with |- context [writeMessage ?m ctx s2] =>
    pose proof (same_core_writeMessage m ctx s2) as Hw;
    destruct (writeMessage m ctx s2) as [[] s3|e s3] end;
    simpl in Hw; unfold same_core in Hw;
    destruct Hw as (Hw1 & _ & Hw3 & Hw4 & Hw5 & _).
  - unfold ret; simpl. rewrite Hw1, Hw3, Hw4, Hw5, Hg1, Hg3, Hg4, Hg5.
    repeat split; auto.
  - intuition congruence.
Qed.

End SameCore.

(** ** The msgid counter *)

Section Counter.
Context {E : Env}.

Lemma counter_le_refl s : counter_le s s.
Proof. unfold counter_le; lia. Qed.

Lemma counter_le_trans a b c : counter_le a b -> counter_le b c -> counter_le a c.
Proof. unfold counter_le; lia. Qed.

Lemma counter_le_createRequest method params :
  steps counter_le (createRequest method params).
Proof.
  intros s. pose proof (createRequest_spec method params s) as H.
  unfold counter_le.
  destruct (createRequest method params s); simpl.
  - lia.
  - destruct H as (_ & _ & -> & _). destruct (connected s); lia.
Qed.

Lemma counter_le_step ev p : counter_le (st p) (st (step ev p)).
Proof.
  apply steps_step;
    first [ exact counter_le_refl | exact counter_le_trans
          | exact counter_le_createRequest
          | intros; unfold counter_le; simpl; lia ].
Qed.

Lemma createRequest_connected_next method params s :
  connected s = true ->
  next_msgid (state_of (createRequest method params s)) = next_msgid s + 1.
Proof.
  intros Hc. pose proof (createRequest_spec method params s) as H.
  destruct (createRequest method params s); simpl.
  - tauto.
  - now rewrite Hc in H.
Qed.

Lemma assigned_by_next ev p z :
  In z (assigned_by ev p) ->
  z = next_msgid (st p) + 1 /\ next_msgid (st (step ev p)) = z.
Proof.
  unfold assigned_by, step, on_state, call_createRequest, dgram_createRequest.
  destruct ev; simpl; try tauto.
  destruct (cls (st p)) eqn:Hcls, (connected (st p)) eqn:Hc; simpl;
    try tauto.
  - destruct args as [|params [|? ?]]; simpl; try tauto.
    intros [<-|[]]. split; auto.
    unfold bind, gets. rewrite Hcls.
    now apply createRequest_connected_next.
  - destruct args as [|? [|? ?]]; simpl; try tauto.
  - intros Hin.
    assert (Hz : z = next_msgid (st p) + 1)
      by (destruct args as [|? [|? ?]]; destruct Hin as [<-|[]]; auto).
    subst z. split; auto.
    unfold bind, gets. rewrite Hcls.
    now apply createRequest_connected_next.
  - destruct args as [|? [|? ?]]; simpl; try tauto.
Qed.

Lemma assigned_msgids_sorted tr :
  forall p,
    Forall (fun z => next_msgid (st p) < z) (assigned_msgids tr p) /\
    StronglySorted Z.lt (assigned_msgids tr p).
Proof.
  induction tr as [|ev tr IH]; simpl; intros p.
  - split; constructor.
  - destruct (IH (step ev p)) as [Hall Hs].
    pose proof (counter_le_step ev p) as Hle. unfold counter_le in Hle.
    pose proof (assigned_by_next ev p) as Hby.
    destruct (assigned_by ev p) as [|z [|z' l]] eqn:Ha; simpl.
    + split; auto. eapply Forall_impl; [|exact Hall]. simpl; intros; lia.
    + destruct (Hby z (or_introl eq_refl)) as [Hz Hz'].
      split.
      * constructor; [lia|].
        eapply Forall_impl; [|exact Hall]. simpl; intros; lia.
      * constructor; auto.
        eapply Forall_impl; [|exact Hall]. simpl; intros; lia.
    + exfalso. revert Ha. unfold assigned_by.
      destruct ev; try discriminate.
      destruct (cls (st p)), (connected (st p)); try discriminate;
        destruct args as [|? [|? ?]]; discriminate.
Qed.

End Counter.

(** ** Lists updated in place *)

Lemma nth_error_list_set_same A (l : list A) : forall i x y,
  nth_error l i = Some y -> nth_error (list_set i x l) i = Some x.
Proof.
  induction l as [|a l IH]; intros [|i] x y; simpl; try discriminate; eauto.
Qed.

Lemma nth_error_list_set_other A (l : list A) : forall i j x,
  i <> j -> nth_error (list_set i x l) j = nth_error l j.
Proof.
  induction l as [|a l IH]; intros [|i] [|j] x Hij; simpl; auto;
    try congruence.
Qed.

Lemma length_list_set A (l : list A) : forall i x,
  List.length (list_set i x l) = List.length l.
Proof.
  induction l as [|a l IH]; intros [|i] x; simpl; auto.
Qed.

Lemma nth_error_snoc A (l : list A) (x : A) :
  nth_error (l ++ [x]) (List.length l) = Some x.
Proof.
  rewrite nth_error_app2 by lia. now rewrite Nat.sub_diag.
Qed.

(** ** Observed outcomes are stable; the keys stay below the counter *)

Section Invariants.
Context {E : Env}.

Lemma stable_refl s : stable s s.
Proof. unfold stable; auto. Qed.

Lemma stable_trans a b c : stable a b -> stable b c -> stable a c.
Proof. unfold stable; auto. Qed.

Lemma stable_fire d o s :
  pending_at s d -> stable s (upd_deferreds (list_set d (Fired o)) s).
Proof.
  unfold stable, fired_at, pending_at. simpl. intros Hp d' o' Hf.
  rewrite nth_error_list_set_other; auto. congruence.
Qed.

Lemma stable_new s : stable s (upd_deferreds (fun l => l ++ [Pending]) s).
Proof.
  unfold stable, fired_at. simpl. intros d o Hf.
  rewrite nth_error_app1; auto.
  apply nth_error_Some. congruence.
Qed.

Ltac stable_prim :=
  first [ exact stable_refl | exact stable_trans | exact stable_fire
        | exact stable_new
        | intros; unfold stable, fired_at; simpl; auto ].

Lemma stable_createRequest method params :
  steps stable (createRequest method params).
Proof. apply steps_createRequest; stable_prim. Qed.

Lemma stable_step ev p : stable (st p) (st (step ev p)).
Proof. apply steps_step; first [exact stable_createRequest | stable_prim]. Qed.

Lemma stable_run tr p : stable (st p) (st (run tr p)).
Proof. apply steps_run; first [exact stable_createRequest | stable_prim]. Qed.

Lemma keeps_keys_bounded_refl s : keeps_keys_bounded s s.
Proof. unfold keeps_keys_bounded; auto. Qed.

Lemma keeps_keys_bounded_trans a b c :
  keeps_keys_bounded a b -> keeps_keys_bounded b c -> keeps_keys_bounded a c.
Proof. unfold keeps_keys_bounded; auto. Qed.

Lemma keys_bounded_remove k s :
  keeps_keys_bounded s (upd_outgoing (PyDict.remove k) s).
Proof.
  unfold keeps_keys_bounded, keys_bounded. simpl. intros H k0 d Hin.
  apply dict_remove_In in Hin. eauto.
Qed.

Lemma keys_bounded_pop k d out' s :
  outgoing_requests s = (k, d) :: out' ->
  keeps_keys_bounded s (upd_outgoing (fun _ => out') s).
Proof.
  unfold keeps_keys_bounded, keys_bounded. simpl. intros Ho H k0 d0 Hin.
  apply (H k0 d0). rewrite Ho. now right.
Qed.

Lemma keys_bounded_createRequest method params :
  steps keeps_keys_bounded (createRequest method params).
Proof.
  intros s Hb. pose proof (createRequest_spec method params s) as H.
  destruct (createRequest method params s) as [d s'|e s']; simpl;
    unfold keys_bounded in *.
  - destruct H as (_ & _ & Hn & Ho & _). rewrite Ho, Hn. intros k d0 Hin.
    apply dict_set_In in Hin. destruct Hin as [Hin|[-> _]].
    + destruct (Hb _ _ Hin) as (z & -> & Hz). exists z; split; auto; lia.
    + eexists; split; eauto; lia.
  - destruct H as (Ho & _ & Hn & _). rewrite Ho, Hn. intros k d0 Hin.
    destruct (Hb _ _ Hin) as (z & -> & Hz). exists z; split; auto.
    destruct (connected s); lia.
Qed.

Ltac keys_prim :=
  first [ exact keeps_keys_bounded_refl | exact keeps_keys_bounded_trans
        | exact keys_bounded_remove | exact keys_bounded_pop
        | exact keys_bounded_createRequest
        | intros; unfold keeps_keys_bounded, keys_bounded; simpl; auto ].

Lemma keys_bounded_run tr p :
  keys_bounded (st p) -> keys_bounded (st (run tr p)).
Proof. apply (steps_run (R := keeps_keys_bounded)); keys_prim. Qed.

Lemma keys_bounded_init c se a t : keys_bounded (init_state c se a t).
Proof. unfold keys_bounded; simpl; tauto. Qed.

Lemma keys_bounded_fresh s :
  keys_bounded s ->
  PyDict.mem (KInt (next_msgid s + 1)) (outgoing_requests s) = false.
Proof.
  intros Hb. unfold PyDict.mem.
  destruct (PyDict.get _ _) as [d|] eqn:Hg; auto.
  apply dict_get_In in Hg. destruct (Hb _ _ Hg) as (z & [= <-] & Hz). lia.
Qed.

End Invariants.

(** ** Requests nothing resolves *)

Section Quiet.
Context {E : Env}.
Variable d : nat.

Lemma keeps_pending_refl s : keeps_pending d s s.
Proof. unfold keeps_pending; auto. Qed.

Lemma keeps_pending_trans a b c :
  keeps_pending d a b -> keeps_pending d b c -> keeps_pending d a c.
Proof. unfold keeps_pending; auto. Qed.

Lemma keeps_pending_new s :
  keeps_pending d s (upd_deferreds (fun l => l ++ [Pending]) s).
Proof.
  unfold keeps_pending, pending_at. simpl. intros H.
  rewrite nth_error_app1; auto. apply nth_error_Some. congruence.
Qed.

Ltac pending_prim :=
  first [ exact keeps_pending_refl | exact keeps_pending_trans
        | exact keeps_pending_new
        | intros; unfold keeps_pending, pending_at; simpl; auto ].

Lemma keeps_pending_step ev p :
  resolving ev = false -> keeps_pending d (st p) (st (step ev p)).
Proof.
  intros Hq. unfold step, on_state.
  destruct ev; try discriminate; destruct (cls (st p)); simpl;
    try apply keeps_pending_refl; generalize (st p).
  - apply steps_connectionMade; pending_prim.
  - apply steps_startProtocol; pending_prim.
  - apply steps_call_createRequest; try pending_prim.
    apply steps_createRequest; pending_prim.
  - apply steps_call_createRequest; try pending_prim.
    apply steps_createRequest; pending_prim.
  - apply steps_createNotification; pending_prim.
  - apply steps_createNotification; pending_prim.
  - apply steps_stream_closeConnection; pending_prim.
  - apply steps_dgram_closeConnection; pending_prim.
  - apply steps_handlerFired; pending_prim.
  - apply steps_handlerFired; pending_prim.
Qed.

Lemma keeps_pending_run tr : forall p,
  forallb (fun ev => negb (resolving ev)) tr = true ->
  keeps_pending d (st p) (st (run tr p)).
Proof.
  induction tr as [|ev tr IH]; simpl; intros p Hq; [apply keeps_pending_refl|].
  apply andb_true_iff in Hq. destruct Hq as [Hev Htr].
  eapply keeps_pending_trans; [|apply IH; auto].
  apply keeps_pending_step. now destruct (resolving ev).
Qed.

End Quiet.

Lemma StronglySorted_lt_NoDup (l : list Z) : StronglySorted Z.lt l -> NoDup l.
Proof.
  induction 1 as [|z l Hs IH Hall]; constructor; auto.
  intros Hin. rewrite Forall_forall in Hall. specialize (Hall _ Hin). lia.
Qed.

(** ** Pending timeouts *)

Lemma same_timers_base_writeMessage {E : Env} message context :
  steps same_timers (base_writeMessage message context).
Proof.
  apply steps_base_writeMessage; unfold same_timers;
    first [ now intros | intros a b c [-> ->] [-> ->]; auto ].
Qed.

Lemma dgram_writeMessage_schedules {E : Env} (s : State) (delay : N)
    (message : list Value) (context : option Context) (msgid : Value) (k : Key) :
  truthy (timeout s) = Some delay ->
  nth_error message 1 = Some msgid ->
  key_of msgid = Some k ->
  let s' := state_of (dgram_writeMessage message context s) in
  reactor s' = (reactor s ++ [{| dc_state := Scheduled; dc_delay := delay;
                                 dc_arg := msgid |}])%list /\
  PyDict.get k (pendingTimeouts s') = Some (List.length (reactor s)).
Proof.
  intros Ht Hn Hk. cbv zeta.
  set (s1 := upd_pendingTimeouts (PyDict.set k (List.length (reactor s)))
               (upd_reactor
                  (fun l => l ++ [{| dc_state := Scheduled; dc_delay := delay;
                                     dc_arg := msgid |}]) s)).
  assert (Heq : dgram_writeMessage message context s
                = base_writeMessage message context s1).
  { unfold dgram_writeMessage, bind, gets. rewrite Ht.
    unfold getitem. rewrite Hn.
    unfold ret, callLater, hash. rewrite Hk. reflexivity. }
  rewrite Heq.
  destruct (same_timers_base_writeMessage message context s1) as [Hr Hp].
  rewrite Hr, Hp. simpl. split; auto using dict_get_set.
Qed.

(** ** Aborting the outgoing requests *)

Lemma fail_all_other (ds : list nat) (e : exn) : forall l d,
  ~ In d ds -> nth_error (fail_all ds e l) d = nth_error l d.
Proof.
  unfold fail_all.
  induction ds as [|d0 ds IH]; simpl; intros l d Hn; auto.
  rewrite IH by tauto. apply nth_error_list_set_other. intuition.
Qed.

Lemma fail_all_in (ds : list nat) (e : exn) : forall l d,
  NoDup ds -> In d ds -> (d < List.length l)%nat ->
  nth_error (fail_all ds e l) d = Some (Fired (Failure e)).
Proof.
  induction ds as [|d0 ds IH]; simpl; intros l d Hnd Hin Hlen; [tauto|].
  inversion Hnd as [|? ? Hnotin Hnd']; subst.
  destruct Hin as [->|Hin].
  - change (nth_error (fail_all ds e (list_set d (Fired (Failure e)) l)) d
            = Some (Fired (Failure e))).
    rewrite fail_all_other by auto.
    destruct (nth_error l d) eqn:Hd.
    + eapply nth_error_list_set_same; eauto.
    + apply nth_error_None in Hd. lia.
  - apply IH; auto. now rewrite length_list_set.
Qed.

Lemma callbackOutgoing_loop_all_pending (e : exn) (out : PyDict.t nat) :
  forall s,
    outgoing_requests s = out ->
    NoDup (PyDict.values out) ->
    (forall d, In d (PyDict.values out) -> pending_at s d) ->
    callbackOutgoing_loop (List.length out) (fun d => errback d e) s
    = Ok tt (upd_outgoing (fun _ => [])
               (upd_deferreds (fail_all (PyDict.values out) e) s)).
Proof.
  induction out as [|[k d] out IH]; intros s Ho Hnd Hp.
  - simpl. unfold ret. destruct s; simpl in *; subst; reflexivity.
  - simpl. unfold bind at 1, gets at 1. rewrite Ho.
    unfold bind at 1, modify at 1.
    unfold bind at 1, errback, fire. simpl.
    pose proof (Hp d (or_introl eq_refl)) as Hd. unfold pending_at in Hd.
    rewrite Hd.
    inversion Hnd as [|? ? Hnotin Hnd']; subst.
    rewrite IH; auto.
    intros d' Hin. unfold pending_at. simpl.
    rewrite nth_error_list_set_other by (intros ->; auto).
    apply Hp. now right.
Qed.

(** *** Every stream protocol keeps its pending handles apart *)

Lemma dict_remove_In_neq V (k k0 : Key) (v : V) (d : PyDict.t V) :
  In (k0, v) (PyDict.remove k d) -> In (k0, v) d /\ k0 <> k.
Proof.
  induction d as [|[k' v'] d IH]; simpl; [tauto|].
  destruct (key_eqb k k') eqn:Hk; simpl.
  - intros H. destruct (IH H). auto.
  - intros [H|H].
    + injection H as -> ->. split; auto.
      intros ->. now rewrite key_eqb_refl in Hk.
    + destruct (IH H). auto.
Qed.

Lemma NoDup_values_remove V (k : Key) (d : PyDict.t V) :
  NoDup (PyDict.values d) -> NoDup (PyDict.values (PyDict.remove k d)).
Proof.
  unfold PyDict.values.
  induction d as [|[k' v'] d IH]; simpl; auto.
  inversion 1 as [|? ? Hn Hd]; subst.
  destruct (key_eqb k k'); simpl; auto.
  constructor; auto.
  intros Hin. apply Hn. apply in_map_iff in Hin.
  destruct Hin as ([k0 v0] & Hv & Hin). simpl in Hv. subst v0.
  apply dict_remove_In in Hin. apply in_map_iff. exists (k0, v'). auto.
Qed.

Lemma NoDup_values_key V (d : PyDict.t V) (k k' : Key) (v : V) :
  NoDup (PyDict.values d) -> In (k, v) d -> In (k', v) d -> k = k'.
Proof.
  unfold PyDict.values.
  induction d as [|[k0 v0] d IH]; simpl; [tauto|].
  inversion 1 as [|? ? Hn Hd]; subst.
  intros [H1|H1] [H2|H2]; auto.
  - congruence.
  - injection H1 as -> ->.
    exfalso. apply Hn. apply in_map_iff. exists (k', v). auto.
  - injection H2 as -> ->.
    exfalso. apply Hn. apply in_map_iff. exists (k, v). auto.
Qed.

Section StreamInvariant.
Context {E : Env}.

Lemma keeps_stream_inv_refl s : keeps_stream_inv s s.
Proof. unfold keeps_stream_inv; auto. Qed.

Lemma keeps_stream_inv_trans a b c :
  keeps_stream_inv a b -> keeps_stream_inv b c -> keeps_stream_inv a c.
Proof. unfold keeps_stream_inv; auto. Qed.

Lemma stream_inv_same_core s s' : same_core s s' -> keeps_stream_inv s s'.
Proof.
  unfold same_core, keeps_stream_inv, stream_inv, keys_bounded, all_pending,
    pending_at.
  intros (-> & _ & -> & -> & -> & _). auto.
Qed.

Lemma stream_inv_init se : stream_inv (st (stream_protocol se)).
Proof.
  unfold stream_inv, keys_bounded, all_pending. simpl.
  repeat split; try tauto. constructor.
Qed.

Lemma stream_inv_base_responseReceived message :
  steps keeps_stream_inv (base_responseReceived message).
Proof.
  intros s Hinv. unfold base_responseReceived.
  destruct (unpack4 message) as [e|[[[msgType msgid] error] result]].
  { unfold bind, gets. destruct (sendErrors s); exact Hinv. }
  unfold pop_outgoing, hash.
  destruct (key_of msgid) as [k|]; [|exact Hinv].
  unfold bind at 1. unfold bind at 1. unfold ret at 1.
  unfold bind at 1, gets at 1.
  destruct (PyDict.get k (outgoing_requests s)) as [d|] eqn:Hg.
  2:{ unfold ret. destruct (is_not_None error); exact Hinv. }
  unfold bind at 1, modify, ret.
  destruct Hinv as (Hcls & Hkeys & Hpend & Hnd).
  pose proof (dict_get_In _ _ Hg) as Hin.
  assert (Hfire : forall o,
             stream_inv (state_of (fire d o (upd_outgoing (PyDict.remove k) s)))).
  { intros o. unfold fire. simpl deferreds.
    rewrite (Hpend _ _ Hin). simpl.
    split; [|split; [|split]]; simpl; auto.
    - intros k0 d0 Hin0. simpl in *. apply dict_remove_In in Hin0.
      apply (Hkeys _ _ Hin0).
    - intros k0 d0 Hin0. simpl in Hin0. apply dict_remove_In_neq in Hin0.
      destruct Hin0 as [Hin0 Hneq]. unfold pending_at. simpl.
      rewrite nth_error_list_set_other; [apply (Hpend _ _ Hin0)|].
      intros ->. apply Hneq. eapply NoDup_values_key; eauto.
    - now apply NoDup_values_remove. }
  destruct (is_not_None error); unfold bind, local, ret, errback, callback;
    apply Hfire.
Qed.

Lemma stream_inv_callbackOutgoingRequests e :
  steps keeps_stream_inv (callbackOutgoingRequests (fun d => errback d e)).
Proof.
  intros s (Hcls & Hkeys & Hpend & Hnd).
  unfold callbackOutgoingRequests, bind, gets.
  rewrite (@callbackOutgoing_loop_all_pending e (outgoing_requests s) s eq_refl Hnd).
  - unfold stream_inv, keys_bounded, all_pending. simpl.
    repeat split; try tauto. constructor.
  - intros d Hin. unfold PyDict.values in Hin. apply in_map_iff in Hin.
    destruct Hin as ([k d'] & <- & Hin). eapply Hpend; eauto.
Qed.

Lemma stream_inv_createRequest method params :
  steps keeps_stream_inv (createRequest method params).
Proof.
  intros s (Hcls & Hkeys & Hpend & Hnd).
  pose proof (createRequest_spec method params s) as H.
  destruct (createRequest method params s) as [d s'|e s']; simpl.
  - destruct H as (_ & -> & Hn & Ho & Hd & Hc).
    assert (Hset : outgoing_requests s'
                   = (KInt (next_msgid s + 1), List.length (deferreds s))
                       :: outgoing_requests s).
    { rewrite Ho. unfold PyDict.set. now rewrite keys_bounded_fresh. }
    unfold stream_inv, keys_bounded, all_pending, pending_at.
    rewrite Hset, Hn, Hd, Hc. repeat split; auto.
    + intros k d [[= <- <-]|Hin].
      * eexists; split; eauto; lia.
      * destruct (Hkeys _ _ Hin) as (z & -> & Hz). exists z; split; auto; lia.
    + intros k d [[= <- <-]|Hin].
      * apply nth_error_snoc.
      * rewrite nth_error_app1; [apply (Hpend _ _ Hin)|].
        apply nth_error_Some. rewrite (Hpend _ _ Hin). discriminate.
    + simpl. constructor; auto.
      intros Hin. unfold PyDict.values in Hin. apply in_map_iff in Hin.
      destruct Hin as ([k d] & Hd' & Hin). simpl in Hd'. subst d.
      pose proof (Hpend _ _ Hin) as Hp. unfold pending_at in Hp.
      assert (List.length (deferreds s) < List.length (deferreds s))%nat; [|lia].
      apply nth_error_Some. rewrite Hp. discriminate.
  - destruct H as (Ho & Hd & Hn & Hc).
    unfold stream_inv, keys_bounded, all_pending, pending_at.
    rewrite Ho, Hd, Hn, Hc. repeat split; auto.
    intros k d Hin. destruct (Hkeys _ _ Hin) as (z & -> & Hz).
    exists z; split; auto. destruct (connected s); lia.
Qed.

Lemma state_of_getitem message i s : state_of (getitem message i s) = s.
Proof.
  unfold getitem. destruct message; try reflexivity.
  - destruct (nth_error (str_items s0) i); reflexivity.
  - destruct (nth_error l i); reflexivity.
Qed.

Lemma stream_inv_messageReceived message context :
  steps keeps_stream_inv (messageReceived message context).
Proof.
  intros s Hinv. unfold messageReceived, bind at 1.
  pose proof (state_of_getitem message 0 s) as Hg.
  destruct (getitem message 0 s) as [tag s0|e s0]; simpl in Hg; subst s0;
    [|exact Hinv].
  destruct (py_eq_int tag MSGTYPE_REQUEST).
  { pose proof (same_core_requestReceived message context s) as Hc.
    unfold bind. destruct (requestReceived message context s); simpl in *;
      eapply stream_inv_same_core; eauto. }
  destruct (py_eq_int tag MSGTYPE_RESPONSE).
  { unfold responseReceived, bind, gets. rewrite (proj1 Hinv).
    now apply stream_inv_base_responseReceived. }
  destruct (py_eq_int tag MSGTYPE_NOTIFICATION).
  { eapply stream_inv_same_core; eauto. apply same_core_notificationReceived. }
  unfold undefinedMessageReceived, bind.
  pose proof (state_of_getitem message 0 s) as Hg.
  destruct (getitem message 0 s) as [tag' s0|e s0]; simpl in Hg; subst s0;
    exact Hinv.
Qed.

Lemma stream_inv_step ev p : keeps_stream_inv (st p) (st (step ev p)).
Proof.
  intros Hinv. pose proof Hinv as (Hcls & _).
  unfold step. rewrite Hcls.
  destruct ev as [ | |method args|method params|data|data address|reason
                 | | | |dc|h o];
    try exact Hinv; unfold on_state; simpl.
  - (* createRequest *)
    unfold call_createRequest, bind, gets. rewrite Hcls.
    destruct args as [|params [|? ?]]; try exact Hinv.
    now apply stream_inv_createRequest.
  - (* createNotification *)
    eapply stream_inv_same_core; eauto. apply same_core_createNotification.
  - (* dataReceived *)
    unfold dataReceived.
    apply (@rawDataReceived_steps E keeps_stream_inv); auto.
    + exact keeps_stream_inv_refl.
    + exact keeps_stream_inv_trans.
    + exact stream_inv_messageReceived.
    + intros e s Hs. exact Hs.
  - (* connectionLost *)
    unfold connectionLost, bind, modify.
    apply stream_inv_callbackOutgoingRequests. exact Hinv.
  - (* timeoutConnection *)
    unfold timeoutConnection, bind at 1.
    pose proof (stream_inv_callbackOutgoingRequests
                  (Exn TimeoutError [VStr "Request timed out"]) Hinv) as H.
    destruct (callbackOutgoingRequests _ (st p)); simpl in *; auto.
  - (* a remote method completes *)
    eapply stream_inv_same_core; eauto. apply same_core_handlerFired.
Qed.

Lemma stream_inv_run tr : forall p,
  stream_inv (st p) -> stream_inv (st (run tr p)).
Proof.
  induction tr as [|ev tr IH]; simpl; intros p Hinv; auto.
  apply IH. now apply stream_inv_step.
Qed.

End StreamInvariant.

Lemma connectionLost_fails_all_pending (s : State) (reason : exn) :
  all_pending s ->
  NoDup (PyDict.values (outgoing_requests s)) ->
  exists s',
    connectionLost reason s = Ok tt s' /\
    outgoing_requests s' = [] /\
    connected s' = false /\ registered s' = false /\
    (forall k d, In (k, d) (outgoing_requests s) -> fired_at s' d (Failure reason)) /\
    (forall d v, fired_at s' d (Success v) -> fired_at s d (Success v)).
Proof.
  intros Hp Hnd.
  set (s1 := set_registered false (set_connected false s)).
  assert (Hvals : forall d, In d (PyDict.values (outgoing_requests s)) ->
                            pending_at s d).
  { intros d Hin. unfold PyDict.values in Hin. apply in_map_iff in Hin.
    destruct Hin as ([k d'] & <- & Hin). eapply Hp; eauto. }
  pose proof (@callbackOutgoing_loop_all_pending reason (outgoing_requests s) s1
                eq_refl Hnd Hvals) as Hloop.
  eexists. split.
  - unfold connectionLost, bind, modify, callbackOutgoingRequests, bind, gets.
    fold s1. exact Hloop.
  - simpl. repeat split; auto.
    + intros k d Hin. unfold fired_at. simpl.
      apply fail_all_in; auto.
      * unfold PyDict.values. apply in_map_iff. exists (k, d); auto.
      * apply nth_error_Some. rewrite (Hp _ _ Hin). discriminate.
    + intros d v. unfold fired_at. simpl. intros Hf.
      destruct (in_dec Nat.eq_dec d (PyDict.values (outgoing_requests s))) as [Hin|Hn].
      * rewrite fail_all_in in Hf; auto; [discriminate|].
        apply nth_error_Some. rewrite (Hvals _ Hin). discriminate.
      * now rewrite fail_all_other in Hf.
Qed.

(** ** The life of an incoming request *)

Section RequestLifecycle.
Context {E : Env}.

Lemma resp_frame_refl s : resp_frame s s.
Proof. unfold resp_frame; intuition. Qed.

Lemma resp_frame_trans a b c : resp_frame a b -> resp_frame b c -> resp_frame a c.
Proof. unfold resp_frame; intuition congruence. Qed.

Lemma call_frame_refl s : call_frame s s.
Proof. unfold call_frame, resp_frame; intuition. Qed.

Lemma call_frame_trans a b c : call_frame a b -> call_frame b c -> call_frame a c.
Proof. unfold call_frame, resp_frame; intuition congruence. Qed.

Lemma resp_frame_writeMessage message context :
  steps resp_frame (writeMessage message context).
Proof.
  apply steps_writeMessage;
    first [ exact resp_frame_refl | exact resp_frame_trans
          | intros; unfold resp_frame; simpl; intuition ].
Qed.

Lemma call_frame_callRemoteMethod msgid methodName params :
  steps call_frame (callRemoteMethod msgid methodName params).
Proof.
  apply steps_callRemoteMethod;
    first [ exact call_frame_refl | exact call_frame_trans
          | intros; unfold call_frame, resp_frame; simpl; intuition ].
Qed.

Lemma base_writeMessage_spec message context s :
  writable s context ->
  match pack (VList message) with
  | inr b => base_writeMessage message context s
             = Ok tt (upd_transport (fun w => w ++ [(b, route s context)]) s)
  | inl _ => exists e', base_writeMessage message context s = Raise e' s
  end.
Proof.
  intros Hw. unfold base_writeMessage.
  destruct (pack (VList message)) as [e|b].
  - unfold bind, gets. destruct (sendErrors s); [eexists; reflexivity|].
    destruct (format_tuple _ message); eexists; reflexivity.
  - unfold writeRawData, bind, gets, route.
    destruct (cls s) eqn:Hcls; [reflexivity|].
    destruct Hw as [Hw|Hw]; [congruence|].
    destruct context as [c|]; [reflexivity|congruence].
Qed.

Lemma writeMessage_response s msgid k error result context :
  key_of msgid = Some k ->
  writable s context ->
  match pack (VList [VInt MSGTYPE_RESPONSE; msgid; error; result]) with
  | inr b =>
      exists s',
        writeMessage [VInt MSGTYPE_RESPONSE; msgid; error; result] context s = Ok tt s' /\
        transport s' = (transport s ++ [(b, route s context)])%list /\
        resp_frame s s'
  | inl _ =>
      exists e' s',
        writeMessage [VInt MSGTYPE_RESPONSE; msgid; error; result] context s = Raise e' s' /\
        transport s' = transport s /\ resp_frame s s'
  end.
Proof.
  intros Hk Hw.
  set (message := [VInt MSGTYPE_RESPONSE; msgid; error; result]).
  pose proof (resp_frame_writeMessage message context s) as Hf.
  assert (Hwm : exists s1,
             writeMessage message context s = base_writeMessage message context s1 /\
             transport s1 = transport s /\ cls s1 = cls s).
  { unfold writeMessage, bind, gets. destruct (cls s) eqn:Hcls.
    - exists s; auto.
    - unfold dgram_writeMessage, bind, gets.
      destruct (truthy (timeout s)) as [delay|].
      + simpl. unfold ret, callLater, hash. rewrite Hk.
        eexists; split; [reflexivity|]. simpl; auto.
      + exists s; auto. }
  destruct Hwm as (s1 & Heq & Ht & Hc).
  assert (Hw1 : writable s1 context) by (unfold writable in *; now rewrite Hc).
  pose proof (base_writeMessage_spec message Hw1) as Hb.
  rewrite Heq in Hf |- *.
  destruct (pack (VList message)) as [e|b].
  - destruct Hb as (e' & Hb). rewrite Hb in Hf |- *. simpl in Hf.
    exists e', s1. auto.
  - rewrite Hb in Hf |- *. simpl in Hf.
    eexists; split; [reflexivity|]. split; auto.
    simpl. unfold route. now rewrite Ht, Hc.
Qed.

Lemma incoming_context_spec s msgid k :
  key_of msgid = Some k ->
  incoming_context msgid s
  = Ok (match PyDict.get k (incoming_requests s) with
        | Some (_, ctx) => ctx
        | None => None
        end) s.
Proof.
  intros Hk. unfold incoming_context, hash, bind at 1. rewrite Hk.
  unfold ret, bind, gets.
  destruct (PyDict.get k (incoming_requests s)) as [[? ?]|]; reflexivity.
Qed.

Variable msgid : Value.
Variable k : Key.
Hypothesis Hk : key_of msgid = Some k.

Lemma registered_at_frame s s' context :
  resp_frame s s' -> registered_at k s context -> registered_at k s' context.
Proof.
  unfold registered_at, resp_frame, writable.
  intros (Hc & _ & Hi & _) [Hg Hw]. now rewrite Hc, Hi.
Qed.

Lemma respondCallback_spec s context v :
  registered_at k s context ->
  (exists s', respondCallback v msgid s = Ok VNil s' /\
              wrote_response msgid context s s' /\ resp_frame s s') \/
  (exists e s', respondCallback v msgid s = Raise e s' /\
                transport s' = transport s /\ resp_frame s s').
Proof.
  intros [[h Hg] Hw].
  unfold respondCallback, bind. rewrite (incoming_context_spec s msgid Hk). rewrite Hg.
  pose proof (writeMessage_response msgid VNil v Hk Hw) as H.
  destruct (pack (VList [VInt MSGTYPE_RESPONSE; msgid; VNil; v])) as [e|b] eqn:Hp.
  - right. destruct H as (e' & s' & H & Ht & Hf).
    exists e', s'. rewrite H. auto.
  - left. destruct H as (s' & H & Ht & Hf).
    exists s'. rewrite H. split; [reflexivity|]. split; [|exact Hf].
    exists b. split; auto. exists VNil, v. auto.
Qed.

Hypothesis Hpack : error_responses_pack msgid.

Lemma respondErrback_spec s context f :
  registered_at k s context ->
  exists s', respondErrback f msgid s = Ok VNil s' /\
             wrote_response msgid context s s' /\ resp_frame s s'.
Proof.
  intros [[h Hg] Hw].
  unfold respondErrback, respondError, bind, gets.
  set (error := if sendErrors s then getBriefTraceback f else getErrorMessage f).
  rewrite (incoming_context_spec s msgid Hk). rewrite Hg.
  pose proof (writeMessage_response msgid error VNil Hk Hw) as H.
  assert (Hp : exists b, pack (VList [VInt MSGTYPE_RESPONSE; msgid; error; VNil]) = inr b).
  { destruct (Hpack f) as [H1 H2]. unfold error. destruct (sendErrors s); auto. }
  destruct Hp as (b & Hp). rewrite Hp in H. destruct H as (s' & H & Ht & Hf).
  exists s'. rewrite H. split; [reflexivity|]. split; [|exact Hf].
  exists b. split; auto. exists error, VNil. auto.
Qed.

Lemma endRequest_spec s context o :
  registered_at k s context ->
  endRequest o msgid s = Ok o (upd_incoming (PyDict.remove k) s).
Proof.
  intros [[h Hg] _].
  unfold endRequest, hash, bind at 1. rewrite Hk.
  unfold ret, bind, gets, PyDict.mem. now rewrite Hg.
Qed.

Lemma apply_respondCallback s context o :
  registered_at k s context ->
  exists o1 s1,
    apply_cb (CbRespondCallback msgid) o s = Ok o1 s1 /\ resp_frame s s1 /\
    match o, o1 with
    | Success _, Success _ => wrote_response msgid context s s1
    | Success _, Failure _ => transport s1 = transport s
    | Failure _, Failure _ => transport s1 = transport s
    | Failure _, Success _ => False
    end.
Proof.
  intros Hr. destruct o as [v|f]; simpl.
  - unfold bind, catch.
    destruct (respondCallback_spec v Hr) as [(s' & H & Hw & Hf)|(e & s' & H & Ht & Hf)];
      rewrite H; simpl; eauto 6.
  - exists (Failure f), s. repeat split; auto using resp_frame_refl.
Qed.

Lemma apply_respondErrback s context o :
  registered_at k s context ->
  exists o2 s2,
    apply_cb (EbRespondErrback msgid) o s = Ok o2 s2 /\ resp_frame s s2 /\
    match o with
    | Failure _ => wrote_response msgid context s s2
    | Success _ => transport s2 = transport s
    end.
Proof.
  intros Hr. destruct o as [v|f]; simpl.
  - exists (Success v), s. repeat split; auto using resp_frame_refl.
  - unfold bind, catch.
    destruct (respondErrback_spec f Hr) as (s' & H & Hw & Hf).
    rewrite H; simpl; eauto 6.
Qed.

Lemma apply_endRequest s context o :
  registered_at k s context ->
  apply_cb (BothEndRequest msgid) o s = Ok o (upd_incoming (PyDict.remove k) s).
Proof.
  intros Hr. unfold apply_cb, bind, catch.
  rewrite (endRequest_spec o Hr). now destruct o.
Qed.

Lemma wrote_response_frame context a b c :
  wrote_response msgid context a b ->
  transport c = transport b -> wrote_response msgid context a c.
Proof.
  intros (packed & Hp & Ht) Hc. exists packed. split; auto. congruence.
Qed.

Lemma wrote_response_after context a b c :
  transport b = transport a -> cls b = cls a ->
  wrote_response msgid context b c -> wrote_response msgid context a c.
Proof.
  intros Ht Hc (packed & Hp & Hw). exists packed. split; auto.
  unfold route in *. now rewrite <- Ht, <- Hc.
Qed.

Lemma request_chain_answers s context o :
  registered_at k s context ->
  exists o' s',
    run_cbs (request_chain msgid) o s = Ok o' s' /\ answered msgid k context s s'.
Proof.
  intros Hr. unfold request_chain. cbn [run_cbs].
  destruct (apply_respondCallback o Hr) as (o1 & s1 & H1 & Hf1 & Hc1).
  unfold bind at 1. rewrite H1.
  pose proof (registered_at_frame Hf1 Hr) as Hr1.
  destruct (apply_respondErrback o1 Hr1) as (o2 & s2 & H2 & Hf2 & Hc2).
  unfold bind at 1. rewrite H2.
  pose proof (registered_at_frame Hf2 Hr1) as Hr2.
  unfold bind, ret. rewrite (apply_endRequest o2 Hr2).
  do 2 eexists. split; [reflexivity|].
  pose proof (resp_frame_trans Hf1 Hf2) as (Hcls & _ & Hinc & _ & Hh).
  unfold answered. simpl. rewrite Hinc. repeat split; auto.
  destruct o as [v|f], o1 as [v1|f1]; try tauto.
  - eapply wrote_response_frame; eauto.
  - eapply wrote_response_after; eauto. apply Hf1.
  - eapply wrote_response_after; eauto. apply Hf1.
Qed.

(** *** Attaching the callbacks *)

Lemma addCallbacks_pending h c cbs s :
  nth_error (handler_calls s) h = Some {| hd_result := None; hd_callbacks := cbs |} ->
  addCallbacks h c s
  = Ok tt (upd_handler_calls
             (list_set h {| hd_result := None; hd_callbacks := cbs ++ [c] |}) s).
Proof.
  intros Hn. unfold addCallbacks, bind, gets. rewrite Hn.
  unfold modify, runCallbacks, bind, gets. simpl.
  now rewrite (nth_error_list_set_same _ _ _ Hn).
Qed.

Lemma addCallbacks_fired h c o s o1 s1 :
  nth_error (handler_calls s) h = Some {| hd_result := Some o; hd_callbacks := [] |} ->
  apply_cb c o (upd_handler_calls
                  (list_set h {| hd_result := Some o; hd_callbacks := [c] |}) s)
  = Ok o1 s1 ->
  addCallbacks h c s
  = Ok tt (upd_handler_calls
             (list_set h {| hd_result := Some o1; hd_callbacks := [] |}) s1).
Proof.
  intros Hn Ha. unfold addCallbacks, bind, gets. rewrite Hn.
  unfold modify, runCallbacks, bind, gets. simpl.
  rewrite (nth_error_list_set_same _ _ _ Hn). simpl.
  unfold bind. rewrite Ha. reflexivity.
Qed.

Lemma registered_at_handlers f s context :
  registered_at k s context -> registered_at k (upd_handler_calls f s) context.
Proof. auto. Qed.

(** One callback added to a fired Deferred, seen from outside. *)
Lemma addCallbacks_fired_frame h c o s context :
  nth_error (handler_calls s) h = Some {| hd_result := Some o; hd_callbacks := [] |} ->
  registered_at k s context ->
  forall o1 s1,
    apply_cb c o (upd_handler_calls
                    (list_set h {| hd_result := Some o; hd_callbacks := [c] |}) s)
    = Ok o1 s1 ->
    handler_calls s1
    = list_set h {| hd_result := Some o; hd_callbacks := [c] |} (handler_calls s) ->
    let s' := upd_handler_calls
                (list_set h {| hd_result := Some o1; hd_callbacks := [] |}) s1 in
    addCallbacks h c s = Ok tt s' /\
    nth_error (handler_calls s') h = Some {| hd_result := Some o1; hd_callbacks := [] |}.
Proof.
  intros Hn Hr o1 s1 Ha Hh. cbv zeta. split.
  - eapply addCallbacks_fired; eauto.
  - simpl. rewrite Hh.
    eapply nth_error_list_set_same.
    eapply nth_error_list_set_same; eauto.
Qed.

Lemma attach_fired h o s context :
  nth_error (handler_calls s) h = Some {| hd_result := Some o; hd_callbacks := [] |} ->
  registered_at k s context ->
  exists o' s',
    (addCallbacks h (CbRespondCallback msgid);;
     addCallbacks h (EbRespondErrback msgid);;
     addCallbacks h (BothEndRequest msgid);;
     ret h) s = Ok h s' /\
    wrote_response msgid context s s' /\
    incoming_requests s' = PyDict.remove k (incoming_requests s) /\
    nth_error (handler_calls s') h = Some {| hd_result := Some o'; hd_callbacks := [] |}.
Proof.
  intros Hn Hr.
  (* respondCallback *)
  set (sa := upd_handler_calls
               (list_set h {| hd_result := Some o;
                              hd_callbacks := [CbRespondCallback msgid] |}) s).
  destruct (@apply_respondCallback sa context o (registered_at_handlers _ Hr))
    as (o1 & s1 & H1 & Hf1 & Hc1).
  destruct (@addCallbacks_fired_frame h (CbRespondCallback msgid) o s context
              Hn Hr o1 s1 H1 (proj2 (proj2 (proj2 (proj2 Hf1))))) as [Ha1 Hn1].
  set (s1' := upd_handler_calls
                (list_set h {| hd_result := Some o1; hd_callbacks := [] |}) s1) in *.
  assert (Hr1 : registered_at k s1' context)
    by (apply registered_at_handlers; eapply registered_at_frame; eauto;
        apply registered_at_handlers; auto).
  (* respondErrback *)
  set (sb := upd_handler_calls
               (list_set h {| hd_result := Some o1;
                              hd_callbacks := [EbRespondErrback msgid] |}) s1').
  destruct (@apply_respondErrback sb context o1 (registered_at_handlers _ Hr1))
    as (o2 & s2 & H2 & Hf2 & Hc2).
  destruct (@addCallbacks_fired_frame h (EbRespondErrback msgid) o1 s1' context
              Hn1 Hr1 o2 s2 H2 (proj2 (proj2 (proj2 (proj2 Hf2))))) as [Ha2 Hn2].
  set (s2' := upd_handler_calls
                (list_set h {| hd_result := Some o2; hd_callbacks := [] |}) s2) in *.
  assert (Hr2 : registered_at k s2' context)
    by (apply registered_at_handlers; eapply registered_at_frame; eauto;
        apply registered_at_handlers; auto).
  (* endRequest *)
  set (sc := upd_handler_calls
               (list_set h {| hd_result := Some o2;
                              hd_callbacks := [BothEndRequest msgid] |}) s2').
  pose proof (@apply_endRequest sc context o2 (registered_at_handlers _ Hr2)) as H3.
  destruct (@addCallbacks_fired_frame h (BothEndRequest msgid) o2 s2' context
              Hn2 Hr2 o2 _ H3 eq_refl) as [Ha3 Hn3].
  exists o2. eexists. split.
  { unfold bind. rewrite Ha1, Ha2, Ha3. reflexivity. }
  destruct Hf1 as (Hcls1 & _ & Hinc1 & _).
  destruct Hf2 as (Hcls2 & _ & Hinc2 & _).
  split; [|split; [|exact Hn3]].
  - destruct o as [v|f], o1 as [v1|f1]; try tauto.
    + eapply wrote_response_frame; [exact Hc1|]. simpl. exact Hc2.
    + eapply wrote_response_after; [| |eapply wrote_response_frame; [exact Hc2|reflexivity]];
        simpl; auto.
    + eapply wrote_response_after; [| |eapply wrote_response_frame; [exact Hc2|reflexivity]];
        simpl; auto.
  - simpl. rewrite Hinc2. simpl. rewrite Hinc1. reflexivity.
Qed.

Lemma maybeDeferred_spec (f : M (Value + unit)) s :
  exists r,
    maybeDeferred f s
    = Ok (List.length (handler_calls (state_of (f s))))
         (upd_handler_calls
            (fun l => l ++ [{| hd_result := r; hd_callbacks := [] |}])
            (state_of (f s))).
Proof.
  unfold maybeDeferred, bind, catch, gets, modify, ret.
  destruct (f s) as [[v|[]] s'|e s']; eexists; reflexivity.
Qed.

(** *** A request that is dispatched *)

Lemma requestReceived_dispatches s message msgType methodName params context :
  unpack4 message = inr (msgType, msgid, methodName, params) ->
  PyDict.mem k (incoming_requests s) = false ->
  writable s context ->
  exists h s1,
    requestReceived message context s = Ok h s1 /\
    match nth_error (handler_calls s1) h with
    | Some {| hd_result := None; hd_callbacks := cbs |} =>
        cbs = request_chain msgid /\
        PyDict.get k (incoming_requests s1) = Some (h, context) /\
        transport s1 = transport s
    | Some {| hd_result := Some _; hd_callbacks := cbs |} =>
        cbs = [] /\
        PyDict.get k (incoming_requests s1) = None /\
        wrote_response msgid context s s1
    | None => False
    end.
Proof.
  intros Hu Hm Hw.
  unfold requestReceived, bind at 1, gets at 1. rewrite Hu.
  unfold hash, bind at 1. rewrite Hk. unfold ret.
  unfold bind at 1, gets at 1. rewrite Hm.
  unfold bind at 1.
  destruct (maybeDeferred_spec (callRemoteMethod msgid methodName params) s)
    as (r & Hmd).
  rewrite Hmd. clear Hmd.
  destruct (call_frame_callRemoteMethod msgid methodName params s)
    as ((Hcls & _ & Hinc & _ & Hh) & Htr).
  set (sf := state_of (callRemoteMethod msgid methodName params s)) in *.
  set (h := List.length (handler_calls sf)).
  unfold bind at 1, modify at 1.
  set (sb := upd_incoming (PyDict.set k (h, context))
               (upd_handler_calls
                  (fun l => l ++ [{| hd_result := r; hd_callbacks := [] |}]) sf)).
  assert (Hn : nth_error (handler_calls sb) h
               = Some {| hd_result := r; hd_callbacks := [] |})
    by apply nth_error_snoc.
  assert (Hr : registered_at k sb context).
  { split.
    - exists h. simpl. apply dict_get_set.
    - unfold writable in *. simpl. now rewrite Hcls. }
  destruct r as [o|].
  - destruct (@attach_fired h o sb context Hn Hr) as (o' & s' & Heq & Hwr & Hi & Hn').
    exists h, s'. split; [exact Heq|]. rewrite Hn'.
    split; [reflexivity|]. split.
    + rewrite Hi. apply dict_get_remove.
    + eapply wrote_response_after; [| |exact Hwr]; simpl; auto.
  - exists h. eexists. split.
    + unfold bind.
      rewrite (@addCallbacks_pending h (CbRespondCallback msgid) [] sb Hn).
      erewrite addCallbacks_pending
        by (simpl; eapply nth_error_list_set_same; exact Hn).
      erewrite addCallbacks_pending
        by (simpl; eapply nth_error_list_set_same;
            eapply nth_error_list_set_same; exact Hn).
      reflexivity.
    + simpl handler_calls.
      erewrite nth_error_list_set_same
        by (eapply nth_error_list_set_same;
            eapply nth_error_list_set_same; exact Hn).
      split; [reflexivity|]. split; simpl; auto using dict_get_set.
Qed.

(** *** The completion of an asynchronous remote method *)

Lemma handlerFired_answers s h context o :
  nth_error (handler_calls s) h
  = Some {| hd_result := None; hd_callbacks := request_chain msgid |} ->
  registered_at k s context ->
  exists s2,
    handlerFired h o s = Ok tt s2 /\
    wrote_response msgid context s s2 /\
    PyDict.get k (incoming_requests s2) = None /\
    forall o', handlerFired h o' s2 = Raise (Exn AlreadyCalledError []) s2.
Proof.
  intros Hn Hr.
  set (sm := upd_handler_calls
               (list_set h {| hd_result := Some o;
                              hd_callbacks := request_chain msgid |}) s).
  destruct (@request_chain_answers sm context o (registered_at_handlers _ Hr))
    as (o' & s' & Hrun & Hwr & Hi & Hcls & Hh).
  assert (Hsm : nth_error (handler_calls sm) h
                = Some {| hd_result := Some o;
                          hd_callbacks := request_chain msgid |})
    by (simpl; eapply nth_error_list_set_same; exact Hn).
  set (s2 := upd_handler_calls
               (list_set h {| hd_result := Some o'; hd_callbacks := [] |}) s').
  assert (Hs2 : nth_error (handler_calls s2) h
                = Some {| hd_result := Some o'; hd_callbacks := [] |}).
  { simpl. rewrite Hh. eapply nth_error_list_set_same; exact Hsm. }
  exists s2. split.
  { unfold handlerFired, bind, gets. rewrite Hn.
    unfold modify, runCallbacks, bind, gets. fold sm. rewrite Hsm.
    unfold bind. rewrite Hrun. reflexivity. }
  split; [|split].
  - eapply wrote_response_after; [| |eapply wrote_response_frame; [exact Hwr|reflexivity]];
      reflexivity.
  - simpl. rewrite Hi. apply dict_get_remove.
  - intros o2. unfold handlerFired, bind, gets. now rewrite Hs2.
Qed.

(** *** The entry goes, whatever happens to the Response *)

Lemma apply_cb_Ok c o s : exists o' s', apply_cb c o s = Ok o' s'.
Proof.
  destruct c, o; simpl; unfold bind, catch, ret;
    try (do 2 eexists; reflexivity);
    match goal with |- context [match ?m s with _ => _ end] => destruct (m s) end;
    do 2 eexists; reflexivity.
Qed.

Lemma request_chain_removes s o :
  exists o' s',
    run_cbs (request_chain msgid) o s = Ok o' s' /\
    PyDict.get k (incoming_requests s') = None.
Proof.
  unfold request_chain. cbn [run_cbs].
  destruct (apply_cb_Ok (CbRespondCallback msgid) o s) as (o1 & s1 & H1).
  unfold bind at 1. rewrite H1.
  destruct (apply_cb_Ok (EbRespondErrback msgid) o1 s1) as (o2 & s2 & H2).
  unfold bind at 1. rewrite H2.
  unfold bind, ret, apply_cb, catch, endRequest, hash. rewrite Hk.
  unfold bind, ret, gets, modify.
  destruct (PyDict.mem k (incoming_requests s2)) eqn:Hm; do 2 eexists;
    (split; [destruct o2; reflexivity|]); simpl.
  - apply dict_get_remove.
  - unfold PyDict.mem in Hm.
    destruct (PyDict.get k (incoming_requests s2)); [discriminate|reflexivity].
Qed.

End RequestLifecycle.

Lemma error_responses_pack_example (n : Z) :
  0 <= n < 128 -> error_responses_pack (E := Example.env) (VInt n).
Proof.
  intros Hn [kind args]. unfold pack, getErrorMessage, getBriefTraceback.
  simpl. unfold Msgpack.pack. simpl.
  assert (Hb : (0 <=? n) && (n <? 128) = true)
    by (apply andb_true_iff; split; [apply Z.leb_le|apply Z.ltb_lt]; lia).
  rewrite Hb.
  destruct kind; simpl; split; eexists; reflexivity.
Qed.

(** ** Framing *)

Section Framing.
Context {E : Env} {L : CodecLaws E}.

Lemma pack_nonempty v b : pack v = inr b -> b <> [].
Proof.
  intros Hp ->. pose proof (@unpack1_pack E L v [] [] Hp) as H. simpl in H.
  rewrite unpack1_nil in H. discriminate.
Qed.

Lemma pack_all_length ms : forall bytes,
  pack_all ms = Some bytes -> (List.length ms <= List.length bytes)%nat.
Proof.
  induction ms as [|m ms IH]; simpl; intros bytes H; [lia|].
  destruct (pack m) as [e|b] eqn:Hp; [discriminate|].
  destruct (pack_all ms) as [bs|]; [|discriminate].
  injection H as <-. specialize (IH bs eq_refl).
  pose proof (pack_nonempty m Hp) as Hb.
  rewrite length_app. destruct b; [congruence|simpl; lia].
Qed.

Lemma pack_all_app ms1 : forall ms2 b1 b2,
  pack_all ms1 = Some b1 -> pack_all ms2 = Some b2 ->
  pack_all (ms1 ++ ms2) = Some (b1 ++ b2)%list.
Proof.
  induction ms1 as [|m ms1 IH]; simpl; intros ms2 b1 b2 H1 H2.
  - injection H1 as <-. exact H2.
  - destruct (pack m) as [e|b]; [discriminate|].
    destruct (pack_all ms1) as [bs|]; [|discriminate].
    injection H1 as <-. rewrite (IH ms2 bs b2 eq_refl H2).
    now rewrite app_assoc.
Qed.

Lemma handle_all_app ms1 : forall ms2 context s,
  handle_all (ms1 ++ ms2) context s
  = match handle_all ms1 context s with
    | Some s' => handle_all ms2 context s'
    | None => None
    end.
Proof.
  induction ms1 as [|m ms1 IH]; simpl; intros ms2 context s; auto.
  destruct (messageReceived m context s); auto.
Qed.

(** The loop hands over every whole message of the buffer and stops at the
    bytes that are not yet a message. *)
Lemma unpacker_loop_complete context ms : forall bytes tail s s_end fuel,
  pack_all ms = Some bytes ->
  unpack1 tail = OutOfData ->
  handle_all ms context s = Some s_end ->
  (List.length ms < fuel)%nat ->
  unpacker_loop fuel context {| unpacker := bytes ++ tail; st := s |}
  = {| unpacker := tail; st := s_end |}.
Proof.
  induction ms as [|m ms IH]; simpl; intros bytes tail s s_end fuel Hp Ht Hh Hf.
  - injection Hp as <-. injection Hh as <-.
    destruct fuel; [lia|]. simpl. now rewrite Ht.
  - destruct (pack m) as [e|b] eqn:Hpm; [discriminate|].
    destruct (pack_all ms) as [bs|] eqn:Hps; [|discriminate].
    injection Hp as <-.
    destruct fuel; [lia|]. simpl.
    rewrite <- app_assoc, (@unpack1_pack E L m b (bs ++ tail) Hpm).
    destruct (messageReceived m context s) as [[] s'|e s']; [|discriminate].
    apply IH; auto. lia.
Qed.

(** Cutting the bytes of a sequence of messages: whole messages, then the
    beginning of the next one. *)
Lemma pack_all_split ms : forall bytes n,
  pack_all ms = Some bytes ->
  exists ms1 ms2 b1 tail,
    ms = (ms1 ++ ms2)%list /\
    pack_all ms1 = Some b1 /\
    firstn n bytes = (b1 ++ tail)%list /\
    unpack1 tail = OutOfData /\
    pack_all ms2 = Some (tail ++ skipn n bytes)%list.
Proof.
  induction ms as [|m ms IH]; simpl; intros bytes n Hp.
  - injection Hp as <-. exists [], [], [], [].
    rewrite firstn_nil, skipn_nil. simpl. repeat split. apply unpack1_nil.
  - destruct (pack m) as [e|b] eqn:Hpm; [discriminate|].
    destruct (pack_all ms) as [bs|] eqn:Hps; [|discriminate].
    injection Hp as <-.
    destruct (Nat.lt_ge_cases n (List.length b)) as [Hlt|Hge].
    + exists [], (m :: ms), [], (firstn n b). simpl.
      rewrite Hpm, Hps.
      rewrite firstn_app, skipn_app.
      replace (n - List.length b)%nat with 0%nat by lia. simpl.
      rewrite app_nil_r. repeat split; auto.
      * apply (@unpack1_partial E L m (firstn n b) (skipn n b)).
        -- now rewrite firstn_skipn.
        -- intros Hs. apply (f_equal (@List.length byte)) in Hs.
           rewrite length_skipn in Hs. simpl in Hs. lia.
      * now rewrite app_assoc, firstn_skipn.
    + destruct (IH bs (n - List.length b)%nat eq_refl)
        as (ms1 & ms2 & b1 & tail & -> & H1 & Hf & Ht & H2).
      exists (m :: ms1), ms2, (b ++ b1)%list, tail. simpl.
      rewrite Hpm, H1.
      rewrite firstn_app, skipn_app, Hf.
      rewrite firstn_all2, skipn_all2 by lia. simpl.
      rewrite app_assoc. auto.
Qed.

End Framing.

(** ** The msgpack fragment keeps the contract of the codec *)

Lemma Value_ind_nested (P : Value -> Prop) :
  P VNil -> (forall b, P (VBool b)) -> (forall z, P (VInt z)) ->
  (forall s, P (VStr s)) -> (forall l, Forall P l -> P (VList l)) ->
  forall v, P v.
Proof.
  intros Hnil Hbool Hint Hstr Hlist. fix IH 1.
  intros [|b|z|s|l];
    [exact Hnil | apply Hbool | apply Hint | apply Hstr | ].
  apply Hlist. revert l. fix IHl 1. intros [|x l]; constructor.
  - apply IH.
  - apply IHl.
Qed.

Lemma to_N_byte_of_N (n : N) :
  (n < 256)%N -> Byte.to_N (Msgpack.byte_of_N n) = n.
Proof.
  intros Hn. unfold Msgpack.byte_of_N.
  destruct (Byte.of_N n) as [b|] eqn:Hb.
  - now apply Byte.to_of_N.
  - apply Byte.of_N_None_iff in Hb. lia.
Qed.

Lemma unpack_fuel_nil fuel : Msgpack.unpack_fuel fuel [] = OutOfData.
Proof. destruct fuel; reflexivity. Qed.

(** The header of an array of [len] items, and of a string of [len] bytes. *)
Lemma unpack_fuel_array fuel (len : nat) rest :
  (len < 16)%nat ->
  Msgpack.unpack_fuel (S fuel) (Msgpack.byte_of_N (144 + N.of_nat len) :: rest)
  = Msgpack.unpack_items (Msgpack.unpack_fuel fuel) len rest.
Proof.
  intros Hlen. cbn [Msgpack.unpack_fuel]. cbv zeta.
  rewrite to_N_byte_of_N by lia.
  replace (144 + N.of_nat len <? 128)%N with false
    by (symmetry; apply N.ltb_ge; lia).
  replace ((144 <=? 144 + N.of_nat len)%N && (144 + N.of_nat len <=? 159)%N)
    with true
    by (symmetry; apply andb_true_iff; split; apply N.leb_le; lia).
  replace (N.to_nat (144 + N.of_nat len - 144)) with len by lia.
  reflexivity.
Qed.

Lemma unpack_fuel_str fuel (len : nat) rest :
  (len < 32)%nat ->
  Msgpack.unpack_fuel (S fuel) (Msgpack.byte_of_N (160 + N.of_nat len) :: rest)
  = if (List.length rest <? len)%nat then OutOfData
    else Unpacked (VStr (string_of_list_byte (firstn len rest))) (skipn len rest).
Proof.
  intros Hlen. cbn [Msgpack.unpack_fuel]. cbv zeta.
  rewrite to_N_byte_of_N by lia.
  replace (160 + N.of_nat len <? 128)%N with false
    by (symmetry; apply N.ltb_ge; lia).
  replace ((144 <=? 160 + N.of_nat len)%N && (160 + N.of_nat len <=? 159)%N)
    with false
    by (symmetry; apply andb_false_iff; right; apply N.leb_gt; lia).
  replace ((160 <=? 160 + N.of_nat len)%N && (160 + N.of_nat len <=? 191)%N)
    with true
    by (symmetry; apply andb_true_iff; split; apply N.leb_le; lia).
  replace (N.to_nat (160 + N.of_nat len - 160)) with len by lia.
  reflexivity.
Qed.

Lemma unpack_fuel_int fuel (z : Z) rest :
  0 <= z < 128 ->
  Msgpack.unpack_fuel (S fuel) (Msgpack.byte_of_N (Z.to_N z) :: rest)
  = Unpacked (VInt z) rest.
Proof.
  intros Hz. cbn [Msgpack.unpack_fuel]. cbv zeta.
  rewrite to_N_byte_of_N by lia.
  replace (Z.to_N z <? 128)%N with true by (symmetry; apply N.ltb_lt; lia).
  now rewrite Z2N.id by lia.
Qed.

Lemma unpack_items_complete (unpack : list byte -> unpack_result)
    (l : list Value) : forall bs rest,
  Msgpack.concat_packed (map Msgpack.pack_value l) = Some bs ->
  Forall (fun v => forall b, Msgpack.pack_value v = Some b ->
                   forall rest, unpack (b ++ rest) = Unpacked v rest) l ->
  Msgpack.unpack_items unpack (List.length l) (bs ++ rest) = Unpacked (VList l) rest.
Proof.
  induction l as [|v l IH]; simpl; intros bs rest Hc Hall.
  - injection Hc as <-. reflexivity.
  - destruct (Msgpack.pack_value v) as [b|] eqn:Hv; [|discriminate].
    destruct (Msgpack.concat_packed (map Msgpack.pack_value l)) as [bs'|] eqn:Hl;
      [|discriminate].
    injection Hc as <-. inversion Hall as [|? ? Hv' Hall']; subst.
    rewrite <- app_assoc, (Hv' b Hv), (IH bs' rest eq_refl Hall').
    reflexivity.
Qed.

Lemma Some_inj A (a b : A) : Some a = Some b -> a = b.
Proof. congruence. Qed.

Lemma Some_cons_inj A (a b : A) (l m : list A) :
  Some (a :: l) = Some (b :: m) -> a = b /\ l = m.
Proof. intros H; split; congruence. Qed.

Lemma unpack_fuel_complete (v : Value) : forall b,
  Msgpack.pack_value v = Some b ->
  forall fuel rest,
    (Msgpack.nesting v <= fuel)%nat ->
    Msgpack.unpack_fuel fuel (b ++ rest) = Unpacked v rest.
Proof.
  induction v as [|c|z|s|l IH] using Value_ind_nested;
    intros b Hp fuel rest Hf;
    (destruct fuel as [|fuel]; [simpl in Hf; lia|]); cbn [Msgpack.pack_value] in Hp.
  - apply Some_inj in Hp; subst b. reflexivity.
  - destruct c; apply Some_inj in Hp; subst b; reflexivity.
  - destruct ((0 <=? z) && (z <? 128)) eqn:Hz; [|discriminate].
    apply Some_inj in Hp; subst b. apply andb_true_iff in Hz.
    cbn [app]. apply unpack_fuel_int. split; [apply Z.leb_le|apply Z.ltb_lt]; tauto.
  - destruct (List.length (list_byte_of_string s) <? 32)%nat eqn:Hlen; [|discriminate].
    apply Some_inj in Hp; subst b. apply Nat.ltb_lt in Hlen.
    cbn [app]. rewrite unpack_fuel_str by auto.
    replace (List.length (list_byte_of_string s ++ rest) <? List.length (list_byte_of_string s))%nat
      with false by (symmetry; apply Nat.ltb_ge; rewrite length_app; lia).
    rewrite firstn_app, Nat.sub_diag, firstn_all, firstn_O, app_nil_r.
    rewrite skipn_app, Nat.sub_diag, skipn_all. simpl.
    now rewrite string_of_list_byte_of_string.
  - destruct (List.length l <? 16)%nat eqn:Hlen; [|discriminate].
    destruct (Msgpack.concat_packed (map Msgpack.pack_value l)) as [bs|] eqn:Hc;
      [|discriminate].
    apply Some_inj in Hp; subst b. apply Nat.ltb_lt in Hlen.
    cbn [app]. rewrite unpack_fuel_array by auto.
    apply unpack_items_complete; auto.
    simpl in Hf. apply le_S_n in Hf. apply list_max_le in Hf.
    rewrite Forall_map in Hf.
    rewrite Forall_forall in *. intros v Hin b Hb rest'.
    apply IH; auto.
Qed.

Lemma concat_packed_length (l : list Value) : forall bs,
  Msgpack.concat_packed (map Msgpack.pack_value l) = Some bs ->
  Forall (fun v => forall b, Msgpack.pack_value v = Some b ->
                   (Msgpack.nesting v <= List.length b)%nat) l ->
  (list_max (map Msgpack.nesting l) <= List.length bs)%nat.
Proof.
  induction l as [|v l IH]; simpl; intros bs Hc Hall; [lia|].
  destruct (Msgpack.pack_value v) as [b|] eqn:Hv; [|discriminate].
  destruct (Msgpack.concat_packed (map Msgpack.pack_value l)) as [bs'|] eqn:Hl;
    [|discriminate].
  injection Hc as <-. inversion Hall as [|? ? Hv' Hall']; subst.
  specialize (IH bs' eq_refl Hall'). specialize (Hv' b Hv).
  rewrite length_app. lia.
Qed.

Lemma nesting_le_length (v : Value) : forall b,
  Msgpack.pack_value v = Some b -> (Msgpack.nesting v <= List.length b)%nat.
Proof.
  induction v as [|c|z|s|l IH] using Value_ind_nested; intros b Hp; cbn [Msgpack.pack_value] in Hp.
  - apply Some_inj in Hp; subst b. simpl; lia.
  - destruct c; apply Some_inj in Hp; subst b; simpl; lia.
  - destruct ((0 <=? z) && (z <? 128)); [|discriminate].
    apply Some_inj in Hp; subst b. simpl; lia.
  - destruct (List.length (list_byte_of_string s) <? 32)%nat; [|discriminate].
    apply Some_inj in Hp; subst b. simpl; lia.
  - destruct (List.length l <? 16)%nat; [|discriminate].
    destruct (Msgpack.concat_packed (map Msgpack.pack_value l)) as [bs|] eqn:Hc;
      [|discriminate].
    apply Some_inj in Hp; subst b. simpl.
    apply le_n_S. apply concat_packed_length; auto.
Qed.

Lemma unpack_items_partial (fuel : nat) (l : list Value) : forall bs p q,
  Msgpack.concat_packed (map Msgpack.pack_value l) = Some bs ->
  bs = (p ++ q)%list -> q <> [] -> (List.length p <= fuel)%nat ->
  Forall (fun v => forall p q, Msgpack.pack_value v = Some (p ++ q)%list ->
                   q <> [] -> forall fuel, (List.length p <= fuel)%nat ->
                   Msgpack.unpack_fuel fuel p = OutOfData) l ->
  Msgpack.unpack_items (Msgpack.unpack_fuel fuel) (List.length l) p = OutOfData.
Proof.
  induction l as [|v l IH]; simpl; intros bs p q Hc Hbs Hq Hf Hall.
  - injection Hc as <-. symmetry in Hbs. apply app_eq_nil in Hbs. tauto.
  - destruct (Msgpack.pack_value v) as [b|] eqn:Hv; [|discriminate].
    destruct (Msgpack.concat_packed (map Msgpack.pack_value l)) as [bs'|] eqn:Hl;
      [|discriminate].
    injection Hc as <-. inversion Hall as [|? ? Hv' Hall']; subst.
    assert (Hcase : (exists m, m <> [] /\ b = (p ++ m)%list) \/
                    (exists m, p = (b ++ m)%list /\ bs' = (m ++ q)%list)).
    { apply app_eq_app in Hbs. destruct Hbs as (m & [[H1 H2]|[H1 H2]]).
      - destruct m as [|x m].
        + right. exists []. rewrite app_nil_r in *. simpl in *. split; congruence.
        + left. exists (x :: m). split; [discriminate|auto].
      - right. exists m. auto. }
    destruct Hcase as [(m & Hm & ->)|(m & -> & ->)].
    + rewrite (Hv' p m Hv Hm fuel Hf). reflexivity.
    + rewrite length_app in Hf.
      rewrite (@unpack_fuel_complete v b Hv fuel m)
        by (pose proof (@nesting_le_length v b Hv); lia).
      rewrite (IH (m ++ q)%list m q eq_refl eq_refl Hq) by (auto; lia).
      reflexivity.
Qed.

Lemma unpack_fuel_partial (v : Value) : forall p q,
  Msgpack.pack_value v = Some (p ++ q)%list -> q <> [] ->
  forall fuel, (List.length p <= fuel)%nat ->
               Msgpack.unpack_fuel fuel p = OutOfData.
Proof.
  induction v as [|c|z|s|l IH] using Value_ind_nested;
    intros p q Hp Hq fuel Hf;
    (destruct p as [|x p]; [apply unpack_fuel_nil|]);
    (destruct fuel as [|fuel]; [simpl in Hf; lia|]); cbn [Msgpack.pack_value] in Hp.
  - apply Some_cons_inj in Hp. destruct Hp as [_ Hp]. symmetry in Hp.
    apply app_eq_nil in Hp. tauto.
  - destruct c; apply Some_cons_inj in Hp; destruct Hp as [_ Hp];
      symmetry in Hp; apply app_eq_nil in Hp; tauto.
  - destruct ((0 <=? z) && (z <? 128)); [|discriminate].
    apply Some_cons_inj in Hp. destruct Hp as [_ Hp]. symmetry in Hp.
    apply app_eq_nil in Hp. tauto.
  - destruct (List.length (list_byte_of_string s) <? 32)%nat eqn:Hlen; [|discriminate].
    apply Some_cons_inj in Hp. destruct Hp as [<- Hraw]. apply Nat.ltb_lt in Hlen.
    rewrite unpack_fuel_str by auto.
    replace (List.length p <? List.length (list_byte_of_string s))%nat with true;
      [reflexivity|].
    symmetry. apply Nat.ltb_lt. rewrite Hraw, length_app.
    destruct q; [congruence|simpl; lia].
  - destruct (List.length l <? 16)%nat eqn:Hlen; [|discriminate].
    destruct (Msgpack.concat_packed (map Msgpack.pack_value l)) as [bs|] eqn:Hc;
      [|discriminate].
    apply Some_cons_inj in Hp. destruct Hp as [<- Hbs]. apply Nat.ltb_lt in Hlen.
    rewrite unpack_fuel_array by auto.
    eapply unpack_items_partial; eauto. simpl in Hf. lia.
Qed.

Lemma msgpack_codec_laws : CodecLaws Example.env.
Proof.
  constructor; simpl; unfold Msgpack.pack, Msgpack.unpack1.
  - intros v packed rest Hp.
    destruct (Msgpack.pack_value v) as [b|] eqn:Hv; [|discriminate].
    injection Hp as <-.
    apply unpack_fuel_complete; auto.
    pose proof (@nesting_le_length v b Hv). rewrite length_app. lia.
  - intros v p q Hp Hq.
    destruct (Msgpack.pack_value v) as [b|] eqn:Hv; [|discriminate].
    injection Hp as ->.
    eapply unpack_fuel_partial; eauto.
  - reflexivity.
Qed.

(** ** Writing a message *)

Lemma dict_get_set_other V (k k' : Key) (v : V) (d : PyDict.t V) :
  k' <> k -> PyDict.get k' (PyDict.set k v d) = PyDict.get k' d.
Proof.
  intros Hne.
  assert (Hkk : key_eqb k' k = false).
  { destruct (key_eqb k' k) eqn:H; auto. apply key_eqb_eq in H. congruence. }
  unfold PyDict.set. destruct (PyDict.mem k d).
  - induction d as [|[k0 v0] d IH]; simpl; auto.
    destruct (key_eqb k k0) eqn:Hk0; simpl.
    + apply key_eqb_eq in Hk0. subst k0. now rewrite Hkk.
    + destruct (key_eqb k' k0); auto.
  - simpl. now rewrite Hkk.
Qed.

Section Writing.
Context {E : Env}.

(** The datagram protocol arms its timer and then writes as the base
    protocol does. *)
Lemma writeMessage_base s message context m1 k :
  nth_error message 1 = Some m1 ->
  key_of m1 = Some k ->
  exists s1,
    writeMessage message context s = base_writeMessage message context s1 /\
    transport s1 = transport s /\ cls s1 = cls s /\
    sendErrors s1 = sendErrors s.
Proof.
  intros Hn Hk. unfold writeMessage, bind, gets. destruct (cls s) eqn:Hcls.
  - exists s; auto.
  - unfold dgram_writeMessage, bind, gets.
    destruct (truthy (timeout s)) as [delay|].
    + unfold getitem. rewrite Hn. unfold ret, callLater, hash. rewrite Hk.
      eexists; split; [reflexivity|]. simpl; auto.
    + exists s; auto.
Qed.

Lemma writeMessage_sends s message context m1 k b :
  nth_error message 1 = Some m1 ->
  key_of m1 = Some k ->
  writable s context ->
  pack (VList message) = inr b ->
  exists s',
    writeMessage message context s = Ok tt s' /\
    transport s' = (transport s ++ [(b, route s context)])%list /\
    same_core s s'.
Proof.
  intros Hn Hk Hw Hp.
  pose proof (same_core_writeMessage message context s) as Hc.
  destruct (writeMessage_base s message context Hn Hk) as (s1 & Heq & Ht & Hcls & _).
  assert (Hw1 : writable s1 context) by (unfold writable in *; now rewrite Hcls).
  pose proof (base_writeMessage_spec message Hw1) as Hb.
  rewrite Hp in Hb. rewrite Heq in Hc |- *. rewrite Hb in Hc |- *.
  eexists; split; [reflexivity|]. split; [|exact Hc].
  simpl. unfold route. now rewrite Ht, Hcls.
Qed.

Lemma writeMessage_refused s message context m1 k e :
  nth_error message 1 = Some m1 ->
  key_of m1 = Some k ->
  pack (VList message) = inl e ->
  exists s',
    writeMessage message context s = Raise (write_error s message e) s' /\
    transport s' = transport s /\ same_core s s'.
Proof.
  intros Hn Hk Hp.
  pose proof (same_core_writeMessage message context s) as Hc.
  destruct (writeMessage_base s message context Hn Hk) as (s1 & Heq & Ht & _ & Hse).
  rewrite Heq in Hc |- *.
  assert (Hb : base_writeMessage message context s1
               = Raise (write_error s message e) s1).
  { unfold base_writeMessage, write_error. rewrite Hp. unfold bind, gets.
    rewrite Hse. destruct (sendErrors s); [reflexivity|].
    now destruct (format_tuple _ message). }
  rewrite Hb in Hc |- *. eauto.
Qed.

(** [createRequest] on a connected protocol, around its [writeMessage]. *)
Lemma createRequest_connected s method params :
  connected s = true ->
  createRequest method params s
  = match writeMessage [VInt MSGTYPE_REQUEST; VInt (next_msgid s + 1); method; params]
            (client_context s) (upd_next_msgid (fun n => n + 1) s) with
    | Ok _ s3 =>
        Ok (List.length (deferreds s3))
           (upd_outgoing (PyDict.set (KInt (next_msgid s + 1)) (List.length (deferreds s3)))
              (upd_deferreds (fun l => l ++ [Pending]) s3))
    | Raise e s3 => Raise e s3
    end.
Proof.
  intros Hc.
  unfold createRequest, isConnected, getNextMsgid, getClientContext,
    stream_getClientContext, dgram_getClientContext, client_context,
    new_deferred, bind, gets, modify, ret.
  rewrite Hc. cbn [negb cls next_msgid conn_address upd_next_msgid].
  destruct (cls s); reflexivity.
Qed.

End Writing.

(** ** A Response that finds its request *)

Lemma dict_get_remove_other V (k k' : Key) (d : PyDict.t V) :
  k' <> k -> PyDict.get k' (PyDict.remove k d) = PyDict.get k' d.
Proof.
  intros Hne. induction d as [|[k0 v0] d IH]; simpl; auto.
  destruct (key_eqb k k0) eqn:Hk0; simpl.
  - apply key_eqb_eq in Hk0. subst k0.
    destruct (key_eqb k' k) eqn:Hkk; auto.
    apply key_eqb_eq in Hkk. congruence.
  - now rewrite IH.
Qed.

Section Responses.
Context {E : Env}.

(** A Response that finds its request. *)
Lemma base_responseReceived_matched s msgType msgid error result k d :
  key_of msgid = Some k ->
  PyDict.get k (outgoing_requests s) = Some d ->
  pending_at s d ->
  base_responseReceived (VList [msgType; msgid; error; result]) s
  = Ok tt (upd_deferreds
             (list_set d (Fired (if is_not_None error
                                 then Failure (Exn ResponseError [error])
                                 else Success result)))
             (upd_outgoing (PyDict.remove k) s)).
Proof.
  intros Hk Hg Hp. unfold base_responseReceived. cbn [unpack4 iter_items].
  unfold pop_outgoing, hash, bind at 1. rewrite Hk.
  unfold bind, ret, gets, modify. rewrite Hg.
  unfold pending_at in Hp.
  destruct (is_not_None error); unfold local, ret, errback, callback, fire;
    cbn [deferreds upd_outgoing]; now rewrite Hp.
Qed.

(** On the datagram protocol the Response first cancels the delayed call
    recorded under its msgid. *)
Lemma dgram_responseReceived_cancels s msgType msgid error result k dc c :
  cls s = Datagram ->
  key_of msgid = Some k ->
  PyDict.get k (pendingTimeouts s) = Some dc ->
  nth_error (reactor s) dc = Some c ->
  responseReceived (VList [msgType; msgid; error; result]) s
  = match dc_state c with
    | Scheduled =>
        base_responseReceived (VList [msgType; msgid; error; result])
          (upd_reactor (list_set dc (set_dc_state Cancelled c)) s)
    | Cancelled => Raise (Exn AlreadyCancelled []) s
    | Called => Raise (Exn AlreadyCalled []) s
    end.
Proof.
  intros Hcls Hk Hpt Hdc.
  unfold responseReceived, dgram_responseReceived, bind, gets. rewrite Hcls.
  cbn [getitem nth_error]. unfold ret at 1. unfold hash. rewrite Hk.
  unfold ret. rewrite Hpt.
  unfold dc_cancel. rewrite Hdc. now destruct (dc_state c).
Qed.

Lemma messageReceived_response rest context s :
  messageReceived (VList (VInt MSGTYPE_RESPONSE :: rest)) context s
  = responseReceived (VList (VInt MSGTYPE_RESPONSE :: rest)) s.
Proof. reflexivity. Qed.

(** What a datagram protocol with a timeout has armed once [createRequest]
    has returned. *)
Lemma createRequest_arms_timer s method params d s1 delay :
  cls s = Datagram ->
  truthy (timeout s) = Some delay ->
  createRequest method params s = Ok d s1 ->
  reactor s1 = (reactor s ++ [{| dc_state := Scheduled; dc_delay := delay;
                                 dc_arg := VInt (next_msgid s + 1) |}])%list /\
  PyDict.get (KInt (next_msgid s + 1)) (pendingTimeouts s1)
  = Some (List.length (reactor s)).
Proof.
  intros Hcls Ht H.
  pose proof (createRequest_spec method params s) as Hs. rewrite H in Hs.
  destruct Hs as (Hc & _).
  rewrite (@createRequest_connected E s method params Hc) in H.
  set (s_a := upd_next_msgid (fun n => n + 1) s) in *.
  set (message := [VInt MSGTYPE_REQUEST; VInt (next_msgid s + 1); method; params]) in *.
  assert (Hw : writeMessage message (client_context s) s_a
               = dgram_writeMessage message (client_context s) s_a).
  { unfold writeMessage, bind, gets. change (cls s_a) with (cls s).
    now rewrite Hcls. }
  rewrite Hw in H.
  pose proof (@dgram_writeMessage_schedules E s_a delay message (client_context s)
                (VInt (next_msgid s + 1)) (KInt (next_msgid s + 1))
                Ht eq_refl eq_refl) as Hsch.
  cbv zeta in Hsch.
  destruct (dgram_writeMessage message (client_context s) s_a) as [[] s3|e s3];
    [|discriminate].
  injection H as _ <-. exact Hsch.
Qed.

End Responses.

(** A request a datagram protocol with a timeout has sent: its entry, its
    handle, its delayed call. *)
Lemma dgram_request_sent {E : Env} (s s1 : State) (method params : Value)
    (d : nat) (delay : N) :
  cls s = Datagram ->
  truthy (timeout s) = Some delay ->
  createRequest method params s = Ok d s1 ->
  cls s1 = Datagram /\
  PyDict.get (KInt (next_msgid s1)) (outgoing_requests s1) = Some d /\
  pending_at s1 d /\
  PyDict.get (KInt (next_msgid s1)) (pendingTimeouts s1) = Some (List.length (reactor s)) /\
  nth_error (reactor s1) (List.length (reactor s))
  = Some {| dc_state := Scheduled; dc_delay := delay; dc_arg := VInt (next_msgid s1) |}.
Proof.
  intros Hcls Ht H.
  pose proof (createRequest_spec method params s) as Hs. rewrite H in Hs.
  destruct Hs as (_ & Hd & Hn & Ho & Hds & Hc).
  destruct (@createRequest_arms_timer E s method params d s1 delay Hcls Ht H)
    as [Hr Hpt].
  rewrite <- Hn in Hr, Hpt.
  split; [congruence|]. split; [|split; [|split]].
  - rewrite Ho, Hn. apply dict_get_set.
  - unfold pending_at. rewrite Hds, Hd. apply nth_error_snoc.
  - exact Hpt.
  - rewrite Hr. apply nth_error_snoc.
Qed.

(** The state a Response in time leaves. *)
Lemma response_in_time {E : Env} (s1 : State) (msgid error result : Value)
    (k : Key) (d dc : nat) (c : DelayedCall) (context : option Context) :
  cls s1 = Datagram ->
  key_of msgid = Some k ->
  PyDict.get k (outgoing_requests s1) = Some d ->
  pending_at s1 d ->
  PyDict.get k (pendingTimeouts s1) = Some dc ->
  nth_error (reactor s1) dc = Some c ->
  dc_state c = Scheduled ->
  messageReceived (VList [VInt MSGTYPE_RESPONSE; msgid; error; result]) context s1
  = Ok tt (upd_deferreds
             (list_set d (Fired (if is_not_None error
                                 then Failure (Exn ResponseError [error])
                                 else Success result)))
             (upd_outgoing (PyDict.remove k)
                (upd_reactor (list_set dc (set_dc_state Cancelled c)) s1))).
Proof.
  intros Hcls Hk Hg Hp Hpt Hdc Hst.
  rewrite messageReceived_response.
  rewrite (@dgram_responseReceived_cancels s1 (VInt MSGTYPE_RESPONSE)
             msgid error result k dc c Hcls Hk Hpt Hdc).
  rewrite Hst.
  now rewrite (@base_responseReceived_matched
                 (upd_reactor (list_set dc (set_dc_state Cancelled c)) s1)
                 (VInt MSGTYPE_RESPONSE) msgid error result k d Hk Hg Hp).
Qed.

(** ** One request, from [createRequest] to its outcome *)

Lemma fire_other (d d0 : nat) (o : outcome) (s : State) :
  d0 <> d ->
  nth_error (deferreds (state_of (fire d0 o s))) d = nth_error (deferreds s) d.
Proof.
  intros Hne. unfold fire.
  destruct (nth_error (deferreds s) d0) as [[|o']|]; simpl; auto.
  now apply nth_error_list_set_other.
Qed.

Lemma fire_pending (d : nat) (o : outcome) (s : State) :
  pending_at s d ->
  fire d o s = Ok tt (upd_deferreds (list_set d (Fired o)) s).
Proof. unfold pending_at, fire. now intros ->. Qed.

Lemma fire_keeps_length (d : nat) (o : outcome) (s : State) :
  List.length (deferreds (state_of (fire d o s))) = List.length (deferreds s).
Proof.
  unfold fire. destruct (nth_error (deferreds s) d) as [[|o']|]; simpl; auto.
  apply length_list_set.
Qed.

Lemma fire_keeps_fields (d : nat) (o : outcome) (s : State) :
  outgoing_requests (state_of (fire d o s)) = outgoing_requests s /\
  next_msgid (state_of (fire d o s)) = next_msgid s.
Proof.
  unfold fire. destruct (nth_error (deferreds s) d) as [[|o']|]; simpl; auto.
Qed.

(** A handle that is pending after [fire d0] was pending before, and is not
    the one [fire] was called on. *)
Lemma pending_after_fire (d d0 : nat) (o : outcome) (s : State) :
  pending_at (state_of (fire d0 o s)) d ->
  pending_at s d /\ (pending_at s d0 -> d0 <> d).
Proof.
  unfold pending_at, fire.
  destruct (nth_error (deferreds s) d0) as [[|o']|] eqn:H0; simpl; intros H.
  - destruct (Nat.eq_dec d0 d) as [->|Hne].
    + rewrite (nth_error_list_set_same _ _ _ H0) in H. discriminate.
    + rewrite nth_error_list_set_other in H by exact Hne. auto.
  - split; [exact H|]. congruence.
  - split; [exact H|]. congruence.
Qed.

Section Owns.
Context {E : Env}.
Variable msgid : Z.
Variable d : nat.

Lemma keeps_owns_refl s : keeps_owns msgid d s s.
Proof. unfold keeps_owns; auto. Qed.

Lemma keeps_owns_trans a b c :
  keeps_owns msgid d a b -> keeps_owns msgid d b c -> keeps_owns msgid d a c.
Proof. unfold keeps_owns; auto. Qed.

Lemma owns_same_core s s' : same_core s s' -> keeps_owns msgid d s s'.
Proof.
  unfold same_core, keeps_owns, owns, pending_at.
  intros (_ & _ & -> & -> & -> & _). auto.
Qed.

(** Firing a handle with the table as it is. *)
Lemma owns_fire d0 o s : keeps_owns msgid d s (state_of (fire d0 o s)).
Proof.
  intros (H1 & H2 & H3 & H4).
  destruct (fire_keeps_fields d0 o s) as [Ho Hn].
  unfold owns. rewrite Ho, Hn, fire_keeps_length.
  repeat split; auto.
  intros Hp. apply pending_after_fire in Hp. tauto.
Qed.

(** Taking the entry under [k] out of the table and firing its handle. *)
Lemma owns_pop_fire k d0 o s :
  PyDict.get k (outgoing_requests s) = Some d0 ->
  keeps_owns msgid d s
    (state_of (fire d0 o (upd_outgoing (PyDict.remove k) s))).
Proof.
  intros Hg (H1 & H2 & H3 & H4).
  set (s_a := upd_outgoing (PyDict.remove k) s).
  destruct (fire_keeps_fields d0 o s_a) as [Ho Hn].
  unfold owns. rewrite Ho, Hn, fire_keeps_length.
  cbn [s_a outgoing_requests next_msgid deferreds upd_outgoing].
  split; [exact H1|]. split; [exact H2|]. split.
  - intros Hp. apply pending_after_fire in Hp.
    change (pending_at s_a d) with (pending_at s d) in Hp.
    change (pending_at s_a d0) with (pending_at s d0) in Hp.
    destruct Hp as [Hp Hne]. specialize (H3 Hp).
    destruct (key_eqb k (KInt msgid)) eqn:Hk.
    + apply key_eqb_eq in Hk. subst k.
      rewrite H3 in Hg. injection Hg as <-. exfalso. now apply Hne.
    + rewrite dict_get_remove_other; [exact H3|].
      intros <-. now rewrite key_eqb_refl in Hk.
  - intros k0 Hin. apply dict_remove_In in Hin. auto.
Qed.

Lemma owns_base_responseReceived message :
  steps (keeps_owns msgid d) (base_responseReceived message).
Proof.
  intros s Hinv. unfold base_responseReceived.
  destruct (unpack4 message) as [e|[[[msgType msgid'] error] result]].
  { unfold bind, gets. destruct (sendErrors s); exact Hinv. }
  unfold pop_outgoing, hash.
  destruct (key_of msgid') as [k|]; [|exact Hinv].
  unfold bind at 1. unfold bind at 1. unfold ret at 1.
  unfold bind at 1, gets at 1.
  destruct (PyDict.get k (outgoing_requests s)) as [d0|] eqn:Hg.
  2:{ unfold ret. destruct (is_not_None error); exact Hinv. }
  unfold bind at 1, modify, ret.
  destruct (is_not_None error); unfold bind, local, ret, errback, callback;
    now apply owns_pop_fire.
Qed.

Lemma owns_reactor f s : keeps_owns msgid d s (upd_reactor f s).
Proof. unfold keeps_owns, owns; auto. Qed.

Lemma owns_dc_cancel dc : steps (keeps_owns msgid d) (dc_cancel dc).
Proof.
  intros s. unfold dc_cancel.
  destruct (nth_error (reactor s) dc) as [c|]; simpl;
    [|apply keeps_owns_refl].
  destruct (dc_state c); simpl;
    [apply owns_reactor|apply keeps_owns_refl|apply keeps_owns_refl].
Qed.

Lemma owns_responseReceived message :
  steps (keeps_owns msgid d) (responseReceived message).
Proof.
  unfold responseReceived, dgram_responseReceived.
  apply steps_bind;
    [exact keeps_owns_trans|apply steps_gets; exact keeps_owns_refl|].
  intros [|]; [apply owns_base_responseReceived|].
  repeat (apply steps_bind; [exact keeps_owns_trans| |intros]);
    try apply owns_base_responseReceived.
  - apply steps_getitem; first [exact keeps_owns_refl|exact keeps_owns_trans].
  - apply steps_hash; first [exact keeps_owns_refl|exact keeps_owns_trans].
  - apply steps_gets; exact keeps_owns_refl.
  - match goal with |- steps _ (match ?x with _ => _ end) => destruct x end;
      [apply owns_dc_cancel|apply steps_ret; exact keeps_owns_refl].
Qed.

Lemma owns_messageReceived message context :
  steps (keeps_owns msgid d) (messageReceived message context).
Proof.
  intros s Hinv. unfold messageReceived, bind at 1.
  pose proof (state_of_getitem message 0 s) as Hg.
  destruct (getitem message 0 s) as [tag s0|e s0]; simpl in Hg; subst s0;
    [|exact Hinv].
  destruct (py_eq_int tag MSGTYPE_REQUEST).
  { pose proof (same_core_requestReceived message context s) as Hc.
    unfold bind. destruct (requestReceived message context s); simpl in *;
      eapply owns_same_core; eauto. }
  destruct (py_eq_int tag MSGTYPE_RESPONSE).
  { now apply owns_responseReceived. }
  destruct (py_eq_int tag MSGTYPE_NOTIFICATION).
  { eapply owns_same_core; eauto. apply same_core_notificationReceived. }
  unfold undefinedMessageReceived, bind.
  pose proof (state_of_getitem message 0 s) as Hg.
  destruct (getitem message 0 s) as [tag' s0|e s0]; simpl in Hg; subst s0;
    exact Hinv.
Qed.

(** [popitem] and [errback], as often as the loop runs. *)
Lemma owns_callbackOutgoing_loop e fuel :
  steps (keeps_owns msgid d) (callbackOutgoing_loop fuel (fun d => errback d e)).
Proof.
  induction fuel as [|fuel IH]; intros s Hinv; [exact Hinv|].
  cbn [callbackOutgoing_loop]. unfold bind at 1, gets at 1.
  destruct (outgoing_requests s) as [|[k0 d0] out'] eqn:Hout; [exact Hinv|].
  unfold bind at 1, modify at 1.
  set (s_a := upd_outgoing (fun _ => out') s).
  assert (Hb : owns msgid d (state_of (errback d0 e s_a))).
  { destruct Hinv as (H1 & H2 & H3 & H4).
    unfold errback.
    destruct (fire_keeps_fields d0 (Failure e) s_a) as [Ho Hn].
    unfold owns. rewrite Ho, Hn, fire_keeps_length.
    cbn [s_a outgoing_requests next_msgid deferreds upd_outgoing].
    split; [exact H1|]. split; [exact H2|]. split.
    - intros Hp. apply pending_after_fire in Hp.
      change (pending_at s_a d) with (pending_at s d) in Hp.
      change (pending_at s_a d0) with (pending_at s d0) in Hp.
      destruct Hp as [Hp Hne]. specialize (H3 Hp).
      rewrite Hout in H3. cbn [PyDict.get] in H3.
      destruct (key_eqb (KInt msgid) k0); [|exact H3].
      injection H3 as ->. exfalso. now apply Hne.
    - intros k Hin. apply H4. rewrite Hout. now right. }
  unfold bind.
  destruct (errback d0 e s_a) as [[] s_b|e' s_b]; simpl in Hb;
    [now apply IH|exact Hb].
Qed.

Lemma owns_callbackOutgoingRequests e :
  steps (keeps_owns msgid d) (callbackOutgoingRequests (fun d => errback d e)).
Proof.
  intros s. unfold callbackOutgoingRequests, bind, gets.
  apply owns_callbackOutgoing_loop.
Qed.

Lemma owns_timeoutRequest msgid' :
  steps (keeps_owns msgid d) (timeoutRequest msgid').
Proof.
  intros s Hinv. unfold timeoutRequest, hash.
  destruct (key_of msgid') as [k|]; [|exact Hinv].
  unfold bind, ret, gets.
  destruct (PyDict.get k (outgoing_requests s)) as [d0|]; [|exact Hinv].
  now apply owns_fire.
Qed.

Lemma owns_runDelayedCall dc :
  steps (keeps_owns msgid d) (runDelayedCall dc).
Proof.
  intros s Hinv. unfold runDelayedCall, bind, gets.
  destruct (nth_error (reactor s) dc) as [c|]; [|exact Hinv].
  destruct (dc_state c); try exact Hinv.
  unfold modify. apply owns_timeoutRequest. now apply owns_reactor.
Qed.

(** A later [createRequest] takes a new msgid and a new handle. *)
Lemma owns_createRequest method params :
  steps (keeps_owns msgid d) (createRequest method params).
Proof.
  intros s (H1 & H2 & H3 & H4).
  pose proof (createRequest_spec method params s) as H.
  destruct (createRequest method params s) as [d' s'|e s']; simpl;
    unfold owns, pending_at.
  - destruct H as (_ & -> & Hn & Ho & Hd & _). rewrite Hn, Ho, Hd.
    rewrite length_app. cbn [List.length].
    split; [lia|]. split; [lia|]. split.
    + intros Hp. rewrite nth_error_app1 in Hp by exact H1.
      rewrite dict_get_set_other; [now apply H3|].
      intros [= Heq]. lia.
    + intros k Hin. apply dict_set_In in Hin.
      destruct Hin as [Hin|[_ Heq]]; [now apply H4|]. lia.
  - destruct H as (Ho & Hd & Hn & _). rewrite Ho, Hd, Hn.
    repeat split; auto. destruct (connected s); lia.
Qed.

Lemma owns_call_createRequest method args :
  steps (keeps_owns msgid d) (call_createRequest method args).
Proof.
  intros s Hinv. unfold call_createRequest, dgram_createRequest, bind, gets.
  destruct (cls s); [|now apply owns_createRequest].
  destruct args as [|params [|? ?]]; try exact Hinv.
  now apply owns_createRequest.
Qed.

Lemma owns_rawDataReceived data context p :
  keeps_owns msgid d (st p) (st (rawDataReceived data context p)).
Proof.
  apply (@rawDataReceived_steps E (keeps_owns msgid d)).
  - exact keeps_owns_refl.
  - exact keeps_owns_trans.
  - exact owns_messageReceived.
  - intros e s Hs. exact Hs.
Qed.

Lemma owns_connectionLost reason :
  steps (keeps_owns msgid d) (connectionLost reason).
Proof.
  intros s Hinv. unfold connectionLost, bind, modify.
  apply owns_callbackOutgoingRequests. exact Hinv.
Qed.

Lemma owns_timeoutConnection : steps (keeps_owns msgid d) timeoutConnection.
Proof.
  intros s Hinv. unfold timeoutConnection, bind at 1.
  pose proof (owns_callbackOutgoingRequests
                (Exn TimeoutError [VStr "Request timed out"]) Hinv) as H.
  destruct (callbackOutgoingRequests _ s); simpl in *; auto.
Qed.

Lemma owns_step ev p : keeps_owns msgid d (st p) (st (step ev p)).
Proof.
  intros Hinv. unfold step.
  destruct ev as [ | |method args|method params|data|data address|reason
                 | | | |dc|h o];
    destruct (cls (st p)); try exact Hinv; unfold on_state; simpl;
    first [ now apply owns_call_createRequest
          | now apply owns_rawDataReceived
          | now apply owns_connectionLost
          | now apply owns_timeoutConnection
          | now apply owns_callbackOutgoingRequests
          | now apply owns_runDelayedCall
          | eapply owns_same_core;
            [apply same_core_createNotification|exact Hinv]
          | eapply owns_same_core;
            [apply same_core_handlerFired|exact Hinv] ].
Qed.

Lemma owns_run tr : forall p, keeps_owns msgid d (st p) (st (run tr p)).
Proof.
  induction tr as [|ev tr IH]; simpl; intros p Hinv; auto.
  apply IH. now apply owns_step.
Qed.

End Owns.

Section OneRequest.
Context {E : Env}.

Lemma keeps_handles_made_refl s : keeps_handles_made s s.
Proof. unfold keeps_handles_made; auto. Qed.

Lemma keeps_handles_made_trans a b c :
  keeps_handles_made a b -> keeps_handles_made b c -> keeps_handles_made a c.
Proof. unfold keeps_handles_made; auto. Qed.

Lemma handles_made_new s :
  keeps_handles_made s (upd_deferreds (fun l => l ++ [Pending]) s).
Proof.
  unfold keeps_handles_made, handles_made. simpl. intros H k d Hin.
  rewrite length_app. specialize (H k d Hin). lia.
Qed.

Lemma handles_made_fire d o s :
  pending_at s d ->
  keeps_handles_made s (upd_deferreds (list_set d (Fired o)) s).
Proof.
  unfold keeps_handles_made, handles_made. simpl. intros _ H k d0 Hin.
  rewrite length_list_set. eauto.
Qed.

Lemma handles_made_remove k s :
  keeps_handles_made s (upd_outgoing (PyDict.remove k) s).
Proof.
  unfold keeps_handles_made, handles_made. simpl. intros H k0 d Hin.
  apply dict_remove_In in Hin. eauto.
Qed.

Lemma handles_made_pop k d out' s :
  outgoing_requests s = (k, d) :: out' ->
  keeps_handles_made s (upd_outgoing (fun _ => out') s).
Proof.
  unfold keeps_handles_made, handles_made. simpl. intros Ho H k0 d0 Hin.
  apply (H k0 d0). rewrite Ho. now right.
Qed.

Lemma handles_made_createRequest method params :
  steps keeps_handles_made (createRequest method params).
Proof.
  intros s Hm. pose proof (createRequest_spec method params s) as H.
  destruct (createRequest method params s) as [d s'|e s']; simpl;
    unfold handles_made in *.
  - destruct H as (_ & -> & _ & Ho & Hd & _). rewrite Ho, Hd.
    intros k d0 Hin. rewrite length_app. cbn [List.length].
    apply dict_set_In in Hin. destruct Hin as [Hin|[_ ->]]; [|lia].
    specialize (Hm _ _ Hin). lia.
  - destruct H as (Ho & Hd & _). rewrite Ho, Hd. exact Hm.
Qed.

Ltac made_prim :=
  first [ exact keeps_handles_made_refl | exact keeps_handles_made_trans
        | exact handles_made_new | exact handles_made_fire
        | exact handles_made_remove | exact handles_made_pop
        | exact handles_made_createRequest
        | intros; unfold keeps_handles_made, handles_made; simpl; auto ].

Lemma handles_made_run tr p :
  handles_made (st p) -> handles_made (st (run tr p)).
Proof. apply (steps_run (R := keeps_handles_made)); made_prim. Qed.

Lemma handles_made_init c se a t : handles_made (init_state c se a t).
Proof. unfold handles_made; simpl; tauto. Qed.

Lemma same_config_refl s : same_config s s.
Proof. unfold same_config; auto. Qed.

Lemma same_config_trans a b c :
  same_config a b -> same_config b c -> same_config a c.
Proof. unfold same_config. intros [-> ->] [-> ->]. auto. Qed.

Ltac config_prim :=
  first [ exact same_config_refl | exact same_config_trans
        | intros; unfold same_config; simpl; auto ].

Lemma same_config_createRequest method params :
  steps same_config (createRequest method params).
Proof. apply steps_createRequest; config_prim. Qed.

Lemma same_config_run tr p : same_config (st p) (st (run tr p)).
Proof. apply steps_run; first [exact same_config_createRequest | config_prim]. Qed.

(** The state of the request [createRequest] has just sent. *)
Lemma createRequest_owns method params s d s1 :
  handles_made s ->
  createRequest method params s = Ok d s1 ->
  owns (next_msgid s1) d s1 /\ pending_at s1 d /\
  PyDict.get (KInt (next_msgid s1)) (outgoing_requests s1) = Some d.
Proof.
  intros Hm H.
  pose proof (createRequest_spec method params s) as Hs. rewrite H in Hs.
  destruct Hs as (_ & -> & Hn & Ho & Hd & _).
  assert (Hg : PyDict.get (KInt (next_msgid s1)) (outgoing_requests s1)
               = Some (List.length (deferreds s)))
    by (rewrite Ho, Hn; apply dict_get_set).
  assert (Hp : pending_at s1 (List.length (deferreds s)))
    by (unfold pending_at; rewrite Hd; apply nth_error_snoc).
  split; [|auto]. unfold owns. rewrite Hd, length_app. cbn [List.length].
  split; [lia|]. split; [lia|]. split; [auto|].
  intros k Hin. rewrite Ho in Hin. apply dict_set_In in Hin.
  destruct Hin as [Hin|[-> _]]; [|now rewrite Hn].
  specialize (Hm _ _ Hin). lia.
Qed.

Lemma call_createRequest_Ok method args s d s1 :
  call_createRequest method args s = Ok d s1 ->
  exists params, createRequest method params s = Ok d s1.
Proof.
  unfold call_createRequest, dgram_createRequest, bind, gets.
  destruct (cls s); [|eauto].
  destruct args as [|params [|? ?]]; try discriminate. eauto.
Qed.

Lemma step_createRequest method args p :
  st (step (EvCreateRequest method args) p)
  = state_of (call_createRequest method args (st p)).
Proof. unfold step. now destruct (cls (st p)). Qed.

(** A handle that has been made is unresolved or carries an outcome. *)
Lemma pending_or_fired s d :
  (d < List.length (deferreds s))%nat ->
  pending_at s d \/ exists o, fired_at s d o.
Proof.
  intros Hlt. unfold pending_at, fired_at.
  destruct (nth_error (deferreds s) d) as [[|o]|] eqn:Hd; eauto.
  apply nth_error_None in Hd. lia.
Qed.

Lemma stable_responseReceived message :
  steps stable (responseReceived message).
Proof.
  apply steps_responseReceived;
    first [ exact stable_refl | exact stable_trans | exact stable_fire
          | intros; unfold stable, fired_at; simpl; auto ].
Qed.

Lemma stable_connectionLost reason : steps stable (connectionLost reason).
Proof.
  apply steps_connectionLost;
    first [ exact stable_refl | exact stable_trans | exact stable_fire
          | intros; unfold stable, fired_at; simpl; auto ].
Qed.

(** A Response that does not carry the msgid of the request. *)
Lemma responseReceived_other msgid d message s :
  owns msgid d s ->
  (forall msgType msgid' error result,
     unpack4 message = inr (msgType, msgid', error, result) ->
     key_of msgid' <> Some (KInt msgid)) ->
  nth_error (deferreds (state_of (responseReceived message s))) d
  = nth_error (deferreds s) d.
Proof.
  intros (_ & _ & _ & H4) Hother.
  assert (Hbase : forall s', deferreds s' = deferreds s ->
            outgoing_requests s' = outgoing_requests s ->
            nth_error (deferreds (state_of (base_responseReceived message s'))) d
            = nth_error (deferreds s) d).
  { intros s' Hd Ho. unfold base_responseReceived.
    destruct (unpack4 message) as [e|[[[msgType msgid'] error] result]] eqn:Hu.
    { unfold bind, gets. destruct (sendErrors s'); simpl; now rewrite Hd. }
    specialize (Hother _ _ _ _ eq_refl).
    unfold pop_outgoing, hash.
    destruct (key_of msgid') as [k|]; [|simpl; now rewrite Hd].
    unfold bind at 1. unfold bind at 1. unfold ret at 1.
    unfold bind at 1, gets at 1. rewrite Ho.
    destruct (PyDict.get k (outgoing_requests s)) as [d0|] eqn:Hg.
    2:{ unfold ret. destruct (is_not_None error); simpl; now rewrite Hd. }
    unfold bind at 1, modify, ret.
    assert (Hne : d0 <> d).
    { intros ->. apply dict_get_In in Hg. apply H4 in Hg. congruence. }
    destruct (is_not_None error); unfold bind, local, ret, errback, callback;
      rewrite (fire_other _ _ Hne); simpl; now rewrite Hd. }
  unfold responseReceived, bind at 1, gets at 1.
  destruct (cls s); [now apply Hbase|].
  unfold dgram_responseReceived, bind at 1.
  pose proof (state_of_getitem message 1 s) as Hg.
  destruct (getitem message 1 s) as [msgid1 s0|e s0]; simpl in Hg; subst s0;
    [|reflexivity].
  unfold hash.
  destruct (key_of msgid1) as [k1|]; [|reflexivity].
  unfold bind at 1. unfold ret at 1. unfold bind at 1, gets at 1.
  unfold bind at 1.
  destruct (PyDict.get k1 (pendingTimeouts s)) as [dc|]; [|now apply Hbase].
  unfold dc_cancel.
  destruct (nth_error (reactor s) dc) as [c|]; [|reflexivity].
  destruct (dc_state c); try reflexivity.
  now apply Hbase.
Qed.

(** The Response that carries the msgid of the request, while the request
    is unresolved. *)
Lemma responseReceived_own msgid d msgType msgid' error result s :
  owns msgid d s ->
  key_of msgid' = Some (KInt msgid) ->
  pending_at s d ->
  cancellable (KInt msgid) s ->
  exists s3,
    responseReceived (VList [msgType; msgid'; error; result]) s = Ok tt s3 /\
    fired_at s3 d (response_outcome error result) /\
    PyDict.get (KInt msgid) (outgoing_requests s3) = None.
Proof.
  intros (_ & _ & H3 & _) Hk Hp Hc. specialize (H3 Hp).
  assert (Hbase : forall s', deferreds s' = deferreds s ->
            outgoing_requests s' = outgoing_requests s ->
            exists s3,
              base_responseReceived (VList [msgType; msgid'; error; result]) s'
              = Ok tt s3 /\
              fired_at s3 d (response_outcome error result) /\
              PyDict.get (KInt msgid) (outgoing_requests s3) = None).
  { intros s' Hd Ho.
    assert (Hg' : PyDict.get (KInt msgid) (outgoing_requests s') = Some d)
      by now rewrite Ho.
    assert (Hp' : pending_at s' d) by (unfold pending_at; now rewrite Hd).
    rewrite (@base_responseReceived_matched s' msgType msgid' error result
               (KInt msgid) d Hk Hg' Hp').
    eexists. split; [reflexivity|]. split.
    - unfold fired_at, response_outcome.
      cbn [deferreds upd_deferreds upd_outgoing].
      eapply nth_error_list_set_same. exact Hp'.
    - cbn [outgoing_requests upd_deferreds upd_outgoing].
      apply dict_get_remove. }
  unfold responseReceived, bind at 1, gets at 1.
  destruct (cls s) eqn:Hcls; [now apply Hbase|].
  destruct Hc as [Hc|Hc]; [congruence|].
  unfold dgram_responseReceived, bind at 1.
  cbn [getitem nth_error]. unfold ret at 1. unfold hash. rewrite Hk.
  unfold bind at 1. unfold ret at 1. unfold bind at 1, gets at 1.
  unfold bind at 1.
  destruct (PyDict.get (KInt msgid) (pendingTimeouts s)) as [dc|];
    [|now apply Hbase].
  destruct Hc as (c & Hdc & Hst).
  unfold dc_cancel. rewrite Hdc, Hst.
  now apply Hbase.
Qed.

(** The timeout of another msgid. *)
Lemma timeoutRequest_other msgid d msgid' s :
  owns msgid d s ->
  key_of msgid' <> Some (KInt msgid) ->
  nth_error (deferreds (state_of (timeoutRequest msgid' s))) d
  = nth_error (deferreds s) d.
Proof.
  intros (_ & _ & _ & H4) Hother. unfold timeoutRequest, hash.
  destruct (key_of msgid') as [k|]; [|reflexivity].
  unfold bind, ret, gets.
  destruct (PyDict.get k (outgoing_requests s)) as [d0|] eqn:Hg; [|reflexivity].
  unfold errback. apply fire_other.
  intros ->. apply dict_get_In in Hg. apply H4 in Hg. congruence.
Qed.

(** The timeout of the msgid of the request, while the request is
    unresolved. *)
Lemma timeoutRequest_own msgid d msgid' s :
  owns msgid d s ->
  key_of msgid' = Some (KInt msgid) ->
  pending_at s d ->
  timeoutRequest msgid' s
  = Ok tt (upd_deferreds
             (list_set d (Fired (Failure (Exn TimeoutError [VStr "Request timed out"]))))
             s).
Proof.
  intros (_ & _ & H3 & _) Hk Hp. specialize (H3 Hp).
  unfold timeoutRequest, hash. rewrite Hk.
  unfold bind, ret, gets. rewrite H3.
  unfold errback. now apply fire_pending.
Qed.

Lemma stream_inv_init_state se a t : stream_inv (init_state Stream se a t).
Proof.
  unfold stream_inv, keys_bounded, all_pending. simpl.
  repeat split; try tauto. constructor.
Qed.

End OneRequest.

(** ** The timeout of one request *)

Section Timers.
Context {E : Env}.

Lemma timers_wait_refl s : timers_wait s s.
Proof. split; [apply stable_refl|]. intros dc c H. exists c. auto. Qed.

Lemma timers_wait_trans a b c :
  timers_wait a b -> timers_wait b c -> timers_wait a c.
Proof.
  intros [Hs1 H1] [Hs2 H2]. split; [eapply stable_trans; eauto|].
  intros dc c0 H0.
  destruct (H1 dc c0 H0) as (c1 & Hc1 & Ha1 & Hd1 & Hst1).
  destruct (H2 dc c1 Hc1) as (c2 & Hc2 & Ha2 & Hd2 & Hst2).
  exists c2. repeat split; auto; congruence.
Qed.

(** An update that leaves the delayed calls and the outcomes alone. *)
Lemma timers_wait_frame s s' :
  reactor s' = reactor s -> stable s s' -> timers_wait s s'.
Proof.
  intros Hr Hs. split; [exact Hs|]. intros dc c H. exists c.
  rewrite Hr. auto.
Qed.

Lemma timers_wait_callLater c s :
  timers_wait s (upd_reactor (fun l => l ++ [c]) s).
Proof.
  split; [unfold stable, fired_at; simpl; auto|].
  intros dc c0 H. exists c0. cbn [reactor upd_reactor].
  rewrite nth_error_app1; [auto|]. apply nth_error_Some. congruence.
Qed.

Lemma timers_wait_cancel dc c s :
  nth_error (reactor s) dc = Some c -> dc_state c = Scheduled ->
  timers_wait s (upd_reactor (list_set dc (set_dc_state Cancelled c)) s).
Proof.
  intros Hdc Hst. split; [unfold stable, fired_at; simpl; auto|].
  intros dc0 c0 H. cbn [reactor upd_reactor].
  destruct (Nat.eq_dec dc dc0) as [<-|Hne].
  - exists (set_dc_state Cancelled c).
    rewrite (nth_error_list_set_same _ _ _ Hdc).
    assert (c0 = c) by congruence. subst c0.
    repeat split; auto. discriminate.
  - exists c0. rewrite nth_error_list_set_other by exact Hne. auto.
Qed.

Ltac wait_prim :=
  first [ exact timers_wait_refl | exact timers_wait_trans
        | exact timers_wait_callLater | exact timers_wait_cancel
        | intros; apply timers_wait_frame;
          [reflexivity
          |first [ now apply stable_fire | apply stable_new
                 | unfold stable, fired_at; simpl; auto ]] ].

Lemma timers_wait_createRequest method params :
  steps timers_wait (createRequest method params).
Proof. apply steps_createRequest; wait_prim. Qed.

(** Every event but the running of a delayed call. *)
Lemma timers_wait_step ev p :
  (forall dc, ev <> EvDelayedCall dc) ->
  timers_wait (st p) (st (step ev p)).
Proof.
  intros Hev. unfold step, on_state, dataReceived, datagramReceived.
  destruct ev; destruct (cls (st p)); simpl; try apply timers_wait_refl;
    try (exfalso; eapply Hev; reflexivity);
    first [ apply steps_rawDataReceived; wait_prim
          | apply steps_connectionMade; wait_prim
          | apply steps_startProtocol; wait_prim
          | apply steps_call_createRequest;
            first [exact timers_wait_createRequest | wait_prim]
          | apply steps_createNotification; wait_prim
          | apply steps_connectionLost; wait_prim
          | apply steps_timeoutConnection; wait_prim
          | apply steps_connectionRefused; wait_prim
          | apply steps_stream_closeConnection; wait_prim
          | apply steps_dgram_closeConnection; wait_prim
          | apply steps_handlerFired; wait_prim
          | apply timers_wait_frame;
            [reflexivity|unfold stable, fired_at; simpl; auto] ].
Qed.

Variable msgid : Z.
Variables d dc0 : nat.

Lemma timeout_of_wait s s' :
  timers_wait s s' -> timeout_of msgid d dc0 s -> timeout_of msgid d dc0 s'.
Proof.
  intros [Hs Hr] (c & Hc & Ha & Hf).
  destruct (Hr dc0 c Hc) as (c' & Hc' & Ha' & _ & Hst).
  exists c'. split; [exact Hc'|]. split; [congruence|].
  intros Hcalled. destruct (Hf (Hst Hcalled)) as [o Ho]. exists o. now apply Hs.
Qed.

Lemma stable_timeoutRequest msgid' : steps stable (timeoutRequest msgid').
Proof.
  apply steps_timeoutRequest;
    first [ exact stable_refl | exact stable_trans | exact stable_fire
          | intros; unfold stable, fired_at; simpl; auto ].
Qed.

(** The running of a delayed call: of the timeout of the msgid, or of
    another one. *)
Lemma timeout_of_runDelayedCall dc s :
  owns msgid d s ->
  timeout_of msgid d dc0 s ->
  timeout_of msgid d dc0 (state_of (runDelayedCall dc s)).
Proof.
  intros Hown Ht. unfold runDelayedCall, bind, gets.
  destruct (nth_error (reactor s) dc) as [c1|] eqn:Hdc; [|exact Ht].
  destruct (dc_state c1) eqn:Hst; try exact Ht.
  unfold modify.
  set (s_a := upd_reactor (list_set dc (set_dc_state Called c1)) s).
  assert (Hown_a : owns msgid d s_a) by now apply owns_reactor.
  assert (Hw : timers_wait s_a (state_of (timeoutRequest (dc_arg c1) s_a))).
  { apply timers_wait_frame; [|apply stable_timeoutRequest].
    unfold timeoutRequest, hash.
    destruct (key_of (dc_arg c1)) as [k|]; [|reflexivity].
    unfold bind, ret, gets.
    destruct (PyDict.get k (outgoing_requests s_a)) as [d0|]; [|reflexivity].
    unfold errback, fire.
    destruct (nth_error (deferreds s_a) d0) as [[|o']|]; reflexivity. }
  destruct Ht as (c & Hc & Ha & Hf).
  destruct (Nat.eq_dec dc dc0) as [->|Hne].
  - (* the timeout of the msgid runs *)
    assert (c1 = c) by congruence. subst c1.
    exists (set_dc_state Called c).
    assert (Hr : reactor (state_of (timeoutRequest (dc_arg c) s_a)) = reactor s_a).
    { destruct Hw as [_ Hw].
      unfold timeoutRequest, hash.
      destruct (key_of (dc_arg c)) as [k|]; [|reflexivity].
      unfold bind, ret, gets.
      destruct (PyDict.get k (outgoing_requests s_a)) as [d0|]; [|reflexivity].
      unfold errback, fire.
      destruct (nth_error (deferreds s_a) d0) as [[|o']|]; reflexivity. }
    rewrite Hr. cbn [s_a reactor upd_reactor].
    split; [eapply nth_error_list_set_same; exact Hc|].
    split; [exact Ha|]. intros _.
    destruct Hown_a as (Hlt & Hrest).
    destruct (pending_or_fired s_a Hlt) as [Hp|[o Ho]].
    + rewrite Ha.
      rewrite (@timeoutRequest_own msgid d (VInt msgid) s_a
                 (conj Hlt Hrest) eq_refl Hp).
      eexists. unfold fired_at. cbn [deferreds upd_deferreds].
      eapply nth_error_list_set_same. exact Hp.
    + exists o. now apply stable_timeoutRequest.
  - (* another delayed call runs *)
    apply (timeout_of_wait Hw).
    exists c. cbn [s_a reactor upd_reactor].
    rewrite nth_error_list_set_other by exact Hne. auto.
Qed.

Lemma timeout_of_step ev p :
  owns msgid d (st p) ->
  timeout_of msgid d dc0 (st p) ->
  timeout_of msgid d dc0 (st (step ev p)).
Proof.
  intros Hown Ht.
  destruct ev as [ | |method args|method params|data|data address|reason
                 | | | |dc|h o];
    try (eapply timeout_of_wait;
         [apply timers_wait_step; discriminate|exact Ht]).
  unfold step. destruct (cls (st p)); [exact Ht|].
  unfold on_state. cbn [st]. now apply timeout_of_runDelayedCall.
Qed.

Lemma timeout_of_run tr : forall p,
  owns msgid d (st p) ->
  timeout_of msgid d dc0 (st p) ->
  timeout_of msgid d dc0 (st (run tr p)).
Proof.
  induction tr as [|ev tr IH]; simpl; intros p Hown Ht; auto.
  apply IH; [now apply owns_step|now apply timeout_of_step].
Qed.

(** A scheduled delayed call with the msgid of the request runs while the
    request is unresolved. *)
Lemma runDelayedCall_own dc c s :
  owns msgid d s ->
  nth_error (reactor s) dc = Some c ->
  dc_state c = Scheduled ->
  key_of (dc_arg c) = Some (KInt msgid) ->
  pending_at s d ->
  fired_at (state_of (runDelayedCall dc s)) d
    (Failure (Exn TimeoutError [VStr "Request timed out"])).
Proof.
  intros Hown Hdc Hst Hk Hp.
  unfold runDelayedCall, bind, gets. rewrite Hdc, Hst. unfold modify.
  set (s_a := upd_reactor (list_set dc (set_dc_state Called c)) s).
  assert (Hown_a : owns msgid d s_a) by now apply owns_reactor.
  rewrite (@timeoutRequest_own msgid d (dc_arg c) s_a Hown_a Hk Hp).
  unfold fired_at. cbn [state_of deferreds upd_deferreds].
  eapply nth_error_list_set_same. exact Hp.
Qed.

End Timers.

(** * The claims *)

(** ** C1 *)

(** C1 (as the code behaves): a Response whose msgid has no entry in the
    outgoing table makes [responseReceived] raise [UnboundLocalError]: the
    [KeyError] of [pop] is swallowed, and the handling then reads the local
    [df] that was never assigned.  Nothing is resolved and the state is the
    one before the call. *)
Theorem C1_unmatched_response_raises (s : State)
    (message msgType msgid error result : Value) (k : Key) :
  unpack4 message = inr (msgType, msgid, error, result) ->
  key_of msgid = Some k ->
  PyDict.get k (outgoing_requests s) = None ->
  base_responseReceived message s = Raise (Exn UnboundLocalError [VStr "df"]) s.
Proof.
  intros Hu Hk Hg.
  unfold base_responseReceived. rewrite Hu.
  unfold pop_outgoing, hash, bind at 1. rewrite Hk.
  unfold bind, ret, gets. rewrite Hg.
  destruct (is_not_None error); reflexivity.
Qed.

Lemma C1_unmatched_response_witness :
  base_responseReceived (VList [VInt 1; VInt 5; VNil; VStr "late"])
    (st (stream_protocol false))
  = Raise (Exn UnboundLocalError [VStr "df"]) (st (stream_protocol false)).
Proof.
  apply (@C1_unmatched_response_raises _ _
           (VInt 1) (VInt 5) VNil (VStr "late") (KInt 5));
    reflexivity.
Defined.

(** ** C2 *)

(** C2 (as stated, refuted): on a datagram protocol the caller may observe
    neither outcome.

    Without a per-request timeout: the protocol sends a request and is
    closed.  The handle is registered and pending, no delayed call exists,
    and whatever the application does afterwards (further requests and
    notifications, closing, firing the Deferreds of its remote methods) the
    caller never observes an outcome.

    With a per-request timeout: the protocol sends a request and the peer
    answers with a Response of three items.  [responseReceived] cancels the
    delayed call of the request before it fails to unpack the Response: the
    handle stays pending, the cancelled call does nothing when the reactor
    reaches it, and a Response for the msgid handled in that state is
    refused with [AlreadyCancelled]. *)
Lemma C2_counterexample :
  let p := run (E := Example.env)
             [EvStartProtocol; EvCreateRequest (VStr "echo") [VStr "hi"];
              EvCloseConnection]
             (datagram_protocol (Some Example.peer_a) false None) in
  let p' := run (E := Example.env)
              [EvStartProtocol; EvCreateRequest (VStr "echo") [VStr "hi"];
               EvDatagramReceived [x93; x01; x01; xc0] Example.peer_a]
              (datagram_protocol (Some Example.peer_a) false (Some 50%N)) in
  (outgoing_requests (st p) = [(KInt 1, 0%nat)] /\
   pending_at (st p) 0 /\
   reactor (st p) = [] /\
   connected (st p) = false /\
   forall tr, forallb (fun ev => negb (resolving ev)) tr = true ->
              pending_at (st (run (E := Example.env) tr p)) 0) /\
  (outgoing_requests (st p') = [(KInt 1, 0%nat)] /\
   pending_at (st p') 0 /\
   reactor (st p')
   = [{| dc_state := Cancelled; dc_delay := 50; dc_arg := VInt 1 |}] /\
   runDelayedCall 0 (st p') = Ok tt (st p') /\
   (forall error result context,
      messageReceived (E := Example.env)
        (VList [VInt MSGTYPE_RESPONSE; VInt 1; error; result]) context (st p')
      = Raise (Exn AlreadyCancelled []) (st p')) /\
   forall tr, forallb (fun ev => negb (resolving ev)) tr = true ->
              pending_at (st (run (E := Example.env) tr p')) 0).
Proof.
  cbv zeta. split.
  - split; [vm_compute; reflexivity|].
    split; [vm_compute; reflexivity|].
    split; [vm_compute; reflexivity|].
    split; [vm_compute; reflexivity|].
    intros tr Hq. apply (@keeps_pending_run Example.env 0%nat tr _ Hq).
    vm_compute; reflexivity.
  - split; [vm_compute; reflexivity|].
    split; [vm_compute; reflexivity|].
    split; [vm_compute; reflexivity|].
    split; [vm_compute; reflexivity|].
    split.
    + intros error result context.
      rewrite messageReceived_response.
      rewrite (@dgram_responseReceived_cancels _ (VInt MSGTYPE_RESPONSE)
                 (VInt 1) error result (KInt 1) 0%nat
                 {| dc_state := Cancelled; dc_delay := 50; dc_arg := VInt 1 |});
        vm_compute; reflexivity.
    + intros tr Hq. apply (@keeps_pending_run Example.env 0%nat tr _ Hq).
      vm_compute; reflexivity.
Qed.

(** C2 (amended): the life of one request.  [createRequest] has returned
    the handle [d] for the msgid it took, at any point of the life of a
    protocol, and any events have followed.

    - The handle is unresolved or carries one outcome, and an outcome that
      has been observed stays whatever happens later: never both.
    - As long as the handle is unresolved, the request is in the table
      under its msgid.
    - [responseReceived] on a message that is not a Response with that
      msgid leaves the handle as it is; on a Response with that msgid, while
      the handle is unresolved, it resolves the handle with the outcome the
      Response carries and removes the entry (on a datagram protocol it
      first cancels the delayed call recorded under the msgid, which has to
      be still scheduled).
    - [timeoutRequest] for another msgid leaves the handle as it is; for
      the msgid of the request, while the handle is unresolved, it fails the
      handle with [TimeoutError], and whatever [responseReceived] is given
      afterwards, the handle keeps that failure.
    - On a stream protocol [connectionLost] leaves the handle resolved: it
      fails it with the reason of the disconnect if it was unresolved.
    - On a datagram protocol with a per-request timeout, [createRequest]
      has scheduled the timeout of the msgid and recorded it under the
      msgid.  That delayed call stays in the reactor with its argument; if
      it runs while the handle is unresolved it fails the handle with
      [TimeoutError], and once it has run the handle carries an outcome. *)
Theorem C2_request_resolved_by_its_own_events {E : Env}
    (c : proto_class) (se : bool) (a : option Addr) (t : option N)
    (before after : list Event) (method : Value) (args : list Value)
    (d : nat) (s1 : State) :
  let p := run before {| unpacker := []; st := init_state c se a t |} in
  call_createRequest method args (st p) = Ok d s1 ->
  let msgid := next_msgid s1 in
  let q := run after (step (EvCreateRequest method args) p) in
  let timed_out := Failure (Exn TimeoutError [VStr "Request timed out"]) in
  (pending_at s1 d /\
   PyDict.get (KInt msgid) (outgoing_requests s1) = Some d) /\
  (pending_at (st q) d \/ exists o, fired_at (st q) d o) /\
  (forall o later, fired_at (st q) d o -> fired_at (st (run later q)) d o) /\
  (pending_at (st q) d ->
   PyDict.get (KInt msgid) (outgoing_requests (st q)) = Some d) /\
  (forall message,
     (forall msgType msgid' error result,
        unpack4 message = inr (msgType, msgid', error, result) ->
        key_of msgid' <> Some (KInt msgid)) ->
     nth_error (deferreds (state_of (responseReceived message (st q)))) d
     = nth_error (deferreds (st q)) d) /\
  (forall msgType msgid' error result,
     key_of msgid' = Some (KInt msgid) ->
     pending_at (st q) d ->
     cancellable (KInt msgid) (st q) ->
     exists s3,
       responseReceived (VList [msgType; msgid'; error; result]) (st q)
       = Ok tt s3 /\
       fired_at s3 d (response_outcome error result) /\
       PyDict.get (KInt msgid) (outgoing_requests s3) = None) /\
  (forall msgid',
     key_of msgid' <> Some (KInt msgid) ->
     nth_error (deferreds (state_of (timeoutRequest msgid' (st q)))) d
     = nth_error (deferreds (st q)) d) /\
  (forall msgid',
     key_of msgid' = Some (KInt msgid) ->
     pending_at (st q) d ->
     exists s3,
       timeoutRequest msgid' (st q) = Ok tt s3 /\
       fired_at s3 d timed_out /\
       forall message,
         fired_at (state_of (responseReceived message s3)) d timed_out) /\
  (c = Stream ->
   forall reason,
     exists s3,
       connectionLost reason (st q) = Ok tt s3 /\
       (pending_at (st q) d -> fired_at s3 d (Failure reason)) /\
       exists o, fired_at s3 d o) /\
  (c = Datagram ->
   forall delay, truthy t = Some delay ->
     let dc := List.length (reactor (st p)) in
     (PyDict.get (KInt msgid) (pendingTimeouts s1) = Some dc /\
      nth_error (reactor s1) dc
      = Some {| dc_state := Scheduled; dc_delay := delay;
                dc_arg := VInt msgid |}) /\
     exists call,
       nth_error (reactor (st q)) dc = Some call /\
       dc_arg call = VInt msgid /\
       (dc_state call = Called -> exists o, fired_at (st q) d o) /\
       (dc_state call = Scheduled -> pending_at (st q) d ->
        fired_at (state_of (runDelayedCall dc (st q))) d timed_out)).
Proof.
  intros p Hcall msgid q timed_out.
  set (p0 := {| unpacker := []; st := init_state c se a t |}) in *.
  destruct (call_createRequest_Ok method args (st p) Hcall) as [params Hcr].
  assert (Hm : handles_made (st p))
    by (apply handles_made_run; apply handles_made_init).
  destruct (createRequest_owns method params Hm Hcr) as (Hown1 & Hp1 & Hg1).
  assert (Hs1 : st (step (EvCreateRequest method args) p) = s1)
    by (rewrite step_createRequest, Hcall; reflexivity).
  assert (Hown : owns msgid d (st q)).
  { apply owns_run. rewrite Hs1. exact Hown1. }
  pose proof Hown as (Hlt & _ & Hentry & _).
  split; [now split|].
  split; [now apply pending_or_fired|].
  split; [intros o later Hf; now apply stable_run|].
  split; [exact Hentry|].
  split; [intros message Hother; now apply responseReceived_other with msgid|].
  split; [intros msgType msgid' error result Hk Hp Hc;
          now apply responseReceived_own|].
  split; [intros msgid' Hother; now apply timeoutRequest_other with msgid|].
  split.
  { intros msgid' Hk Hp.
    rewrite (timeoutRequest_own msgid' Hown Hk Hp).
    eexists. split; [reflexivity|].
    assert (Hf : fired_at (upd_deferreds (list_set d (Fired timed_out)) (st q))
                   d timed_out).
    { unfold fired_at. cbn [deferreds upd_deferreds].
      eapply nth_error_list_set_same. exact Hp. }
    split; [exact Hf|].
    intros message. now apply stable_responseReceived. }
  split.
  { intros -> reason.
    assert (Hinv : stream_inv (st q)).
    { apply stream_inv_run, stream_inv_step, stream_inv_run.
      apply stream_inv_init_state. }
    destruct Hinv as (_ & _ & Hpend & Hnd).
    destruct (connectionLost_fails_all_pending reason Hpend Hnd)
      as (s3 & Heq & _ & _ & _ & Hall & _).
    exists s3. split; [exact Heq|].
    assert (Hfail : pending_at (st q) d -> fired_at s3 d (Failure reason)).
    { intros Hp. apply (Hall (KInt msgid)). apply dict_get_In. now apply Hentry. }
    split; [exact Hfail|].
    destruct (pending_or_fired (st q) Hlt) as [Hp|[o Hf]]; [eauto|].
    exists o.
    assert (Hst : stable (st q) (state_of (connectionLost reason (st q))))
      by apply stable_connectionLost.
    rewrite Heq in Hst. now apply Hst. }
  intros -> delay Ht.
  destruct (same_config_run before p0) as [Hcls Htm].
  fold p in Hcls, Htm. cbn [p0 st init_state cls timeout] in Hcls, Htm.
  assert (Hcr' : createRequest method (VList args) (st p) = Ok d s1).
  { revert Hcall. unfold call_createRequest, dgram_createRequest, bind, gets.
    now rewrite Hcls. }
  assert (Ht' : truthy (timeout (st p)) = Some delay) by now rewrite Htm.
  destruct (@dgram_request_sent E (st p) s1 method (VList args) d delay
              Hcls Ht' Hcr') as (_ & _ & _ & Hpt & Hdc).
  split; [now split|].
  assert (Hto : timeout_of msgid d (List.length (reactor (st p))) (st q)).
  { apply timeout_of_run; rewrite Hs1; [exact Hown1|].
    eexists. split; [exact Hdc|]. split; [reflexivity|]. discriminate. }
  destruct Hto as (call & Hcall' & Harg & Hran).
  exists call. split; [exact Hcall'|]. split; [exact Harg|].
  split; [exact Hran|].
  intros Hst Hp.
  apply (@runDelayedCall_own msgid d _ call (st q) Hown Hcall' Hst); auto.
  now rewrite Harg.
Qed.

Lemma C2_request_resolved_witness :
  let p := run (E := Example.env) [EvStartProtocol]
             {| unpacker := [];
                st := init_state Datagram false (Some Example.peer_a) (Some 50%N) |} in
  let s1 := state_of (call_createRequest (E := Example.env)
                        (VStr "echo") [VStr "hi"] (st p)) in
  let q := run (E := Example.env) []
             (step (E := Example.env)
                (EvCreateRequest (VStr "echo") [VStr "hi"]) p) in
  let timed_out := Failure (Exn TimeoutError [VStr "Request timed out"]) in
  pending_at (st q) 0 /\
  PyDict.get (KInt 1) (outgoing_requests (st q)) = Some 0%nat /\
  (exists s3,
     responseReceived (VList [VInt MSGTYPE_RESPONSE; VInt 1; VNil; VStr "hi"])
       (st q) = Ok tt s3 /\
     fired_at s3 0 (Success (VStr "hi")) /\
     PyDict.get (KInt 1) (outgoing_requests s3) = None) /\
  (exists s3,
     timeoutRequest (VInt 1) (st q) = Ok tt s3 /\
     fired_at s3 0 timed_out /\
     forall message,
       fired_at (state_of (responseReceived message s3)) 0 timed_out) /\
  nth_error (reactor s1) (List.length (reactor (st p)))
  = Some {| dc_state := Scheduled; dc_delay := 50; dc_arg := VInt 1 |}.
Proof.
  cbv zeta.
  remember (state_of (call_createRequest (E := Example.env) (VStr "echo")
                        [VStr "hi"] _)) as s1 eqn:Hs1.
  match type of Hs1 with
  | _ = state_of (call_createRequest _ _ ?s) =>
      assert (Hcall : call_createRequest (E := Example.env)
                        (VStr "echo") [VStr "hi"] s = Ok 0%nat s1)
        by (rewrite Hs1; vm_compute; reflexivity)
  end.
  assert (Hn : next_msgid s1 = 1) by (rewrite Hs1; vm_compute; reflexivity).
  pose proof (@C2_request_resolved_by_its_own_events Example.env
                Datagram false (Some Example.peer_a) (Some 50%N)
                [EvStartProtocol] [] (VStr "echo") [VStr "hi"] 0%nat s1 Hcall)
    as H.
  cbv zeta in H. rewrite Hn in H.
  destruct H as (_ & _ & _ & Hentry & _ & Hresp & _ & Htime & _ & Hdgram).
  match type of Hentry with
  | ?P -> _ => assert (Hp : P) by (vm_compute; reflexivity)
  end.
  split; [exact Hp|]. split; [exact (Hentry Hp)|].
  split.
  { change (Success (VStr "hi")) with (response_outcome VNil (VStr "hi")).
    apply Hresp; [reflexivity|exact Hp|].
    right. vm_compute. eexists. split; reflexivity. }
  split; [apply Htime; [reflexivity|exact Hp]|].
  exact (proj2 (proj1 (Hdgram eq_refl 50%N eq_refl))).
Defined.

(** ** C3 *)

(** C3 (as the code behaves): when the delayed call of a request fires
    before a Response, [timeoutRequest] fails the handle with [TimeoutError]
    and leaves the table as it is: it reads the entry with [get] and never
    deletes it. *)
Theorem C3_timeout_keeps_entry (s : State) (msgid : Value)
    (k : Key) (d : nat) :
  key_of msgid = Some k ->
  PyDict.get k (outgoing_requests s) = Some d ->
  pending_at s d ->
  let s' := upd_deferreds
              (list_set d (Fired (Failure (Exn TimeoutError [VStr "Request timed out"])))) s in
  timeoutRequest msgid s = Ok tt s' /\
  fired_at s' d (Failure (Exn TimeoutError [VStr "Request timed out"])) /\
  PyDict.get k (outgoing_requests s') = Some d.
Proof.
  intros Hk Hg Hp. cbv zeta. repeat split.
  - unfold timeoutRequest, hash, bind at 1. rewrite Hk.
    unfold bind, ret, gets. rewrite Hg.
    unfold errback, fire. unfold pending_at in Hp. now rewrite Hp.
  - unfold fired_at. simpl. eapply nth_error_list_set_same; eauto.
  - exact Hg.
Qed.

Lemma C3_timeout_keeps_entry_witness :
  let s := st (run (E := Example.env)
                 [EvStartProtocol; EvCreateRequest (VStr "echo") [VStr "hi"]]
                 (datagram_protocol (Some Example.peer_a) false (Some 50%N))) in
  let s' := upd_deferreds
              (list_set 0 (Fired (Failure (Exn TimeoutError [VStr "Request timed out"])))) s in
  timeoutRequest (VInt 1) s = Ok tt s' /\
  fired_at s' 0 (Failure (Exn TimeoutError [VStr "Request timed out"])) /\
  PyDict.get (KInt 1) (outgoing_requests s') = Some 0%nat.
Proof.
  cbv zeta. apply C3_timeout_keeps_entry; reflexivity.
Defined.

(** The other half of C3, which the code does keep: a matching Response
    with no error that is processed while the delayed call of its request is
    still scheduled cancels that call, removes the entry and resolves the
    handle as a success; the reactor then never runs the call. *)
Lemma response_before_timeout_cancels (s : State)
    (msgType msgid result : Value) (k : Key) (d dc : nat) (c : DelayedCall) :
  cls s = Datagram ->
  key_of msgid = Some k ->
  PyDict.get k (pendingTimeouts s) = Some dc ->
  nth_error (reactor s) dc = Some c ->
  dc_state c = Scheduled ->
  PyDict.get k (outgoing_requests s) = Some d ->
  pending_at s d ->
  exists s',
    responseReceived (VList [msgType; msgid; VNil; result]) s = Ok tt s' /\
    fired_at s' d (Success result) /\
    PyDict.get k (outgoing_requests s') = None /\
    nth_error (reactor s') dc = Some (set_dc_state Cancelled c) /\
    runDelayedCall dc s' = Ok tt s'.
Proof.
  intros Hcls Hk Hpt Hdc Hst Hout Hp.
  assert (Heq : responseReceived (VList [msgType; msgid; VNil; result]) s
          = Ok tt (upd_deferreds (list_set d (Fired (Success result)))
                     (upd_outgoing (PyDict.remove k)
                        (upd_reactor (list_set dc (set_dc_state Cancelled c)) s)))).
  { unfold responseReceived, dgram_responseReceived, bind, gets.
    rewrite Hcls. simpl. unfold hash. rewrite Hk. unfold ret.
    rewrite Hpt. unfold dc_cancel. rewrite Hdc, Hst.
    unfold base_responseReceived. simpl. unfold pop_outgoing, hash, bind. rewrite Hk.
    unfold ret, gets. simpl. rewrite Hout. unfold modify. simpl.
    unfold callback, fire. simpl. unfold pending_at in Hp. rewrite Hp. reflexivity. }
  exists (upd_deferreds (list_set d (Fired (Success result)))
                     (upd_outgoing (PyDict.remove k)
                        (upd_reactor (list_set dc (set_dc_state Cancelled c)) s))).
  split; [exact Heq|]. simpl. repeat split.
  - unfold fired_at. simpl. eapply nth_error_list_set_same; eauto.
  - apply dict_get_remove.
  - eapply nth_error_list_set_same; eauto.
  - unfold runDelayedCall, bind, gets.
    set (s' := upd_deferreds _ _).
    assert (Hn : nth_error (reactor s') dc = Some (set_dc_state Cancelled c))
      by (simpl; eapply nth_error_list_set_same; eauto).
    rewrite Hn. reflexivity.
Qed.

(** ** C4 *)

(** C4 (as stated, refuted): the handle of a request pending at a clean
    disconnect fails with the reason itself, [ConnectionDone], and not with a
    [ConnectionError]. *)
Lemma C4_counterexample :
  let s := st (run (E := Example.env)
                 [EvConnectionMade; EvCreateRequest (VStr "echo") [VList [VStr "hi"]]]
                 (stream_protocol false)) in
  let reason := Exn ConnectionDone [VStr "Connection was closed cleanly."] in
  let s' := state_of (connectionLost reason s) in
  pending_at s 0 /\
  fired_at s' 0 (Failure reason) /\
  ~ exists args, fired_at s' 0 (Failure (Exn ConnectionError args)).
Proof.
  cbv zeta. split; [reflexivity|]. split; [reflexivity|].
  intros (args & H). vm_compute in H. discriminate.
Qed.

(** C4 (amended): at any point of the life of a stream protocol, the K
    handles of its outgoing table are pending, and [connectionLost(reason)]
    marks the protocol disconnected and unregistered, empties the table and
    fails each of the K handles with [reason] itself; no handle becomes a
    success. *)
Theorem C4_connectionLost_fails_every_pending_request {E : Env}
    (send_errors : bool) (tr : list Event) (reason : exn) :
  let s := st (run tr (stream_protocol send_errors)) in
  exists s',
    connectionLost reason s = Ok tt s' /\
    outgoing_requests s' = [] /\
    connected s' = false /\ registered s' = false /\
    (forall k d, In (k, d) (outgoing_requests s) ->
                 pending_at s d /\ fired_at s' d (Failure reason)) /\
    (forall d v, fired_at s' d (Success v) -> fired_at s d (Success v)).
Proof.
  cbv zeta.
  pose proof (stream_inv_run tr (stream_protocol send_errors)
                (stream_inv_init send_errors)) as (_ & _ & Hp & Hnd).
  destruct (connectionLost_fails_all_pending reason Hp Hnd)
    as (s' & H1 & H2 & H3 & H4 & H5 & H6).
  exists s'. repeat split; auto.
  - eapply Hp; eauto.
  - eapply H5; eauto.
Qed.

(** ** C5 *)

(** C5: along every run of a protocol object from its construction, the
    msgids handed out by [createRequest] are strictly increasing, hence
    pairwise distinct; the msgid a request is about to get is not a key of
    the outgoing table; and a request that is sent is registered under the
    counter's new value. *)
Theorem C5_msgids_pairwise_distinct {E : Env} (c : proto_class) (se : bool)
    (a : option Addr) (t : option N) (tr : list Event) :
  let p0 := {| unpacker := []; st := init_state c se a t |} in
  StronglySorted Z.lt (assigned_msgids tr p0) /\
  NoDup (assigned_msgids tr p0) /\
  (forall tr1 ev tr2 z,
      tr = (tr1 ++ ev :: tr2)%list ->
      In z (assigned_by ev (run tr1 p0)) ->
      PyDict.mem (KInt z) (outgoing_requests (st (run tr1 p0))) = false) /\
  (forall s method params d s',
      createRequest method params s = Ok d s' ->
      next_msgid s' = next_msgid s + 1 /\
      PyDict.get (KInt (next_msgid s + 1)) (outgoing_requests s') = Some d).
Proof.
  cbv zeta. split; [|split; [|split]].
  - apply assigned_msgids_sorted.
  - apply StronglySorted_lt_NoDup, assigned_msgids_sorted.
  - intros tr1 ev tr2 z _ Hin.
    apply assigned_by_next in Hin. destruct Hin as [-> _].
    apply keys_bounded_fresh, keys_bounded_run. simpl. apply keys_bounded_init.
  - intros s method params d s' H.
    pose proof (createRequest_spec method params s) as Hs. rewrite H in Hs.
    destruct Hs as (_ & _ & Hn & Ho & _). split; auto.
    rewrite Ho. apply dict_get_set.
Qed.

(** ** C6 *)

(** C6: a Request whose msgid is a key of the incoming table makes
    [requestReceived] raise [InvalidRequest] and leaves the whole state as it
    was: nothing is registered, no remote method is called, nothing is
    written, and the Deferred of the first request and its callbacks are
    untouched, so that its completion proceeds as if the duplicate had never
    arrived. *)
Theorem C6_duplicate_msgid_rejected {E : Env} (s : State)
    (message msgType msgid methodName params : Value)
    (context : option Context) (k : Key) :
  unpack4 message = inr (msgType, msgid, methodName, params) ->
  key_of msgid = Some k ->
  PyDict.mem k (incoming_requests s) = true ->
  requestReceived message context s =
    Raise (Exn InvalidRequest [VStr "Request with msgid '%s' already exists"; msgid]) s /\
  forall h o,
    handlerFired h o (state_of (requestReceived message context s)) = handlerFired h o s.
Proof.
  intros Hu Hk Hm.
  assert (H : requestReceived message context s =
              Raise (Exn InvalidRequest
                       [VStr "Request with msgid '%s' already exists"; msgid]) s).
  { unfold requestReceived, bind at 1, gets at 1. rewrite Hu.
    unfold hash, bind at 1. rewrite Hk.
    unfold ret, bind, gets. now rewrite Hm. }
  split; [exact H|]. intros h o. now rewrite H.
Qed.

Lemma C6_witness :
  let first := VList [VInt 0; VInt 7; VStr "later"; VList []] in
  let second := VList [VInt 0; VInt 7; VStr "echo"; VList []] in
  let s := state_of (requestReceived (E := Example.env) first None
                       (st (stream_protocol false))) in
  requestReceived (E := Example.env) second None s =
    Raise (Exn InvalidRequest [VStr "Request with msgid '%s' already exists"; VInt 7]) s /\
  forall h o,
    handlerFired (E := Example.env) h o
      (state_of (requestReceived (E := Example.env) second None s))
    = handlerFired (E := Example.env) h o s.
Proof.
  cbv zeta.
  apply (@C6_duplicate_msgid_rejected Example.env _ _
           (VInt 0) (VInt 7) (VStr "echo") (VList []) None (KInt 7));
    reflexivity.
Defined.

(** ** C7 *)

(** C7: a Request that is dispatched (its msgid is hashable and not in the
    incoming table, its context can be written to, and the packer accepts the
    error Responses to it).  [requestReceived] registers the entry before it
    attaches the callbacks: when the remote method has already returned or
    raised, the Response is routed with the context found in the entry, and
    once it is written the entry is gone; when the remote method returned a
    Deferred, the entry stays with that Deferred and nothing is written.
    When the Deferred fires, with a success or with a failure, exactly one
    Response is written and then the entry is removed; the Deferred cannot
    fire again, so the entry is removed once.  Whatever the result and
    whatever becomes of the writing, the callbacks end with the entry
    removed. *)
Theorem C7_entry_removed_after_the_response {E : Env} (msgid : Value) (k : Key) :
  key_of msgid = Some k ->
  error_responses_pack msgid ->
  (forall s message msgType methodName params context,
      unpack4 message = inr (msgType, msgid, methodName, params) ->
      PyDict.mem k (incoming_requests s) = false ->
      writable s context ->
      exists h s1,
        requestReceived message context s = Ok h s1 /\
        match nth_error (handler_calls s1) h with
        | Some {| hd_result := None; hd_callbacks := cbs |} =>
            cbs = request_chain msgid /\
            PyDict.get k (incoming_requests s1) = Some (h, context) /\
            transport s1 = transport s
        | Some {| hd_result := Some _; hd_callbacks := cbs |} =>
            cbs = [] /\
            PyDict.get k (incoming_requests s1) = None /\
            wrote_response msgid context s s1
        | None => False
        end) /\
  (forall s h context o,
      nth_error (handler_calls s) h
      = Some {| hd_result := None; hd_callbacks := request_chain msgid |} ->
      registered_at k s context ->
      exists s2,
        handlerFired h o s = Ok tt s2 /\
        wrote_response msgid context s s2 /\
        PyDict.get k (incoming_requests s2) = None /\
        forall o', handlerFired h o' s2 = Raise (Exn AlreadyCalledError []) s2) /\
  (forall s o,
      exists o' s',
        run_cbs (request_chain msgid) o s = Ok o' s' /\
        PyDict.get k (incoming_requests s') = None).
Proof.
  intros Hk Hpack. split; [|split].
  - intros. eapply requestReceived_dispatches; eauto.
  - intros. eapply handlerFired_answers; eauto.
  - intros. eapply request_chain_removes; eauto.
Qed.

Lemma C7_witness :
  let s := st (stream_protocol false) in
  (exists h s1,
      requestReceived (E := Example.env)
        (VList [VInt 0; VInt 7; VStr "echo"; VList [VStr "hi"]]) None s = Ok h s1 /\
      match nth_error (handler_calls s1) h with
      | Some {| hd_result := None; hd_callbacks := cbs |} =>
          cbs = request_chain (VInt 7) /\
          PyDict.get (KInt 7) (incoming_requests s1) = Some (h, None) /\
          transport s1 = transport s
      | Some {| hd_result := Some _; hd_callbacks := cbs |} =>
          cbs = [] /\
          PyDict.get (KInt 7) (incoming_requests s1) = None /\
          wrote_response (E := Example.env) (VInt 7) None s s1
      | None => False
      end) /\
  (let s' := state_of (requestReceived (E := Example.env)
                         (VList [VInt 0; VInt 7; VStr "later"; VList []]) None s) in
   exists s2,
     handlerFired (E := Example.env) 0 (Success (VStr "done")) s' = Ok tt s2 /\
     wrote_response (E := Example.env) (VInt 7) None s' s2 /\
     PyDict.get (KInt 7) (incoming_requests s2) = None /\
     forall o', handlerFired (E := Example.env) 0 o' s2
                = Raise (Exn AlreadyCalledError []) s2).
Proof.
  cbv zeta.
  pose proof (@C7_entry_removed_after_the_response Example.env (VInt 7) (KInt 7)
                eq_refl (@error_responses_pack_example 7 ltac:(lia))) as (Hd & Hc & _).
  split.
  - apply (Hd _ _ (VInt 0) (VStr "echo") (VList [VStr "hi"]) None);
      [reflexivity|reflexivity|left; reflexivity].
  - apply Hc; [reflexivity|].
    split; [exists 0%nat; reflexivity|left; reflexivity].
Defined.

(** ** C8 *)

(** C8 (as stated, refuted): a message with tag 3 does not raise
    [UndefinedMessage]. *)
Lemma C8_counterexample :
  ~ exists args s',
      messageReceived (E := Example.env) (VList [VInt 3]) None
        (st (stream_protocol false))
      = Raise (Exn UndefinedMessage args) s'.
Proof.
  intros (args & s' & H). vm_compute in H. discriminate.
Qed.

(** C8 (amended): a decoded message whose leading element equals none of
    0, 1 and 2 makes [messageReceived] raise [NotImplementedError] carrying
    that element, with the state unchanged. *)
Theorem C8_unknown_tag_raises {E : Env} (s : State) (message tag : Value)
    (context : option Context) :
  getitem message 0 s = Ok tag s ->
  py_eq_int tag MSGTYPE_REQUEST = false ->
  py_eq_int tag MSGTYPE_RESPONSE = false ->
  py_eq_int tag MSGTYPE_NOTIFICATION = false ->
  messageReceived message context s =
    Raise (Exn NotImplementedError
             [VStr "Msgpack received a message of type '%s', and no method has been specified to handle this.";
              tag]) s.
Proof.
  intros Hg H0 H1 H2.
  unfold messageReceived, bind. rewrite Hg, H0, H1, H2.
  unfold undefinedMessageReceived, bind. now rewrite Hg.
Qed.

Lemma C8_unknown_tag_witness :
  messageReceived (E := Example.env) (VList [VInt 3]) None
    (st (stream_protocol false))
  = Raise (Exn NotImplementedError
             [VStr "Msgpack received a message of type '%s', and no method has been specified to handle this.";
              VInt 3]) (st (stream_protocol false)).
Proof.
  apply (@C8_unknown_tag_raises Example.env); reflexivity.
Defined.

(** ** C9 *)

(** C9 (amended): the bytes of a sequence of messages whose handling raises
    no exception, delivered to a protocol with an empty buffer.  One
    delivery hands every message to [messageReceived], in order, and leaves
    the buffer empty; the same bytes cut anywhere into two deliveries end in
    the same state, the first delivery having kept the cut message in the
    buffer. *)
Theorem C9_split_delivery_same_messages {E : Env} {L : CodecLaws E}
    (ms : list Value) (bytes : list byte) (context : option Context)
    (p : Protocol) (s_end : State) :
  pack_all ms = Some bytes ->
  unpacker p = [] ->
  handle_all ms context (st p) = Some s_end ->
  rawDataReceived bytes context p = {| unpacker := []; st := s_end |} /\
  forall n,
    rawDataReceived (skipn n bytes) context
      (rawDataReceived (firstn n bytes) context p)
    = {| unpacker := []; st := s_end |}.
Proof.
  intros Hp Hu Hh. split.
  - unfold rawDataReceived. rewrite Hu. simpl app.
    rewrite <- (app_nil_r bytes) at 2.
    apply (unpacker_loop_complete context ms); auto using unpack1_nil.
    pose proof (pack_all_length ms Hp). lia.
  - intros n.
    destruct (pack_all_split ms n Hp)
      as (ms1 & ms2 & b1 & tail & -> & H1 & Hf & Ht & H2).
    rewrite handle_all_app in Hh.
    destruct (handle_all ms1 context (st p)) as [s_mid|] eqn:Hh1; [|discriminate].
    unfold rawDataReceived at 2. rewrite Hu. simpl app. rewrite Hf.
    rewrite (@unpacker_loop_complete E L context ms1 b1 tail (st p) s_mid _ H1 Ht Hh1).
    2:{ pose proof (pack_all_length ms1 H1). rewrite length_app. lia. }
    unfold rawDataReceived. simpl unpacker. simpl st.
    rewrite <- (app_nil_r (tail ++ skipn n bytes)) at 2.
    apply (unpacker_loop_complete context ms2); auto using unpack1_nil.
    pose proof (pack_all_length ms2 H2). lia.
Qed.

Lemma C9_witness :
  let ms := [VList [VInt 0; VInt 1; VStr "echo"; VList [VStr "hi"]];
             VList [VInt 2; VStr "log"; VList [VStr "x"]]] in
  let bytes := [x94; x00; x01; xa4; x65; x63; x68; x6f; x91; xa2; x68; x69;
                x93; x02; xa3; x6c; x6f; x67; x91; xa1; x78] in
  let p := stream_protocol false in
  let s_end := match handle_all (E := Example.env) ms None (st p) with
               | Some s => s
               | None => st p
               end in
  rawDataReceived (E := Example.env) bytes None p
  = {| unpacker := []; st := s_end |} /\
  forall n,
    rawDataReceived (E := Example.env) (skipn n bytes) None
      (rawDataReceived (E := Example.env) (firstn n bytes) None p)
    = {| unpacker := []; st := s_end |}.
Proof.
  cbv zeta.
  apply (@C9_split_delivery_same_messages Example.env msgpack_codec_laws
           [VList [VInt 0; VInt 1; VStr "echo"; VList [VStr "hi"]];
            VList [VInt 2; VStr "log"; VList [VStr "x"]]]);
    vm_compute; reflexivity.
Defined.

(** C9 (as stated, refuted): three well-formed Requests in one blob, the
    second reusing the msgid of the first, whose remote method has not
    completed.  In one delivery the rejection of the second ends the loop:
    the third Request is never handed over and stays in the buffer.  Cut
    after the second message, the second delivery hands the third over. *)
Lemma C9_counterexample :
  let ms := [VList [VInt 0; VInt 7; VStr "later"; VList []];
             VList [VInt 0; VInt 7; VStr "later"; VList []];
             VList [VInt 0; VInt 8; VStr "echo"; VList []]] in
  let bytes := [x94; x00; x07; xa5; x6c; x61; x74; x65; x72; x90;
                x94; x00; x07; xa5; x6c; x61; x74; x65; x72; x90;
                x94; x00; x08; xa4; x65; x63; x68; x6f; x90] in
  let p := stream_protocol false in
  let one := rawDataReceived (E := Example.env) bytes None p in
  let two := rawDataReceived (E := Example.env) (skipn 20 bytes) None
               (rawDataReceived (E := Example.env) (firstn 20 bytes) None p) in
  pack_all (E := Example.env) ms = Some bytes /\
  app_calls (st one) = [(VStr "later", VList [], None)] /\
  unpacker one = [x94; x00; x08; xa4; x65; x63; x68; x6f; x90] /\
  app_calls (st two) = [(VStr "later", VList [], None); (VStr "echo", VList [], None)] /\
  unpacker two = [] /\
  one <> two.
Proof.
  cbv zeta. repeat split; try (vm_compute; reflexivity).
  intros H. apply (f_equal unpacker) in H. vm_compute in H. discriminate.
Qed.
(** ** C10 *)

(** C10: on a datagram protocol whose timeout is set, every message that
    goes through [writeMessage], whatever its type, appends one delayed call
    for [timeoutRequest(message[1])] and records it in the map of pending
    timeouts under [message[1]]; for a notification that key is the method
    name.  Neither the cancelling of such a call by [responseReceived] nor
    its firing removes anything from the map. *)
Theorem C10_every_written_message_schedules_a_timeout {E : Env} (s : State)
    (delay : N) :
  cls s = Datagram ->
  truthy (timeout s) = Some delay ->
  (forall message context msgid k,
      nth_error message 1 = Some msgid ->
      key_of msgid = Some k ->
      let s' := state_of (writeMessage message context s) in
      reactor s' = (reactor s ++ [{| dc_state := Scheduled; dc_delay := delay;
                                     dc_arg := msgid |}])%list /\
      PyDict.get k (pendingTimeouts s') = Some (List.length (reactor s))) /\
  (forall method params k,
      connected s = true ->
      key_of method = Some k ->
      let s' := state_of (createNotification method params s) in
      reactor s' = (reactor s ++ [{| dc_state := Scheduled; dc_delay := delay;
                                     dc_arg := method |}])%list /\
      PyDict.get k (pendingTimeouts s') = Some (List.length (reactor s))) /\
  (forall message,
      pendingTimeouts (state_of (responseReceived message s)) = pendingTimeouts s) /\
  (forall dc,
      pendingTimeouts (state_of (runDelayedCall dc s)) = pendingTimeouts s).
Proof.
  intros Hcls Ht. split; [|split; [|split]].
  - intros message context msgid k Hn Hk.
    unfold writeMessage, bind, gets. rewrite Hcls.
    eapply dgram_writeMessage_schedules; eauto.
  - intros method params k Hc Hk.
    assert (Heq : createNotification method params s
                  = dgram_writeMessage
                      [VInt MSGTYPE_NOTIFICATION; method;
                       match params with VList _ => params | _ => VList [params] end]
                      (Some {| peer := conn_address s |}) s).
    { unfold createNotification, isConnected, bind, gets. rewrite Hc. simpl.
      unfold getClientContext, dgram_getClientContext, bind, gets, ret.
      rewrite Hcls. unfold writeMessage, bind, gets. now rewrite Hcls. }
    rewrite Heq. eapply dgram_writeMessage_schedules; eauto.
  - intros message. generalize s.
    change (steps same_pendingTimeouts (responseReceived message)).
    apply steps_responseReceived;
      unfold same_pendingTimeouts; first [now intros | intros; congruence].
  - intros dc. generalize s.
    change (steps same_pendingTimeouts (runDelayedCall dc)).
    apply steps_runDelayedCall;
      unfold same_pendingTimeouts; first [now intros | intros; congruence].
Qed.

Lemma C10_witness :
  let s := st (step (E := Example.env) EvStartProtocol
                 (datagram_protocol (Some Example.peer_a) false (Some 50%N))) in
  let s' := state_of (createNotification (E := Example.env) (VStr "log") (VStr "x") s) in
  reactor s' = [{| dc_state := Scheduled; dc_delay := 50; dc_arg := VStr "log" |}] /\
  PyDict.get (KStr "log") (pendingTimeouts s') = Some 0%nat.
Proof.
  cbv zeta.
  apply (proj1 (proj2 (@C10_every_written_message_schedules_a_timeout
                         Example.env
                         (st (step (E := Example.env) EvStartProtocol
                                (datagram_protocol (Some Example.peer_a) false
                                   (Some 50%N))))
                         50%N eq_refl eq_refl))
           (VStr "log") (VStr "x") (KStr "log") eq_refl eq_refl).
Defined.

(** * Further properties *)

(** ** Requests and their Responses *)

(** X1: [createRequest] on a connected protocol, when the packer accepts
    the Request.  It takes the next msgid, writes one message
    [(0, msgid, method, params)] to the peer of the client context, makes
    one new pending Deferred, registers it under the msgid and returns it;
    the other entries of the table stay as they are. *)
Theorem X1_createRequest_sends_and_registers {E : Env} (s : State)
    (method params : Value) (b : list byte) :
  connected s = true ->
  pack (VList [VInt MSGTYPE_REQUEST; VInt (next_msgid s + 1); method; params]) = inr b ->
  exists s1,
    createRequest method params s = Ok (List.length (deferreds s)) s1 /\
    next_msgid s1 = next_msgid s + 1 /\
    transport s1 = (transport s ++ [(b, route s (client_context s))])%list /\
    deferreds s1 = (deferreds s ++ [Pending])%list /\
    PyDict.get (KInt (next_msgid s + 1)) (outgoing_requests s1)
    = Some (List.length (deferreds s)) /\
    (forall k, k <> KInt (next_msgid s + 1) ->
       PyDict.get k (outgoing_requests s1) = PyDict.get k (outgoing_requests s)).
Proof.
  intros Hc Hp.
  rewrite (@createRequest_connected E s method params Hc).
  set (s_a := upd_next_msgid (fun n => n + 1) s).
  assert (Hw : writable s_a (client_context s)).
  { unfold writable, client_context. change (cls s_a) with (cls s).
    destruct (cls s); [now left|right; discriminate]. }
  destruct (@writeMessage_sends E s_a
              [VInt MSGTYPE_REQUEST; VInt (next_msgid s + 1); method; params]
              (client_context s)
              (VInt (next_msgid s + 1)) (KInt (next_msgid s + 1)) b
              eq_refl eq_refl Hw Hp)
    as (s3 & Heq & Ht & _ & _ & Ho & Hn & Hd & _).
  rewrite Heq. eexists. split; [now rewrite Hd|].
  cbn [next_msgid transport deferreds outgoing_requests upd_outgoing upd_deferreds].
  rewrite Hn, Ht, Hd, Ho. repeat split; auto.
  - apply dict_get_set.
  - intros k Hk. now apply dict_get_set_other.
Qed.

Lemma X1_witness :
  let s := st (step (E := Example.env) EvConnectionMade (stream_protocol false)) in
  exists s1,
    createRequest (E := Example.env) (VStr "echo") (VList [VStr "hi"]) s = Ok 0%nat s1 /\
    next_msgid s1 = 1 /\
    transport s1 = [([x94; x00; x01; xa4; x65; x63; x68; x6f; x91; xa2; x68; x69], None)] /\
    deferreds s1 = [Pending] /\
    PyDict.get (KInt 1) (outgoing_requests s1) = Some 0%nat /\
    (forall k, k <> KInt 1 ->
       PyDict.get k (outgoing_requests s1) = PyDict.get k (outgoing_requests s)).
Proof.
  cbv zeta.
  apply (@X1_createRequest_sends_and_registers Example.env
           (st (step (E := Example.env) EvConnectionMade (stream_protocol false)))
           (VStr "echo") (VList [VStr "hi"])
           [x94; x00; x01; xa4; x65; x63; x68; x6f; x91; xa2; x68; x69]);
    vm_compute; reflexivity.
Defined.

(** X2: the Response that carries the msgid of a request [createRequest]
    has sent, on a stream protocol or on a datagram protocol that holds no
    delayed call for that msgid (it has no timeout).  It resolves the handle
    [createRequest] returned, as a failure [ResponseError(error)] when its
    error field is not [None] and as a success with its result otherwise,
    and removes the entry; the other handles and the other entries stay as
    they are. *)
Theorem X2_response_resolves_the_request {E : Env} (s s1 : State)
    (method params error result : Value) (d : nat) (context : option Context) :
  createRequest method params s = Ok d s1 ->
  let msgid := next_msgid s1 in
  cls s = Stream \/ PyDict.get (KInt msgid) (pendingTimeouts s1) = None ->
  exists s2,
    messageReceived (VList [VInt MSGTYPE_RESPONSE; VInt msgid; error; result])
      context s1 = Ok tt s2 /\
    fired_at s2 d (if is_not_None error
                   then Failure (Exn ResponseError [error])
                   else Success result) /\
    PyDict.get (KInt msgid) (outgoing_requests s2) = None /\
    (forall d', d' <> d -> nth_error (deferreds s2) d' = nth_error (deferreds s1) d') /\
    (forall k, k <> KInt msgid ->
       PyDict.get k (outgoing_requests s2) = PyDict.get k (outgoing_requests s1)).
Proof.
  intros H. cbv zeta. intros Hcls.
  pose proof (createRequest_spec method params s) as Hs. rewrite H in Hs.
  destruct Hs as (_ & Hd & Hn & Ho & Hds & Hc).
  assert (Hg : PyDict.get (KInt (next_msgid s1)) (outgoing_requests s1) = Some d)
    by (rewrite Ho, Hn; apply dict_get_set).
  assert (Hp : pending_at s1 d)
    by (unfold pending_at; rewrite Hds, Hd; apply nth_error_snoc).
  rewrite messageReceived_response.
  assert (Hbase : responseReceived
                    (VList [VInt MSGTYPE_RESPONSE; VInt (next_msgid s1); error; result]) s1
                  = base_responseReceived
                      (VList [VInt MSGTYPE_RESPONSE; VInt (next_msgid s1); error; result]) s1).
  { unfold responseReceived, bind, gets. rewrite Hc.
    destruct (cls s); [reflexivity|].
    destruct Hcls as [Hcls|Hpt]; [discriminate|].
    unfold dgram_responseReceived, bind, gets. cbn [getitem nth_error].
    unfold ret at 1. unfold hash. cbn [key_of]. unfold ret. now rewrite Hpt. }
  rewrite Hbase.
  rewrite (@base_responseReceived_matched s1 (VInt MSGTYPE_RESPONSE)
             (VInt (next_msgid s1)) error result _ d eq_refl Hg Hp).
  eexists. split; [reflexivity|].
  cbn [deferreds outgoing_requests upd_deferreds upd_outgoing].
  repeat split.
  - unfold fired_at. cbn [deferreds upd_deferreds upd_outgoing].
    eapply nth_error_list_set_same. exact Hp.
  - apply dict_get_remove.
  - intros d' Hne. apply nth_error_list_set_other. congruence.
  - intros k Hne. now apply dict_get_remove_other.
Qed.

Lemma X2_witness :
  let s := st (step (E := Example.env) EvConnectionMade (stream_protocol false)) in
  let s1 := state_of (createRequest (E := Example.env) (VStr "echo") (VList [VStr "hi"]) s) in
  exists s2,
    messageReceived (E := Example.env)
      (VList [VInt MSGTYPE_RESPONSE; VInt 1; VNil; VStr "hi"]) None s1 = Ok tt s2 /\
    fired_at s2 0 (Success (VStr "hi")) /\
    PyDict.get (KInt 1) (outgoing_requests s2) = None /\
    (forall d', d' <> 0%nat -> nth_error (deferreds s2) d' = nth_error (deferreds s1) d') /\
    (forall k, k <> KInt 1 ->
       PyDict.get k (outgoing_requests s2) = PyDict.get k (outgoing_requests s1)).
Proof.
  cbv zeta.
  apply (@X2_response_resolves_the_request Example.env
           (st (step (E := Example.env) EvConnectionMade (stream_protocol false)))
           (state_of (createRequest (E := Example.env) (VStr "echo") (VList [VStr "hi"])
                        (st (step (E := Example.env) EvConnectionMade
                               (stream_protocol false)))))
           (VStr "echo") (VList [VStr "hi"]) VNil (VStr "hi") 0%nat None);
    [vm_compute; reflexivity|left; reflexivity].
Defined.

(** X3: a Response in time, on a datagram protocol.  The Response carries
    the msgid of a request that is still pending, and the map of pending
    timeouts holds under that msgid a delayed call that is still scheduled,
    as in the state [createRequest] returns on a protocol with a
    per-request timeout ([dgram_request_sent]).  The Response cancels the
    delayed call the map holds, resolves
    the handle (a failure [ResponseError(error)] when the error field is not
    [None], a success with the result otherwise) and removes the entry of
    the request; the other delayed calls and the map of pending timeouts
    stay as they are, and when the reactor later reaches the cancelled call
    nothing happens. *)
Theorem X3_response_in_time_cancels_the_timeout {E : Env} (s1 : State)
    (msgid error result : Value) (k : Key) (d dc : nat) (c : DelayedCall)
    (context : option Context) :
  cls s1 = Datagram ->
  key_of msgid = Some k ->
  PyDict.get k (outgoing_requests s1) = Some d ->
  pending_at s1 d ->
  PyDict.get k (pendingTimeouts s1) = Some dc ->
  nth_error (reactor s1) dc = Some c ->
  dc_state c = Scheduled ->
  exists s2,
    messageReceived (VList [VInt MSGTYPE_RESPONSE; msgid; error; result])
      context s1 = Ok tt s2 /\
    fired_at s2 d (if is_not_None error
                   then Failure (Exn ResponseError [error])
                   else Success result) /\
    PyDict.get k (outgoing_requests s2) = None /\
    nth_error (reactor s2) dc = Some (set_dc_state Cancelled c) /\
    (forall dc', dc' <> dc -> nth_error (reactor s2) dc' = nth_error (reactor s1) dc') /\
    pendingTimeouts s2 = pendingTimeouts s1 /\
    runDelayedCall dc s2 = Ok tt s2.
Proof.
  intros Hcls Hk Hg Hp Hpt Hdc Hst.
  rewrite (@response_in_time E s1 msgid error result k d dc c
             context Hcls Hk Hg Hp Hpt Hdc Hst).
  eexists. split; [reflexivity|].
  assert (Hc2 : forall f g,
            nth_error (reactor (upd_deferreds f (upd_outgoing g
                         (upd_reactor (list_set dc (set_dc_state Cancelled c)) s1))))
              dc
            = Some (set_dc_state Cancelled c)).
  { intros f g. cbn [reactor upd_deferreds upd_outgoing upd_reactor].
    eapply nth_error_list_set_same. exact Hdc. }
  split; [|split; [|split; [|split; [|split]]]].
  - unfold fired_at. cbn [deferreds upd_deferreds upd_outgoing upd_reactor].
    eapply nth_error_list_set_same. exact Hp.
  - cbn [outgoing_requests upd_deferreds upd_outgoing upd_reactor].
    apply dict_get_remove.
  - apply Hc2.
  - intros dc' Hne. cbn [reactor upd_deferreds upd_outgoing upd_reactor].
    apply nth_error_list_set_other. congruence.
  - reflexivity.
  - unfold runDelayedCall, bind, gets. rewrite Hc2. reflexivity.
Qed.

Lemma X3_witness :
  let s := st (step (E := Example.env) EvStartProtocol
                 (datagram_protocol (Some Example.peer_a) false (Some 50%N))) in
  let s1 := state_of (createRequest (E := Example.env) (VStr "echo") (VList [VStr "hi"]) s) in
  exists s2,
    messageReceived (E := Example.env)
      (VList [VInt MSGTYPE_RESPONSE; VInt 1; VNil; VStr "hi"]) None s1 = Ok tt s2 /\
    fired_at s2 0 (Success (VStr "hi")) /\
    PyDict.get (KInt 1) (outgoing_requests s2) = None /\
    nth_error (reactor s2) 0
    = Some {| dc_state := Cancelled; dc_delay := 50; dc_arg := VInt 1 |} /\
    (forall dc', dc' <> 0%nat -> nth_error (reactor s2) dc' = nth_error (reactor s1) dc') /\
    pendingTimeouts s2 = pendingTimeouts s1 /\
    runDelayedCall 0 s2 = Ok tt s2.
Proof.
  cbv zeta.
  apply (@X3_response_in_time_cancels_the_timeout Example.env
           (state_of (createRequest (E := Example.env) (VStr "echo") (VList [VStr "hi"])
                        (st (step (E := Example.env) EvStartProtocol
                               (datagram_protocol (Some Example.peer_a) false
                                  (Some 50%N))))))
           (VInt 1) VNil (VStr "hi") (KInt 1) 0%nat 0%nat
           {| dc_state := Scheduled; dc_delay := 50; dc_arg := VInt 1 |} None);
    vm_compute; reflexivity.
Defined.

(** X4: a Response after the timeout, on a datagram protocol.  A request
    is still pending and the map of pending timeouts holds under its msgid
    a delayed call, still scheduled, whose argument is that msgid (as in the
    state [createRequest] returns on a protocol with a per-request
    timeout).  When
    that delayed call runs, the handle fails with [TimeoutError]; a Response
    with that msgid handled in the state the timeout left is refused:
    [responseReceived] finds the delayed call under the msgid, its
    [cancel()] raises [AlreadyCalled], and nothing changes. *)
Theorem X4_response_after_the_timeout_is_refused {E : Env} (s1 : State)
    (msgid : Value) (k : Key) (d dc : nat) (c : DelayedCall) :
  cls s1 = Datagram ->
  key_of msgid = Some k ->
  PyDict.get k (outgoing_requests s1) = Some d ->
  pending_at s1 d ->
  PyDict.get k (pendingTimeouts s1) = Some dc ->
  nth_error (reactor s1) dc = Some c ->
  dc_state c = Scheduled ->
  key_of (dc_arg c) = Some k ->
  exists s2,
    runDelayedCall dc s1 = Ok tt s2 /\
    fired_at s2 d (Failure (Exn TimeoutError [VStr "Request timed out"])) /\
    forall error result context,
      messageReceived (VList [VInt MSGTYPE_RESPONSE; msgid; error; result])
        context s2
      = Raise (Exn AlreadyCalled []) s2.
Proof.
  intros Hcls Hk Hg Hp Hpt Hdc Hst Harg.
  set (s2 := upd_deferreds
               (list_set d (Fired (Failure (Exn TimeoutError [VStr "Request timed out"]))))
               (upd_reactor (list_set dc (set_dc_state Called c)) s1)).
  exists s2. split; [|split].
  - unfold runDelayedCall, bind, gets. rewrite Hdc, Hst.
    unfold modify.
    unfold timeoutRequest, hash, bind. rewrite Harg. unfold ret, gets.
    cbn [outgoing_requests upd_reactor]. rewrite Hg.
    unfold errback, fire. cbn [deferreds upd_reactor].
    unfold pending_at in Hp. now rewrite Hp.
  - unfold fired_at, s2. cbn [deferreds upd_deferreds upd_reactor].
    eapply nth_error_list_set_same. exact Hp.
  - intros error result context.
    rewrite messageReceived_response.
    assert (Hdc2 : nth_error (reactor s2) dc = Some (set_dc_state Called c)).
    { unfold s2. cbn [reactor upd_deferreds upd_reactor].
      eapply nth_error_list_set_same. exact Hdc. }
    now rewrite (@dgram_responseReceived_cancels s2 (VInt MSGTYPE_RESPONSE)
                   msgid error result k dc _ Hcls Hk Hpt Hdc2).
Qed.

Lemma X4_witness :
  let s := st (step (E := Example.env) EvStartProtocol
                 (datagram_protocol (Some Example.peer_a) false (Some 50%N))) in
  let s1 := state_of (createRequest (E := Example.env) (VStr "echo") (VList [VStr "hi"]) s) in
  exists s2,
    runDelayedCall 0 s1 = Ok tt s2 /\
    fired_at s2 0 (Failure (Exn TimeoutError [VStr "Request timed out"])) /\
    forall error result context,
      messageReceived (E := Example.env)
        (VList [VInt MSGTYPE_RESPONSE; VInt 1; error; result]) context s2
      = Raise (Exn AlreadyCalled []) s2.
Proof.
  cbv zeta.
  apply (@X4_response_after_the_timeout_is_refused Example.env
           (state_of (createRequest (E := Example.env) (VStr "echo") (VList [VStr "hi"])
                        (st (step (E := Example.env) EvStartProtocol
                               (datagram_protocol (Some Example.peer_a) false
                                  (Some 50%N))))))
           (VInt 1) (KInt 1) 0%nat 0%nat
           {| dc_state := Scheduled; dc_delay := 50; dc_arg := VInt 1 |});
    vm_compute; reflexivity.
Defined.

(** X5: a second Response, on a datagram protocol.  A Response in time has
    been handled as in X3: the request was pending and the map of pending
    timeouts held under its msgid a delayed call that was still scheduled.
    A Response with the same msgid handled next, in the state the first one
    left, is refused: the map of pending timeouts still holds the cancelled
    call, its [cancel()] raises [AlreadyCancelled], and nothing changes, so
    that the outcome of the first Response stands. *)
Theorem X5_second_response_is_refused {E : Env} (s1 : State)
    (msgid error result : Value) (k : Key) (d dc : nat) (c : DelayedCall)
    (context : option Context) :
  cls s1 = Datagram ->
  key_of msgid = Some k ->
  PyDict.get k (outgoing_requests s1) = Some d ->
  pending_at s1 d ->
  PyDict.get k (pendingTimeouts s1) = Some dc ->
  nth_error (reactor s1) dc = Some c ->
  dc_state c = Scheduled ->
  let s2 := state_of (messageReceived
                        (VList [VInt MSGTYPE_RESPONSE; msgid; error; result])
                        context s1) in
  fired_at s2 d (if is_not_None error
                 then Failure (Exn ResponseError [error])
                 else Success result) /\
  forall error' result' context',
    messageReceived (VList [VInt MSGTYPE_RESPONSE; msgid; error'; result'])
      context' s2
    = Raise (Exn AlreadyCancelled []) s2.
Proof.
  intros Hcls Hk Hg Hp Hpt Hdc Hst. cbv zeta.
  rewrite (@response_in_time E s1 msgid error result k d dc c
             context Hcls Hk Hg Hp Hpt Hdc Hst).
  cbn [state_of]. split.
  { unfold fired_at. cbn [deferreds upd_deferreds upd_outgoing upd_reactor].
    eapply nth_error_list_set_same. exact Hp. }
  intros error' result' context'.
  rewrite messageReceived_response.
  match goal with |- responseReceived _ ?s2 = _ => set (s2' := s2) end.
  assert (Hdc2 : nth_error (reactor s2') dc = Some (set_dc_state Cancelled c)).
  { unfold s2'. cbn [reactor upd_deferreds upd_outgoing upd_reactor].
    eapply nth_error_list_set_same. exact Hdc. }
  now rewrite (@dgram_responseReceived_cancels s2' (VInt MSGTYPE_RESPONSE)
                 msgid error' result' k dc _ Hcls Hk Hpt Hdc2).
Qed.

Lemma X5_witness :
  let s := st (step (E := Example.env) EvStartProtocol
                 (datagram_protocol (Some Example.peer_a) false (Some 50%N))) in
  let s1 := state_of (createRequest (E := Example.env) (VStr "echo") (VList [VStr "hi"]) s) in
  let s2 := state_of (messageReceived (E := Example.env)
                        (VList [VInt MSGTYPE_RESPONSE; VInt 1; VNil; VStr "hi"]) None s1) in
  fired_at s2 0 (Success (VStr "hi")) /\
  forall error' result' context',
    messageReceived (E := Example.env)
      (VList [VInt MSGTYPE_RESPONSE; VInt 1; error'; result']) context' s2
    = Raise (Exn AlreadyCancelled []) s2.
Proof.
  cbv zeta.
  apply (@X5_second_response_is_refused Example.env
           (state_of (createRequest (E := Example.env) (VStr "echo") (VList [VStr "hi"])
                        (st (step (E := Example.env) EvStartProtocol
                               (datagram_protocol (Some Example.peer_a) false
                                  (Some 50%N))))))
           (VInt 1) VNil (VStr "hi") (KInt 1) 0%nat 0%nat
           {| dc_state := Scheduled; dc_delay := 50; dc_arg := VInt 1 |} None);
    vm_compute; reflexivity.
Defined.

(** X6: [createRequest] on a connected protocol, when the packer refuses
    the Request.  [createRequest] raises what [writeMessage] raises: the
    packer's own exception when [sendErrors] is set, and otherwise the
    [TypeError] of the formatting of the text of the [SerializationError],
    the message being a tuple of four items; no [SerializationError] is
    raised.  Nothing is written, no Deferred is made and the table is
    unchanged, but the msgid is spent: the counter has advanced. *)
Theorem X6_refused_request_spends_its_msgid {E : Env} (s : State)
    (method params : Value) (e : exn) :
  connected s = true ->
  pack (VList [VInt MSGTYPE_REQUEST; VInt (next_msgid s + 1); method; params]) = inl e ->
  exists s1,
    createRequest method params s
    = Raise (if sendErrors s then e
             else Exn TypeError
                    [VStr "not all arguments converted during string formatting"]) s1 /\
    next_msgid s1 = next_msgid s + 1 /\
    transport s1 = transport s /\
    deferreds s1 = deferreds s /\
    outgoing_requests s1 = outgoing_requests s.
Proof.
  intros Hc Hp.
  rewrite (@createRequest_connected E s method params Hc).
  set (s_a := upd_next_msgid (fun n => n + 1) s).
  destruct (@writeMessage_refused E s_a
              [VInt MSGTYPE_REQUEST; VInt (next_msgid s + 1); method; params]
              (client_context s)
              (VInt (next_msgid s + 1)) (KInt (next_msgid s + 1)) e
              eq_refl eq_refl Hp)
    as (s3 & Heq & Ht & _ & _ & Ho & Hn & Hd & _).
  rewrite Heq. exists s3. repeat split; auto.
Qed.

Lemma X6_witness :
  let s := st (step (E := Example.env) EvConnectionMade (stream_protocol false)) in
  exists s1,
    createRequest (E := Example.env) (VStr "echo") (VInt 18446744073709551616) s
    = Raise (Exn TypeError
               [VStr "not all arguments converted during string formatting"]) s1 /\
    next_msgid s1 = 1 /\
    transport s1 = transport s /\
    deferreds s1 = deferreds s /\
    outgoing_requests s1 = outgoing_requests s.
Proof.
  cbv zeta.
  apply (@X6_refused_request_spends_its_msgid Example.env
           (st (step (E := Example.env) EvConnectionMade (stream_protocol false)))
           (VStr "echo") (VInt 18446744073709551616) Msgpack.out_of_fragment);
    vm_compute; reflexivity.
Defined.

(** X7: [createNotification] on a connected protocol, for a method name
    that can be hashed and a message the packer accepts.  Parameters that
    are not a list or a tuple are put into a tuple of one; one message
    [(2, method, params)] is written to the peer of the client context; no
    msgid is taken, no Deferred is made and nothing is registered. *)
Theorem X7_createNotification_sends_one_message {E : Env} (s : State)
    (method params : Value) (k : Key) (b : list byte) :
  connected s = true ->
  key_of method = Some k ->
  pack (VList [VInt MSGTYPE_NOTIFICATION; method; notification_params params]) = inr b ->
  exists s1,
    createNotification method params s = Ok tt s1 /\
    transport s1 = (transport s ++ [(b, route s (client_context s))])%list /\
    next_msgid s1 = next_msgid s /\
    deferreds s1 = deferreds s /\
    outgoing_requests s1 = outgoing_requests s.
Proof.
  intros Hc Hk Hp.
  assert (Heq : createNotification method params s
                = writeMessage
                    [VInt MSGTYPE_NOTIFICATION; method; notification_params params]
                    (client_context s) s).
  { unfold createNotification, isConnected, bind at 1, gets at 1. rewrite Hc.
    cbn [negb]. unfold getClientContext, client_context, bind, gets.
    destruct (cls s); reflexivity. }
  assert (Hw : writable s (client_context s)).
  { unfold writable, client_context.
    destruct (cls s); [now left|right; discriminate]. }
  destruct (@writeMessage_sends E s
              [VInt MSGTYPE_NOTIFICATION; method; notification_params params]
              (client_context s) method k b eq_refl Hk Hw Hp)
    as (s1 & Hwm & Ht & _ & _ & Ho & Hn & Hd & _).
  exists s1. rewrite Heq. auto.
Qed.

Lemma X7_witness :
  let s := st (step (E := Example.env) EvStartProtocol
                 (datagram_protocol (Some Example.peer_a) false None)) in
  exists s1,
    createNotification (E := Example.env) (VStr "log") (VStr "x") s = Ok tt s1 /\
    transport s1 = [([x93; x02; xa3; x6c; x6f; x67; x91; xa1; x78], Some Example.peer_a)] /\
    next_msgid s1 = next_msgid s /\
    deferreds s1 = deferreds s /\
    outgoing_requests s1 = outgoing_requests s.
Proof.
  cbv zeta.
  apply (@X7_createNotification_sends_one_message Example.env
           (st (step (E := Example.env) EvStartProtocol
                  (datagram_protocol (Some Example.peer_a) false None)))
           (VStr "log") (VStr "x") (KStr "log")
           [x93; x02; xa3; x6c; x6f; x67; x91; xa1; x78]);
    vm_compute; reflexivity.
Defined.

(** ** Disconnected protocols *)

Section Connected.
Context {E : Env}.

Lemma same_connected_refl s : same_connected s s.
Proof. reflexivity. Qed.

Lemma same_connected_trans a b c :
  same_connected a b -> same_connected b c -> same_connected a c.
Proof. unfold same_connected; congruence. Qed.

Lemma same_connected_callbackOutgoingRequests e :
  steps same_connected (callbackOutgoingRequests (fun d => errback d e)).
Proof.
  apply steps_callbackOutgoingRequests;
    first [ exact same_connected_refl | exact same_connected_trans
          | intros; reflexivity ].
Qed.

Lemma not_connected_refuses s method params :
  connected s = false ->
  createRequest method params s = Raise (Exn ConnectionError [VStr "Not connected"]) s /\
  createNotification method params s = Raise (Exn ConnectionError [VStr "Not connected"]) s.
Proof.
  intros Hc. unfold createRequest, createNotification, isConnected, bind, gets.
  now rewrite Hc.
Qed.

End Connected.

(** X8: once [connectionLost] has run on a stream protocol, however it
    ended, or [closeConnection] on a datagram protocol, [createRequest] and
    [createNotification] raise [ConnectionError("Not connected")] and leave
    the protocol as it is: no msgid is taken and nothing is written. *)
Theorem X8_no_requests_once_disconnected {E : Env} (s : State)
    (reason : exn) (method params : Value) :
  let not_connected := Exn ConnectionError [VStr "Not connected"] in
  (let s' := state_of (connectionLost reason s) in
   createRequest method params s' = Raise not_connected s' /\
   createNotification method params s' = Raise not_connected s') /\
  (let s' := state_of (dgram_closeConnection s) in
   createRequest method params s' = Raise not_connected s' /\
   createNotification method params s' = Raise not_connected s').
Proof.
  cbv zeta. split.
  - apply not_connected_refuses.
    unfold connectionLost, bind at 1, modify at 1, bind at 1, modify at 1.
    now rewrite same_connected_callbackOutgoingRequests.
  - now apply not_connected_refuses.
Qed.

(** ** The msgids in use *)

Section Consecutive.
Context {E : Env}.

Lemma same_counter_refl s : same_counter s s.
Proof. reflexivity. Qed.

Lemma same_counter_trans a b c :
  same_counter a b -> same_counter b c -> same_counter a c.
Proof. unfold same_counter; congruence. Qed.

Ltac counter_prim :=
  first [ exact same_counter_refl | exact same_counter_trans
        | intros; reflexivity ].

(** Only [createRequest] moves the counter. *)
Lemma same_counter_step ev p :
  (forall method args, ev <> EvCreateRequest method args) ->
  same_counter (st p) (st (step ev p)).
Proof.
  intros Hev. unfold step, on_state, dataReceived, datagramReceived.
  destruct ev; try (now exfalso; eapply Hev);
    destruct (cls (st p)); cbn [st]; try apply same_counter_refl;
    first [ apply steps_rawDataReceived; counter_prim | generalize (st p) ].
  - apply steps_connectionMade; counter_prim.
  - apply steps_startProtocol; counter_prim.
  - apply steps_createNotification; counter_prim.
  - apply steps_createNotification; counter_prim.
  - apply steps_connectionLost; counter_prim.
  - apply steps_timeoutConnection; counter_prim.
  - apply steps_connectionRefused; counter_prim.
  - apply steps_stream_closeConnection; counter_prim.
  - apply steps_dgram_closeConnection; counter_prim.
  - apply steps_runDelayedCall; counter_prim.
  - apply steps_handlerFired; counter_prim.
  - apply steps_handlerFired; counter_prim.
Qed.

Lemma createRequest_counter method params s :
  next_msgid (state_of (createRequest method params s))
  = if connected s then next_msgid s + 1 else next_msgid s.
Proof.
  pose proof (createRequest_spec method params s) as H.
  destruct (createRequest method params s) as [d s'|e s']; simpl.
  - destruct H as (-> & _ & -> & _). reflexivity.
  - tauto.
Qed.

(** Every step moves the counter by the msgids it hands out, which are the
    next ones. *)
Lemma step_counter ev p :
  next_msgid (st (step ev p))
  = next_msgid (st p) + Z.of_nat (List.length (assigned_by ev p)) /\
  (assigned_by ev p = [] \/ assigned_by ev p = [next_msgid (st p) + 1]).
Proof.
  destruct ev as [ | |method args|method params|data|data address|reason
                 | | | |dc|h o];
    try (split; [|now left];
         rewrite (@same_counter_step _ p) by discriminate;
         unfold assigned_by; simpl; lia).
  unfold assigned_by, step, on_state, call_createRequest, dgram_createRequest.
  cbn [st]. unfold bind, gets.
  destruct (cls (st p)) eqn:Hcls.
  - destruct args as [|params [|? ?]];
      try (split; [simpl; destruct (connected (st p)); simpl; lia|now left]).
    rewrite createRequest_counter.
    destruct (connected (st p)); simpl; split; auto; lia.
  - rewrite createRequest_counter.
    destruct (connected (st p)), args as [|? [|? ?]]; simpl; split; auto; lia.
Qed.

Lemma assigned_msgids_consecutive tr : forall p,
  assigned_msgids tr p
  = map (fun i => next_msgid (st p) + Z.of_nat i)
        (seq 1 (List.length (assigned_msgids tr p))) /\
  next_msgid (st (run tr p))
  = next_msgid (st p) + Z.of_nat (List.length (assigned_msgids tr p)).
Proof.
  induction tr as [|ev tr IH]; intros p; cbn [assigned_msgids run].
  - simpl. split; [reflexivity|lia].
  - destruct (IH (step ev p)) as [IHa IHn].
    destruct (step_counter ev p) as [Hn [Ha|Ha]]; rewrite Ha in *;
      cbn [List.length app] in *.
    + assert (Hn' : next_msgid (st (step ev p)) = next_msgid (st p))
        by (simpl in Hn; lia).
      rewrite Hn' in IHa, IHn. split; [exact IHa|exact IHn].
    + split.
      * cbn [seq map]. f_equal.
        rewrite IHa at 1. rewrite <- (seq_shift _ 1), map_map.
        apply map_ext. intros i. rewrite Hn. lia.
      * rewrite IHn, Hn. lia.
Qed.

End Consecutive.

(** X9: along every run of a protocol object from its construction, the
    msgids [createRequest] hands out are 1, 2, 3, ... without a gap, and the
    counter holds their number: nothing but a [createRequest] on a connected
    protocol takes a msgid, whether or not the request could be sent. *)
Theorem X9_msgids_are_consecutive {E : Env} (c : proto_class) (se : bool)
    (a : option Addr) (t : option N) (tr : list Event) :
  let p0 := {| unpacker := []; st := init_state c se a t |} in
  assigned_msgids tr p0
  = map Z.of_nat (seq 1 (List.length (assigned_msgids tr p0))) /\
  next_msgid (st (run tr p0)) = Z.of_nat (List.length (assigned_msgids tr p0)).
Proof.
  cbv zeta.
  destruct (assigned_msgids_consecutive tr
              {| unpacker := []; st := init_state c se a t |}) as [Ha Hn].
  split.
  - rewrite Ha at 1. apply map_ext. intros i. simpl. lia.
  - rewrite Hn. simpl. lia.
Qed.

(** ** Aborting the outgoing requests, in general *)

Lemma values_In V (k : Key) (v : V) (d : PyDict.t V) :
  In (k, v) d -> In v (PyDict.values d).
Proof.
  intros Hin. unfold PyDict.values. apply in_map_iff. exists (k, v); auto.
Qed.

Lemma In_values V (v : V) (d : PyDict.t V) :
  In v (PyDict.values d) -> exists k, In (k, v) d.
Proof.
  unfold PyDict.values. intros Hin. apply in_map_iff in Hin.
  destruct Hin as ([k v'] & Hv & Hin). simpl in Hv. subst v'. eauto.
Qed.

(** When every handle of the table is pending and no two entries share a
    handle, the loop fails them all and empties the table. *)
Lemma callbackOutgoingRequests_fails_all (s : State) (e : exn) :
  all_pending s ->
  NoDup (PyDict.values (outgoing_requests s)) ->
  exists s',
    callbackOutgoingRequests (fun d => errback d e) s = Ok tt s' /\
    outgoing_requests s' = [] /\
    connected s' = connected s /\
    lose_requested s' = lose_requested s /\
    (forall k d, In (k, d) (outgoing_requests s) -> fired_at s' d (Failure e)) /\
    (forall d v, fired_at s' d (Success v) -> fired_at s d (Success v)) /\
    (forall d, ~ In d (PyDict.values (outgoing_requests s)) ->
               nth_error (deferreds s') d = nth_error (deferreds s) d).
Proof.
  intros Hp Hnd.
  assert (Hvals : forall d, In d (PyDict.values (outgoing_requests s)) ->
                            pending_at s d).
  { intros d Hin. apply In_values in Hin. destruct Hin as (k & Hin).
    eapply Hp; eauto. }
  eexists. split.
  - unfold callbackOutgoingRequests, bind, gets.
    apply (@callbackOutgoing_loop_all_pending e (outgoing_requests s) s
             eq_refl Hnd Hvals).
  - cbn [outgoing_requests connected lose_requested deferreds
         upd_outgoing upd_deferreds].
    repeat split; auto.
    + intros k d Hin. unfold fired_at.
      cbn [deferreds upd_outgoing upd_deferreds].
      apply fail_all_in; auto.
      * eapply values_In; eauto.
      * apply nth_error_Some. rewrite (Hp _ _ Hin). discriminate.
    + intros d v. unfold fired_at.
      cbn [deferreds upd_outgoing upd_deferreds]. intros Hf.
      destruct (in_dec Nat.eq_dec d (PyDict.values (outgoing_requests s)))
        as [Hin|Hn].
      * rewrite fail_all_in in Hf; auto; [discriminate|].
        apply nth_error_Some. rewrite (Hvals _ Hin). discriminate.
      * now rewrite fail_all_other in Hf.
    + intros d Hn. now apply fail_all_other.
Qed.

(** The loop stops at the first handle that has already fired: [errback]
    raises [AlreadyCalledError] after [popitem] has taken the entry. *)
Lemma callbackOutgoing_loop_stops (e : exn) (front : PyDict.t nat) :
  forall (s : State) (k : Key) (d : nat) (o : outcome) (back : PyDict.t nat)
         (fuel : nat),
    outgoing_requests s = (front ++ (k, d) :: back)%list ->
    NoDup (PyDict.values front) ->
    (forall d', In d' (PyDict.values front) -> pending_at s d') ->
    fired_at s d o ->
    (List.length front < fuel)%nat ->
    callbackOutgoing_loop fuel (fun d => errback d e) s
    = Raise (Exn AlreadyCalledError [])
        (upd_outgoing (fun _ => back)
           (upd_deferreds (fail_all (PyDict.values front) e) s)).
Proof.
  induction front as [|[k0 d0] front IH]; intros s k d o back fuel Ho Hnd Hp Hf Hlt.
  - destruct fuel; [simpl in Hlt; lia|].
    cbn [callbackOutgoing_loop]. unfold bind at 1, gets at 1. rewrite Ho.
    cbn [app]. unfold bind at 1, modify at 1. unfold bind at 1, errback, fire.
    cbn [deferreds upd_outgoing]. unfold fired_at in Hf. rewrite Hf.
    destruct s; reflexivity.
  - destruct fuel; [simpl in Hlt; lia|].
    cbn [callbackOutgoing_loop]. unfold bind at 1, gets at 1. rewrite Ho.
    cbn [app]. unfold bind at 1, modify at 1. unfold bind at 1, errback, fire.
    cbn [deferreds upd_outgoing].
    pose proof (Hp d0 (or_introl eq_refl)) as Hd0. unfold pending_at in Hd0.
    rewrite Hd0.
    inversion Hnd as [|? ? Hnotin Hnd']; subst.
    rewrite (IH _ k d o back); auto.
    + intros d' Hin. unfold pending_at.
      cbn [deferreds upd_deferreds upd_outgoing].
      rewrite nth_error_list_set_other by (intros ->; auto).
      apply Hp. now right.
    + unfold fired_at. cbn [deferreds upd_deferreds upd_outgoing].
      rewrite nth_error_list_set_other; [exact Hf|].
      intros ->. unfold fired_at in Hf. congruence.
    + simpl in Hlt. lia.
Qed.

(** X10: at any point of the life of a stream protocol, the idle timeout
    ([timeoutConnection]) fails every pending request with
    [TimeoutError("Request timed out")], empties the table and asks the
    transport to drop the connection; no handle becomes a success, and the
    protocol still counts as connected until [connectionLost] is called. *)
Theorem X10_timeoutConnection_fails_every_pending_request {E : Env}
    (send_errors : bool) (tr : list Event) :
  let s := st (run tr (stream_protocol send_errors)) in
  exists s',
    timeoutConnection s = Ok tt s' /\
    outgoing_requests s' = [] /\
    lose_requested s' = true /\
    connected s' = connected s /\
    (forall k d, In (k, d) (outgoing_requests s) ->
       fired_at s' d (Failure (Exn TimeoutError [VStr "Request timed out"]))) /\
    (forall d v, fired_at s' d (Success v) -> fired_at s d (Success v)).
Proof.
  cbv zeta.
  pose proof (stream_inv_run tr (stream_protocol send_errors)
                (stream_inv_init send_errors)) as (_ & _ & Hp & Hnd).
  destruct (callbackOutgoingRequests_fails_all
              (Exn TimeoutError [VStr "Request timed out"]) Hp Hnd)
    as (s' & H1 & H2 & H3 & H4 & H5 & H6 & _).
  exists (set_lose_requested true s'). split.
  - unfold timeoutConnection, bind. now rewrite H1.
  - repeat split; auto.
Qed.

(** X11: [connectionRefused] on a datagram protocol whose outgoing
    requests are all pending, no two of them sharing a handle: every one of
    them fails with [ConnectionError("Connection refused")], the table is
    emptied, no handle becomes a success and the handles outside the table
    are untouched.  The protocol stays connected. *)
Theorem X11_connectionRefused_fails_every_pending_request (s : State) :
  all_pending s ->
  NoDup (PyDict.values (outgoing_requests s)) ->
  exists s',
    connectionRefused s = Ok tt s' /\
    outgoing_requests s' = [] /\
    connected s' = connected s /\
    (forall k d, In (k, d) (outgoing_requests s) ->
       fired_at s' d (Failure (Exn ConnectionError [VStr "Connection refused"]))) /\
    (forall d v, fired_at s' d (Success v) -> fired_at s d (Success v)) /\
    (forall d, ~ In d (PyDict.values (outgoing_requests s)) ->
               nth_error (deferreds s') d = nth_error (deferreds s) d).
Proof.
  intros Hp Hnd.
  destruct (callbackOutgoingRequests_fails_all
              (Exn ConnectionError [VStr "Connection refused"]) Hp Hnd)
    as (s' & H1 & H2 & H3 & _ & H5 & H6 & H7).
  exists s'. unfold connectionRefused. repeat split; auto.
Qed.

Lemma X11_witness :
  let s := st (run (E := Example.env)
                 [EvStartProtocol;
                  EvCreateRequest (VStr "echo") [VStr "a"];
                  EvCreateRequest (VStr "echo") [VStr "b"]]
                 (datagram_protocol (Some Example.peer_a) false None)) in
  exists s',
    connectionRefused s = Ok tt s' /\
    outgoing_requests s' = [] /\
    connected s' = connected s /\
    (forall k d, In (k, d) (outgoing_requests s) ->
       fired_at s' d (Failure (Exn ConnectionError [VStr "Connection refused"]))) /\
    (forall d v, fired_at s' d (Success v) -> fired_at s d (Success v)) /\
    (forall d, ~ In d (PyDict.values (outgoing_requests s)) ->
               nth_error (deferreds s') d = nth_error (deferreds s) d).
Proof.
  cbv zeta.
  set (s := st (run (E := Example.env) _ _)).
  assert (Ho : outgoing_requests s = [(KInt 2, 1%nat); (KInt 1, 0%nat)])
    by (vm_compute; reflexivity).
  apply X11_connectionRefused_fails_every_pending_request.
  - intros k d Hin. rewrite Ho in Hin.
    destruct Hin as [Hin|[Hin|[]]]; injection Hin as <- <-;
      vm_compute; reflexivity.
  - rewrite Ho. cbn [PyDict.values map snd].
    repeat constructor; simpl; intuition discriminate.
Defined.

(** X12: [connectionRefused] when an entry of the table holds a handle
    that has already fired (a request that timed out keeps its entry).  The
    entries [popitem] hands out before that one ([front]) are taken and
    their handles fail with [ConnectionError]; then the entry itself is
    taken, [errback] raises [AlreadyCalledError] and the loop ends there:
    the remaining entries ([back]) stay in the table and their handles are
    not resolved. *)
Theorem X12_connectionRefused_stops_at_a_fired_handle (s : State)
    (front back : PyDict.t nat) (k : Key) (d : nat) (o : outcome) :
  outgoing_requests s = (front ++ (k, d) :: back)%list ->
  NoDup (PyDict.values front) ->
  (forall k' d', In (k', d') front -> pending_at s d') ->
  fired_at s d o ->
  exists s',
    connectionRefused s = Raise (Exn AlreadyCalledError []) s' /\
    outgoing_requests s' = back /\
    (forall k' d', In (k', d') front ->
       fired_at s' d' (Failure (Exn ConnectionError [VStr "Connection refused"]))) /\
    (forall d', ~ In d' (PyDict.values front) ->
                nth_error (deferreds s') d' = nth_error (deferreds s) d').
Proof.
  intros Ho Hnd Hp Hf.
  assert (Hvals : forall d', In d' (PyDict.values front) -> pending_at s d').
  { intros d' Hin. apply In_values in Hin. destruct Hin as (k' & Hin). eauto. }
  eexists. split.
  - unfold connectionRefused, callbackOutgoingRequests, bind, gets.
    apply (@callbackOutgoing_loop_stops _ front s k d o back); auto.
    rewrite Ho, length_app. simpl. lia.
  - cbn [outgoing_requests deferreds upd_outgoing upd_deferreds].
    split; [reflexivity|]. split.
    + intros k' d' Hin. unfold fired_at.
      cbn [deferreds upd_outgoing upd_deferreds].
      apply fail_all_in; auto.
      * eapply values_In; eauto.
      * apply nth_error_Some. rewrite (Hp _ _ Hin). discriminate.
    + intros d' Hn. now apply fail_all_other.
Qed.

Lemma X12_witness :
  let s := st (run (E := Example.env)
                 [EvStartProtocol;
                  EvCreateRequest (VStr "echo") [VStr "a"];
                  EvCreateRequest (VStr "echo") [VStr "b"];
                  EvCreateRequest (VStr "echo") [VStr "c"];
                  EvDelayedCall 1]
                 (datagram_protocol (Some Example.peer_a) false (Some 50%N))) in
  exists s',
    connectionRefused s = Raise (Exn AlreadyCalledError []) s' /\
    outgoing_requests s' = [(KInt 1, 0%nat)] /\
    (forall k' d', In (k', d') [(KInt 3, 2%nat)] ->
       fired_at s' d' (Failure (Exn ConnectionError [VStr "Connection refused"]))) /\
    (forall d', ~ In d' (PyDict.values [(KInt 3, 2%nat)]) ->
                nth_error (deferreds s') d' = nth_error (deferreds s) d').
Proof.
  cbv zeta.
  apply (@X12_connectionRefused_stops_at_a_fired_handle _
           [(KInt 3, 2%nat)] [(KInt 1, 0%nat)] (KInt 2) 1%nat
           (Failure (Exn TimeoutError [VStr "Request timed out"]))).
  - vm_compute; reflexivity.
  - repeat constructor. simpl; tauto.
  - intros k' d' [[= <- <-]|[]]. vm_compute; reflexivity.
  - vm_compute; reflexivity.
Defined.

(** ** Whose request a delayed call fails *)

(** A delayed call that is still scheduled, run in a state whose outgoing
    table holds a pending handle under the key of its argument. *)
Lemma runDelayedCall_fails (s : State) (dc d : nat) (c : DelayedCall) (k : Key) :
  nth_error (reactor s) dc = Some c ->
  dc_state c = Scheduled ->
  key_of (dc_arg c) = Some k ->
  PyDict.get k (outgoing_requests s) = Some d ->
  pending_at s d ->
  runDelayedCall dc s
  = Ok tt (upd_deferreds
             (list_set d (Fired (Failure (Exn TimeoutError [VStr "Request timed out"]))))
             (upd_reactor (list_set dc (set_dc_state Called c)) s)).
Proof.
  intros Hdc Hst Hk Hg Hp.
  unfold runDelayedCall, bind, gets. rewrite Hdc, Hst. unfold modify.
  unfold timeoutRequest, hash, bind. rewrite Hk. unfold ret, gets.
  cbn [outgoing_requests upd_reactor]. rewrite Hg.
  unfold errback, fire. cbn [deferreds upd_reactor].
  unfold pending_at in Hp. now rewrite Hp.
Qed.

(** A delayed call whose argument is no key of the outgoing table. *)
Lemma runDelayedCall_idle (s : State) (dc : nat) (c : DelayedCall) (k : Key) :
  nth_error (reactor s) dc = Some c ->
  key_of (dc_arg c) = Some k ->
  PyDict.get k (outgoing_requests s) = None ->
  exists s',
    runDelayedCall dc s = Ok tt s' /\
    deferreds s' = deferreds s /\ outgoing_requests s' = outgoing_requests s.
Proof.
  intros Hdc Hk Hg.
  unfold runDelayedCall, bind, gets. rewrite Hdc.
  destruct (dc_state c); try (eexists; split; [reflexivity|auto]).
  unfold modify, timeoutRequest, hash, bind. rewrite Hk. unfold ret, gets.
  cbn [outgoing_requests upd_reactor]. rewrite Hg.
  eexists; split; [reflexivity|auto].
Qed.

(** X13: on a datagram protocol with a timeout, the delayed call armed by
    the writing of any message runs [timeoutRequest(message[1])], which
    looks its argument up in the table of outgoing requests.  Whenever that
    call fires while the table holds a pending request under that key, that
    request fails with [TimeoutError]: the Response to an incoming request
    [n] times out the protocol's own request [n]. *)
Theorem X13_timer_of_a_written_message_fails_the_request_of_its_key {E : Env}
    (s : State) (delay : N) (message : list Value) (context : option Context)
    (msgid : Value) (k : Key) :
  cls s = Datagram ->
  truthy (timeout s) = Some delay ->
  nth_error message 1 = Some msgid ->
  key_of msgid = Some k ->
  let s1 := state_of (writeMessage message context s) in
  let dc := List.length (reactor s) in
  forall (s' : State) (d : nat),
    nth_error (reactor s') dc = nth_error (reactor s1) dc ->
    PyDict.get k (outgoing_requests s') = Some d ->
    pending_at s' d ->
    exists s2,
      runDelayedCall dc s' = Ok tt s2 /\
      fired_at s2 d (Failure (Exn TimeoutError [VStr "Request timed out"])).
Proof.
  intros Hcls Ht Hn Hk. cbv zeta. intros s' d Hdc Hg Hp.
  assert (Hw : writeMessage message context s = dgram_writeMessage message context s).
  { unfold writeMessage, bind, gets. now rewrite Hcls. }
  rewrite Hw in Hdc.
  destruct (@dgram_writeMessage_schedules E s delay message context msgid k Ht Hn Hk)
    as [Hr _].
  rewrite Hr, nth_error_snoc in Hdc.
  rewrite (@runDelayedCall_fails s' _ d _ k Hdc eq_refl Hk Hg Hp).
  eexists. split; [reflexivity|].
  unfold fired_at. cbn [deferreds upd_deferreds upd_reactor].
  eapply nth_error_list_set_same. exact Hp.
Qed.

Lemma X13_witness :
  let s := st (step (E := Example.env) EvStartProtocol
                 (datagram_protocol (Some Example.peer_a) false (Some 50%N))) in
  let answer := [VInt MSGTYPE_RESPONSE; VInt 1; VNil; VStr "done"] in
  let ctx := Some {| peer := Some Example.peer_a |} in
  let s1 := state_of (writeMessage (E := Example.env) answer ctx s) in
  let s' := state_of (createRequest (E := Example.env) (VStr "echo") (VList []) s1) in
  exists s2,
    runDelayedCall 0 s' = Ok tt s2 /\
    fired_at s2 0 (Failure (Exn TimeoutError [VStr "Request timed out"])).
Proof.
  cbv zeta.
  set (s := st (step (E := Example.env) _ _)).
  apply (@X13_timer_of_a_written_message_fails_the_request_of_its_key
           Example.env s 50%N
           [VInt MSGTYPE_RESPONSE; VInt 1; VNil; VStr "done"]
           (Some {| peer := Some Example.peer_a |}) (VInt 1) (KInt 1));
    vm_compute; reflexivity.
Defined.

Section StringKeys.
Context {E : Env}.

Lemma keys_bounded_no_string s name :
  keys_bounded s -> PyDict.get (KStr name) (outgoing_requests s) = None.
Proof.
  intros Hb. destruct (PyDict.get _ _) as [d|] eqn:Hg; auto.
  apply dict_get_In in Hg. destruct (Hb _ _ Hg) as (z & Hz & _). discriminate.
Qed.

End StringKeys.

(** X14: the delayed call a datagram protocol arms for a notification has
    the method name as its argument.  Along every run from the construction
    of the protocol the keys of the outgoing table are msgids, so that such
    a call, whenever the reactor runs it, resolves no request and removes
    no entry. *)
Theorem X14_timer_of_a_notification_resolves_nothing {E : Env}
    (a : option Addr) (se : bool) (t : option N) (tr : list Event)
    (dc : nat) (c : DelayedCall) (name : string) :
  let s := st (run tr (datagram_protocol a se t)) in
  nth_error (reactor s) dc = Some c ->
  dc_arg c = VStr name ->
  exists s',
    runDelayedCall dc s = Ok tt s' /\
    deferreds s' = deferreds s /\ outgoing_requests s' = outgoing_requests s.
Proof.
  cbv zeta. intros Hdc Harg.
  apply (@runDelayedCall_idle _ dc c (KStr name) Hdc).
  - now rewrite Harg.
  - apply keys_bounded_no_string, keys_bounded_run. apply keys_bounded_init.
Qed.

Lemma X14_witness :
  let s := st (run (E := Example.env)
                 [EvStartProtocol;
                  EvCreateRequest (VStr "echo") [VStr "a"];
                  EvCreateNotification (VStr "log") (VStr "x")]
                 (datagram_protocol (Some Example.peer_a) false (Some 50%N))) in
  exists s',
    runDelayedCall 1 s = Ok tt s' /\
    deferreds s' = deferreds s /\ outgoing_requests s' = outgoing_requests s.
Proof.
  cbv zeta.
  apply (@X14_timer_of_a_notification_resolves_nothing Example.env
           (Some Example.peer_a) false (Some 50%N)
           [EvStartProtocol;
            EvCreateRequest (VStr "echo") [VStr "a"];
            EvCreateNotification (VStr "log") (VStr "x")]
           1%nat {| dc_state := Scheduled; dc_delay := 50; dc_arg := VStr "log" |} "log");
    vm_compute; reflexivity.
Defined.

(** ** What the handling of an incoming message can raise *)

Section Dispatch.
Context {E : Env}.

Lemma run_cbs_Ok cbs : forall o s, exists o' s', run_cbs cbs o s = Ok o' s'.
Proof.
  induction cbs as [|c cbs IH]; intros o s; cbn [run_cbs].
  - do 2 eexists; reflexivity.
  - destruct (apply_cb_Ok c o s) as (o1 & s1 & H1).
    unfold bind. rewrite H1. apply IH.
Qed.

Lemma runCallbacks_Ok h s : exists s', runCallbacks h s = Ok tt s'.
Proof.
  unfold runCallbacks, bind, gets.
  destruct (nth_error (handler_calls s) h) as [[[o|] cbs]|];
    try (eexists; reflexivity).
  destruct (run_cbs_Ok cbs o s) as (o' & s' & H). rewrite H.
  eexists; reflexivity.
Qed.

Lemma addCallbacks_Ok h c s : exists s', addCallbacks h c s = Ok tt s'.
Proof.
  unfold addCallbacks, bind, gets.
  destruct (nth_error (handler_calls s) h) as [d|]; [|eexists; reflexivity].
  unfold modify. apply runCallbacks_Ok.
Qed.

Lemma maybeDeferred_result (f : M (Value + unit)) s :
  maybeDeferred f s
  = Ok (List.length (handler_calls (state_of (f s))))
       (upd_handler_calls
          (fun l => l ++ [{| hd_result := call_result (f s); hd_callbacks := [] |}])
          (state_of (f s))).
Proof.
  unfold maybeDeferred, bind, catch, gets, modify, ret, call_result.
  destruct (f s) as [[v|[]] s'|e s']; reflexivity.
Qed.

Lemma unpack4_error message e :
  unpack4 message = inl e ->
  kind_of e = TypeError \/ (kind_of e = ValueError /\ py_len message <> 4).
Proof.
  unfold unpack4, py_len.
  destruct (iter_items message) as [e0|l] eqn:Hi.
  - intros [= <-]. left.
    unfold iter_items in Hi. destruct message; try discriminate;
      injection Hi as <-; reflexivity.
  - destruct l as [|a [|b [|c [|d [|x l]]]]]; intros H; try discriminate;
      injection H as <-; right; split; try reflexivity; simpl; lia.
Qed.

(** Attaching [notificationCallback] to the Deferred [maybeDeferred] has
    just made touches nothing but that Deferred. *)
Lemma notification_attached s hs r :
  handler_calls s = (hs ++ [{| hd_result := r; hd_callbacks := [] |}])%list ->
  exists f,
    addCallbacks (List.length hs) BothNotificationCallback s
    = Ok tt (upd_handler_calls f s).
Proof.
  intros Hh.
  assert (Hn : nth_error (handler_calls s) (List.length hs)
               = Some {| hd_result := r; hd_callbacks := [] |})
    by (rewrite Hh; apply nth_error_snoc).
  unfold addCallbacks, bind, gets. rewrite Hn. unfold modify.
  unfold runCallbacks, bind, gets.
  cbn [handler_calls upd_handler_calls hd_result hd_callbacks app].
  rewrite (nth_error_list_set_same _ _ _ Hn).
  destruct r as [o|]; cbn [run_cbs apply_cb].
  - unfold notificationCallback, catch, bind, ret, modify. destruct o;
      eexists (fun l => list_set (List.length hs) _ (list_set (List.length hs) _ l));
      reflexivity.
  - unfold ret. eexists (fun l => list_set (List.length hs) _ l). reflexivity.
Qed.

Lemma same_stdout_callRemoteMethod msgid methodName params :
  steps same_stdout (callRemoteMethod msgid methodName params).
Proof.
  apply steps_callRemoteMethod; unfold same_stdout;
    first [ now intros | intros; congruence ].
Qed.

End Dispatch.

(** X15: [notificationReceived] never raises and never answers.  A message
    that is not made of three items is printed and dropped.  Otherwise the
    remote method is called, and whatever it does (return, raise, be
    unknown, take other arguments) nothing is written to the transport,
    nothing is printed to stdout and no table changes: [maybeDeferred] turns
    every exception into a failed Deferred, which [notificationCallback]
    swallows. *)
Theorem X15_notification_is_never_answered {E : Env} (message : Value) (s : State) :
  exists s',
    notificationReceived message s = Ok tt s' /\
    transport s' = transport s /\
    incoming_requests s' = incoming_requests s /\
    outgoing_requests s' = outgoing_requests s /\
    deferreds s' = deferreds s /\
    stdout s' = match unpack3 message with
                | inl e => (stdout s ++ [e])%list
                | inr _ => stdout s
                end.
Proof.
  unfold notificationReceived.
  destruct (unpack3 message) as [e|[[msgType methodName] params]].
  - eexists. split; [reflexivity|]. repeat split.
  - unfold bind at 1, catch, bind at 1.
    rewrite maybeDeferred_result.
    destruct (call_frame_callRemoteMethod VNil methodName params s)
      as ((_ & _ & Hinc & _) & Htr).
    assert (Hcore : same_core s (state_of (callRemoteMethod VNil methodName params s))).
    { apply steps_callRemoteMethod;
        first [ exact same_core_refl | exact same_core_trans
              | intros; unfold same_core; simpl; intuition ]. }
    destruct Hcore as (_ & _ & Hout & _ & Hdef & _).
    pose proof (same_stdout_callRemoteMethod VNil methodName params s) as Hso.
    unfold same_stdout in Hso.
    set (sf := state_of (callRemoteMethod VNil methodName params s)) in *.
    set (r := call_result (callRemoteMethod VNil methodName params s)).
    destruct (@notification_attached E
                (upd_handler_calls
                   (fun l => l ++ [{| hd_result := r; hd_callbacks := [] |}]) sf)
                (handler_calls sf) r eq_refl) as (f & Hadd).
    rewrite Hadd. eexists. split; [reflexivity|].
    cbn [transport incoming_requests outgoing_requests deferreds stdout
         upd_handler_calls].
    repeat split; assumption.
Qed.

(** X16: [requestReceived] raises only before it dispatches.  When it
    raises, the protocol is exactly as it was (no remote method has been
    called, nothing is registered or written), and the exception is one of:
    the failure of the unpacking of the message ([InvalidData], or the
    original exception when [sendErrors] is set), the [TypeError] of a msgid
    that cannot be hashed, or the [InvalidRequest] of a msgid already in the
    table.  What a remote method raises never leaves [requestReceived], and
    [InvalidData("Failed to unpack request.")] is never raised. *)
Theorem X16_requestReceived_raises_only_before_dispatch {E : Env}
    (message : Value) (context : option Context) (s s' : State) (e : exn) :
  requestReceived message context s = Raise e s' ->
  s' = s /\
  e <> Exn InvalidData [VStr "Failed to unpack request."] /\
  match unpack4 message with
  | inl e0 => if sendErrors s then e = e0 else kind_of e = InvalidData
  | inr (_, msgid, _, _) =>
      match key_of msgid with
      | None => kind_of e = TypeError
      | Some k =>
          PyDict.mem k (incoming_requests s) = true /\ kind_of e = InvalidRequest
      end
  end.
Proof.
  unfold requestReceived, bind at 1, gets at 1.
  destruct (unpack4 message) as [e0|[[[msgType msgid] methodName] params]] eqn:Hu.
  - pose proof (unpack4_error message Hu) as Hkind.
    destruct (sendErrors s).
    + intros [= <- <-]. repeat split; auto.
      intros ->. simpl in Hkind. destruct Hkind as [?|[? _]]; discriminate.
    + destruct Hkind as [Hk|[Hk Hlen]]; rewrite Hk; cbn [exn_kind_eqb].
      * intros [= <- <-]. repeat split; auto. discriminate.
      * apply Z.eqb_neq in Hlen. rewrite Hlen. cbn [negb].
        intros [= <- <-]. repeat split; auto. discriminate.
  - unfold hash, bind at 1.
    destruct (key_of msgid) as [k|]; [|intros [= <- <-]; repeat split; auto; discriminate].
    unfold ret at 1, bind at 1, gets at 1.
    destruct (PyDict.mem k (incoming_requests s)) eqn:Hm;
      [intros [= <- <-]; repeat split; auto; discriminate|].
    unfold bind at 1. rewrite maybeDeferred_result.
    unfold bind at 1, modify at 1.
    unfold bind at 1.
    match goal with |- context [addCallbacks ?h ?c ?s1] =>
      destruct (addCallbacks_Ok h c s1) as (s2 & H1) end.
    rewrite H1. unfold bind at 1.
    match goal with |- context [addCallbacks ?h ?c s2] =>
      destruct (addCallbacks_Ok h c s2) as (s3 & H2) end.
    rewrite H2. unfold bind at 1.
    match goal with |- context [addCallbacks ?h ?c s3] =>
      destruct (addCallbacks_Ok h c s3) as (s4 & H3) end.
    rewrite H3. discriminate.
Qed.

Lemma X16_witness :
  let s := st (stream_protocol false) in
  let e := Exn InvalidData
             [VStr "Incorrect message length. Expected 4; received %s"; VInt 2] in
  requestReceived (E := Example.env) (VList [VInt 0; VInt 7]) None s = Raise e s /\
  (s = s /\
   e <> Exn InvalidData [VStr "Failed to unpack request."] /\
   kind_of e = InvalidData).
Proof.
  cbv zeta. split; [vm_compute; reflexivity|].
  apply (@X16_requestReceived_raises_only_before_dispatch Example.env
           (VList [VInt 0; VInt 7]) None (st (stream_protocol false))
           (st (stream_protocol false))
           (Exn InvalidData
              [VStr "Incorrect message length. Expected 4; received %s"; VInt 2])).
  vm_compute; reflexivity.
Defined.

(** ** The Response a request gets *)

Section Answers.
Context {E : Env}.
Variable msgid : Value.
Variable k : Key.
Hypothesis Hk : key_of msgid = Some k.

Lemma respondCallback_answer s context v b :
  registered_at k s context ->
  pack (VList (response_to (sendErrors s) msgid (Success v))) = inr b ->
  exists s1,
    apply_cb (CbRespondCallback msgid) (Success v) s = Ok (Success VNil) s1 /\
    transport s1 = (transport s ++ [(b, route s context)])%list /\
    resp_frame s s1.
Proof.
  intros [[h Hg] Hw] Hp. cbn [response_to] in Hp.
  pose proof (writeMessage_response msgid VNil v Hk Hw) as H.
  rewrite Hp in H. destruct H as (s1 & H & Ht & Hf).
  exists s1. split; [|auto].
  cbn [apply_cb]. unfold bind, catch, respondCallback, bind.
  rewrite (incoming_context_spec s msgid Hk), Hg. now rewrite H.
Qed.

Lemma respondErrback_answer s context f b :
  registered_at k s context ->
  pack (VList (response_to (sendErrors s) msgid (Failure f))) = inr b ->
  exists s1,
    apply_cb (EbRespondErrback msgid) (Failure f) s = Ok (Success VNil) s1 /\
    transport s1 = (transport s ++ [(b, route s context)])%list /\
    resp_frame s s1.
Proof.
  intros [[h Hg] Hw] Hp. cbn [response_to] in Hp.
  set (error := if sendErrors s then getBriefTraceback f else getErrorMessage f) in *.
  pose proof (writeMessage_response msgid error VNil Hk Hw) as H.
  rewrite Hp in H. destruct H as (s1 & H & Ht & Hf).
  exists s1. split; [|auto].
  cbn [apply_cb]. unfold bind, catch, respondErrback, respondError, bind, gets.
  fold error. rewrite (incoming_context_spec s msgid Hk), Hg. now rewrite H.
Qed.

(** The two responding callbacks, one after the other, on any result. *)
Lemma respond_answer s context o b :
  registered_at k s context ->
  pack (VList (response_to (sendErrors s) msgid o)) = inr b ->
  exists o1 s1,
    apply_cb (CbRespondCallback msgid) o s = Ok o1 s1 /\
    resp_frame s s1 /\
    exists s2,
      apply_cb (EbRespondErrback msgid) o1 s1 = Ok (Success VNil) s2 /\
      resp_frame s1 s2 /\
      transport s2 = (transport s ++ [(b, route s context)])%list.
Proof.
  intros Hr Hp. destruct o as [v|f].
  - destruct (respondCallback_answer v Hr Hp) as (s1 & H1 & Ht & Hf).
    exists (Success VNil), s1. repeat split; try apply Hf; auto.
    exists s1. repeat split; auto.
  - exists (Failure f), s. split; [reflexivity|]. split; [apply resp_frame_refl|].
    destruct (respondErrback_answer f Hr Hp) as (s2 & H2 & Ht & Hf).
    exists s2. auto.
Qed.

(** The callbacks of a request on the result of its remote method, run in
    one go: a Deferred of the application that fires. *)
Lemma request_chain_answer s context o b :
  registered_at k s context ->
  pack (VList (response_to (sendErrors s) msgid o)) = inr b ->
  exists s',
    run_cbs (request_chain msgid) o s = Ok (Success VNil) s' /\
    transport s' = (transport s ++ [(b, route s context)])%list /\
    incoming_requests s' = PyDict.remove k (incoming_requests s) /\
    handler_calls s' = handler_calls s.
Proof.
  intros Hr Hp. unfold request_chain. cbn [run_cbs].
  destruct (respond_answer o Hr Hp) as (o1 & s1 & H1 & Hf1 & s2 & H2 & Hf2 & Ht).
  unfold bind at 1. rewrite H1. unfold bind at 1. rewrite H2.
  pose proof (registered_at_frame Hf2 (registered_at_frame Hf1 Hr)) as Hr2.
  unfold bind, ret. rewrite (apply_endRequest msgid Hk (Success VNil) Hr2).
  eexists. split; [reflexivity|].
  destruct (resp_frame_trans Hf1 Hf2) as (_ & _ & Hinc & _ & Hh).
  cbn [transport incoming_requests handler_calls upd_incoming].
  rewrite Hinc. auto.
Qed.

(** The same callbacks attached one by one to a Deferred that has already
    fired: a remote method that returned or raised. *)
Lemma attach_fired_answer h o s context b :
  nth_error (handler_calls s) h = Some {| hd_result := Some o; hd_callbacks := [] |} ->
  registered_at k s context ->
  pack (VList (response_to (sendErrors s) msgid o)) = inr b ->
  exists s',
    (addCallbacks h (CbRespondCallback msgid);;
     addCallbacks h (EbRespondErrback msgid);;
     addCallbacks h (BothEndRequest msgid);;
     ret h) s = Ok h s' /\
    transport s' = (transport s ++ [(b, route s context)])%list /\
    incoming_requests s' = PyDict.remove k (incoming_requests s) /\
    nth_error (handler_calls s') h
    = Some {| hd_result := Some (Success VNil); hd_callbacks := [] |}.
Proof.
  intros Hn Hr Hp.
  set (sa := upd_handler_calls
               (list_set h {| hd_result := Some o;
                              hd_callbacks := [CbRespondCallback msgid] |}) s).
  assert (Hra : registered_at k sa context) by exact Hr.
  (* respondCallback *)
  assert (H1 : exists o1 s1,
             apply_cb (CbRespondCallback msgid) o sa = Ok o1 s1 /\
             resp_frame sa s1 /\
             match o with
             | Success _ =>
                 o1 = Success VNil /\
                 transport s1 = (transport s ++ [(b, route s context)])%list
             | Failure _ => o1 = o /\ transport s1 = transport s
             end).
  { destruct o as [v|f].
    - destruct (@respondCallback_answer sa context v b Hra Hp) as (s1 & H1 & Ht & Hf).
      exists (Success VNil), s1. auto.
    - exists (Failure f), sa. repeat split; auto. }
  destruct H1 as (o1 & s1 & H1 & Hf1 & Ho1).
  destruct (@addCallbacks_fired_frame E k h (CbRespondCallback msgid) o s context
              Hn Hr o1 s1 H1 (proj2 (proj2 (proj2 (proj2 Hf1))))) as [Ha1 Hn1].
  set (s1' := upd_handler_calls
                (list_set h {| hd_result := Some o1; hd_callbacks := [] |}) s1) in *.
  assert (Hr1 : registered_at k s1' context)
    by (apply registered_at_handlers; eapply registered_at_frame; eauto).
  (* respondErrback *)
  set (sb := upd_handler_calls
               (list_set h {| hd_result := Some o1;
                              hd_callbacks := [EbRespondErrback msgid] |}) s1').
  assert (Hrb : registered_at k sb context) by exact Hr1.
  assert (H2 : exists s2,
             apply_cb (EbRespondErrback msgid) o1 sb = Ok (Success VNil) s2 /\
             resp_frame sb s2 /\
             transport s2 = (transport s ++ [(b, route s context)])%list).
  { destruct o as [v|f]; destruct Ho1 as [-> Ht1].
    - exists sb. repeat split; auto.
    - assert (Hpb : pack (VList (response_to (sendErrors sb) msgid (Failure f)))
                    = inr b).
      { destruct Hf1 as (_ & Hse & _).
        change (sendErrors sb) with (sendErrors s1). rewrite Hse. exact Hp. }
      destruct (@respondErrback_answer sb context f b Hrb Hpb) as (s2 & H2 & Ht & Hf).
      exists s2. repeat split; try apply Hf; auto.
      rewrite Ht. destruct Hf1 as (Hcls & _).
      unfold route. cbn [transport cls upd_handler_calls sb s1'].
      unfold sb, s1'. cbn [transport cls upd_handler_calls].
      rewrite Ht1, Hcls. reflexivity. }
  destruct H2 as (s2 & H2 & Hf2 & Ht2).
  destruct (@addCallbacks_fired_frame E k h (EbRespondErrback msgid) o1 s1' context
              Hn1 Hr1 (Success VNil) s2 H2 (proj2 (proj2 (proj2 (proj2 Hf2)))))
    as [Ha2 Hn2].
  set (s2' := upd_handler_calls
                (list_set h {| hd_result := Some (Success VNil);
                               hd_callbacks := [] |}) s2) in *.
  assert (Hr2 : registered_at k s2' context)
    by (apply registered_at_handlers; eapply registered_at_frame; eauto).
  (* endRequest *)
  set (sc := upd_handler_calls
               (list_set h {| hd_result := Some (Success VNil);
                              hd_callbacks := [BothEndRequest msgid] |}) s2').
  assert (Hrc : registered_at k sc context) by exact Hr2.
  pose proof (@apply_endRequest E msgid k Hk sc context (Success VNil) Hrc) as H3.
  destruct (@addCallbacks_fired_frame E k h (BothEndRequest msgid) (Success VNil)
              s2' context Hn2 Hr2 (Success VNil) _ H3 eq_refl) as [Ha3 Hn3].
  eexists. split; [unfold bind; rewrite Ha1, Ha2, Ha3; reflexivity|].
  split; [|split; [|exact Hn3]].
  - unfold sc, s2'. cbn [transport upd_handler_calls upd_incoming]. exact Ht2.
  - destruct Hf1 as (_ & _ & Hinc1 & _). destruct Hf2 as (_ & _ & Hinc2 & _).
    unfold sc, s2'. cbn [incoming_requests upd_handler_calls upd_incoming].
    rewrite Hinc2. unfold sb, s1'. cbn [incoming_requests upd_handler_calls].
    rewrite Hinc1. reflexivity.
Qed.

End Answers.

(** A Request whose remote method has returned or raised by the time
    [maybeDeferred] is back. *)
Lemma requestReceived_answers {E : Env} (s : State)
    (message msgType msgid methodName params : Value)
    (context : option Context) (k : Key) (o : outcome) (b : list byte) :
  unpack4 message = inr (msgType, msgid, methodName, params) ->
  key_of msgid = Some k ->
  PyDict.mem k (incoming_requests s) = false ->
  writable s context ->
  call_result (callRemoteMethod msgid methodName params s) = Some o ->
  pack (VList (response_to (sendErrors s) msgid o)) = inr b ->
  exists h s1,
    requestReceived message context s = Ok h s1 /\
    transport s1 = (transport s ++ [(b, route s context)])%list /\
    PyDict.get k (incoming_requests s1) = None.
Proof.
  intros Hu Hk Hm Hw Hcall Hp.
  unfold requestReceived, bind at 1, gets at 1. rewrite Hu.
  unfold hash, bind at 1. rewrite Hk.
  unfold ret at 1, bind at 1, gets at 1. rewrite Hm.
  unfold bind at 1. rewrite maybeDeferred_result, Hcall.
  destruct (call_frame_callRemoteMethod msgid methodName params s)
    as ((Hcls & Hse & Hinc & _ & Hh) & Htr).
  set (sf := state_of (callRemoteMethod msgid methodName params s)) in *.
  set (h := List.length (handler_calls sf)) in *.
  unfold bind at 1, modify at 1.
  set (sb := upd_incoming (PyDict.set k (h, context))
               (upd_handler_calls
                  (fun l => l ++ [{| hd_result := Some o; hd_callbacks := [] |}]) sf)).
  assert (Hn : nth_error (handler_calls sb) h
               = Some {| hd_result := Some o; hd_callbacks := [] |})
    by apply nth_error_snoc.
  assert (Hr : registered_at k sb context).
  { split.
    - exists h. apply dict_get_set.
    - unfold writable in *. change (cls sb) with (cls sf). now rewrite Hcls. }
  assert (Hpb : pack (VList (response_to (sendErrors sb) msgid o)) = inr b).
  { change (sendErrors sb) with (sendErrors sf). now rewrite Hse. }
  destruct (@attach_fired_answer E msgid k Hk h o sb context b Hn Hr Hpb)
    as (s' & Heq & Ht & Hi & _).
  rewrite Heq. exists h, s'. split; [reflexivity|]. split.
  - rewrite Ht. change (transport sb) with (transport sf).
    unfold route. change (cls sb) with (cls sf). now rewrite Htr, Hcls.
  - rewrite Hi. apply dict_get_remove.
Qed.

(** X17: a Request whose remote method returns a value or raises.
    [requestReceived] returns normally and exactly one message has gone to
    the transport, to the peer the request came from: the Response
    [(1, msgid, None, value)] for a value, and [(1, msgid, text, None)] for
    an exception, also the [InvalidRequest] of an unknown method, where
    [text] is the message of the failure, or its brief traceback when
    [sendErrors] is set.  The entry of the request is gone again, and the
    requests of the protocol's own are not touched. *)
Theorem X17_result_of_the_remote_method_is_answered {E : Env} (s : State)
    (message msgType msgid methodName params : Value)
    (context : option Context) (k : Key) (o : outcome) (b : list byte) :
  unpack4 message = inr (msgType, msgid, methodName, params) ->
  key_of msgid = Some k ->
  PyDict.mem k (incoming_requests s) = false ->
  writable s context ->
  call_result (callRemoteMethod msgid methodName params s) = Some o ->
  pack (VList (response_to (sendErrors s) msgid o)) = inr b ->
  exists h s1,
    requestReceived message context s = Ok h s1 /\
    transport s1 = (transport s ++ [(b, route s context)])%list /\
    PyDict.get k (incoming_requests s1) = None /\
    outgoing_requests s1 = outgoing_requests s /\
    deferreds s1 = deferreds s.
Proof.
  intros Hu Hk Hm Hw Hcall Hp.
  pose proof (same_core_requestReceived message context s) as Hcore.
  destruct (@requestReceived_answers E s message msgType msgid methodName params
              context k o b Hu Hk Hm Hw Hcall Hp)
    as (h & s1 & Heq & Ht & Hg).
  rewrite Heq in Hcore. destruct Hcore as (_ & _ & Ho & _ & Hd & _).
  exists h, s1. repeat split; assumption.
Qed.

Lemma X17_witness :
  let s := st (stream_protocol false) in
  exists h s1,
    requestReceived (E := Example.env)
      (VList [VInt 0; VInt 7; VStr "echo"; VList [VStr "hi"]]) None s = Ok h s1 /\
    transport s1 = [([x94; x01; x07; xc0; x91; xa2; x68; x69], None)] /\
    PyDict.get (KInt 7) (incoming_requests s1) = None /\
    outgoing_requests s1 = outgoing_requests s /\
    deferreds s1 = deferreds s.
Proof.
  cbv zeta.
  apply (@X17_result_of_the_remote_method_is_answered Example.env
           (st (stream_protocol false))
           (VList [VInt 0; VInt 7; VStr "echo"; VList [VStr "hi"]])
           (VInt 0) (VInt 7) (VStr "echo") (VList [VStr "hi"]) None (KInt 7)
           (Success (VList [VStr "hi"]))
           [x94; x01; x07; xc0; x91; xa2; x68; x69]);
    try (vm_compute; reflexivity).
  left; reflexivity.
Defined.

(** X18: a Request whose remote method returned a Deferred.  When the
    application fires that Deferred, with a value or with a failure,
    exactly one message goes to the transport, to the peer the request came
    from: the Response [(1, msgid, None, value)] or [(1, msgid, text, None)],
    and the entry of the request is removed. *)
Theorem X18_result_of_a_deferred_is_answered {E : Env} (s : State) (h : nat)
    (msgid : Value) (k : Key) (context : option Context) (o : outcome)
    (b : list byte) :
  key_of msgid = Some k ->
  nth_error (handler_calls s) h
  = Some {| hd_result := None; hd_callbacks := request_chain msgid |} ->
  registered_at k s context ->
  pack (VList (response_to (sendErrors s) msgid o)) = inr b ->
  exists s2,
    handlerFired h o s = Ok tt s2 /\
    transport s2 = (transport s ++ [(b, route s context)])%list /\
    PyDict.get k (incoming_requests s2) = None /\
    outgoing_requests s2 = outgoing_requests s.
Proof.
  intros Hk Hn Hr Hp.
  pose proof (same_core_handlerFired h o s) as Hcore.
  set (sm := upd_handler_calls
               (list_set h {| hd_result := Some o;
                              hd_callbacks := request_chain msgid |}) s).
  assert (Hrm : registered_at k sm context) by exact Hr.
  destruct (@request_chain_answer E msgid k Hk sm context o b Hrm Hp)
    as (s' & Hrun & Ht & Hi & Hh).
  assert (Hsm : nth_error (handler_calls sm) h
                = Some {| hd_result := Some o;
                          hd_callbacks := request_chain msgid |})
    by (unfold sm; cbn [handler_calls upd_handler_calls];
        eapply nth_error_list_set_same; exact Hn).
  assert (Heq : handlerFired h o s
                = Ok tt (upd_handler_calls
                           (list_set h {| hd_result := Some (Success VNil);
                                          hd_callbacks := [] |}) s')).
  { unfold handlerFired, bind, gets. rewrite Hn.
    unfold modify, runCallbacks, bind, gets. fold sm. rewrite Hsm.
    unfold bind. rewrite Hrun. reflexivity. }
  rewrite Heq in Hcore |- *. eexists. split; [reflexivity|].
  cbn [transport incoming_requests upd_handler_calls].
  split; [exact Ht|]. split; [rewrite Hi; apply dict_get_remove|apply Hcore].
Qed.

Lemma X18_witness :
  let s := state_of (requestReceived (E := Example.env)
                       (VList [VInt 0; VInt 7; VStr "later"; VList []]) None
                       (st (stream_protocol false))) in
  exists s2,
    handlerFired (E := Example.env) 0 (Success (VStr "done")) s = Ok tt s2 /\
    transport s2 = [([x94; x01; x07; xc0; xa4; x64; x6f; x6e; x65], None)] /\
    PyDict.get (KInt 7) (incoming_requests s2) = None /\
    outgoing_requests s2 = outgoing_requests s.
Proof.
  cbv zeta.
  apply (@X18_result_of_a_deferred_is_answered Example.env
           (state_of (requestReceived (E := Example.env)
                        (VList [VInt 0; VInt 7; VStr "later"; VList []]) None
                        (st (stream_protocol false))))
           0%nat (VInt 7) (KInt 7) None (Success (VStr "done"))
           [x94; x01; x07; xc0; xa4; x64; x6f; x6e; x65]);
    try (vm_compute; reflexivity).
  split; [exists 0%nat; vm_compute; reflexivity|left; reflexivity].
Defined.

(** ** A message whose handling raises *)

Section Batch.
Context {E : Env} {L : CodecLaws E}.

(** The loop hands over the messages before the one that raises, prints
    the exception and stops: what follows stays in the buffer. *)
Lemma unpacker_loop_raises context ms1 : forall b1 m b rest s s_mid e s_err fuel,
  pack_all ms1 = Some b1 ->
  pack m = inr b ->
  handle_all ms1 context s = Some s_mid ->
  messageReceived m context s_mid = Raise e s_err ->
  (List.length ms1 < fuel)%nat ->
  unpacker_loop fuel context {| unpacker := b1 ++ b ++ rest; st := s |}
  = {| unpacker := rest; st := upd_stdout (fun l => l ++ [e]) s_err |}.
Proof.
  induction ms1 as [|m1 ms1 IH]; cbn [pack_all handle_all List.length];
    intros b1 m b rest s s_mid e s_err fuel Hp1 Hp Hh Hm Hf.
  - injection Hp1 as <-. injection Hh as <-.
    destruct fuel; [lia|]. cbn [unpacker_loop unpacker st app].
    rewrite (@unpack1_pack E L m b rest Hp), Hm. reflexivity.
  - destruct (pack m1) as [e1|bm] eqn:Hpm; [discriminate|].
    destruct (pack_all ms1) as [bs|] eqn:Hps; [|discriminate].
    injection Hp1 as <-.
    destruct fuel; [lia|]. cbn [unpacker_loop unpacker st].
    rewrite <- app_assoc, (@unpack1_pack E L m1 bm (bs ++ b ++ rest) Hpm).
    destruct (messageReceived m1 context s) as [[] s1|e1 s1]; [|discriminate].
    eapply IH; eauto. lia.
Qed.

End Batch.

(** X19: one delivery that holds several messages, the handling of one of
    which raises.  The messages before it are handled, the exception is
    printed, and the loop ends: the messages after it are not handed over
    and stay in the buffer of the unpacker.  They are handled by the next
    call of [rawDataReceived], whatever it delivers, even nothing. *)
Theorem X19_exception_ends_the_batch {E : Env} {L : CodecLaws E}
    (ms1 ms2 : list Value) (m : Value) (b1 b b2 : list byte)
    (context : option Context) (p : Protocol) (s_mid s_err s_end : State)
    (e : exn) :
  pack_all ms1 = Some b1 ->
  pack m = inr b ->
  pack_all ms2 = Some b2 ->
  unpacker p = [] ->
  handle_all ms1 context (st p) = Some s_mid ->
  messageReceived m context s_mid = Raise e s_err ->
  handle_all ms2 context (upd_stdout (fun l => l ++ [e]) s_err) = Some s_end ->
  let p1 := rawDataReceived (b1 ++ b ++ b2) context p in
  p1 = {| unpacker := b2; st := upd_stdout (fun l => l ++ [e]) s_err |} /\
  rawDataReceived [] context p1 = {| unpacker := []; st := s_end |}.
Proof.
  intros Hp1 Hp Hp2 Hu Hh1 Hm Hh2. cbv zeta.
  assert (H1 : rawDataReceived (b1 ++ b ++ b2) context p
               = {| unpacker := b2; st := upd_stdout (fun l => l ++ [e]) s_err |}).
  { unfold rawDataReceived. rewrite Hu. cbn [app].
    eapply unpacker_loop_raises; eauto.
    pose proof (pack_all_length ms1 Hp1). rewrite length_app. lia. }
  split; [exact H1|]. rewrite H1.
  unfold rawDataReceived. cbn [unpacker st]. rewrite app_nil_r.
  rewrite <- (app_nil_r b2) at 2.
  apply (unpacker_loop_complete context ms2); auto using unpack1_nil.
  pose proof (pack_all_length ms2 Hp2). lia.
Qed.

Lemma X19_witness :
  let first := [x94; x00; x07; xa5; x6c; x61; x74; x65; x72; x90] in
  let third := [x94; x00; x08; xa4; x65; x63; x68; x6f; x90] in
  let p1 := rawDataReceived (E := Example.env) (first ++ first ++ third) None
              (stream_protocol false) in
  unpacker p1 = third /\
  app_calls (st p1) = [(VStr "later", VList [], None)] /\
  app_calls (st (rawDataReceived (E := Example.env) [] None p1))
  = [(VStr "later", VList [], None); (VStr "echo", VList [], None)].
Proof.
  cbv zeta.
  set (req := VList [VInt 0; VInt 7; VStr "later"; VList []]).
  set (s_mid := state_of (messageReceived (E := Example.env) req None
                            (st (stream_protocol false)))).
  set (e := Exn InvalidRequest [VStr "Request with msgid '%s' already exists"; VInt 7]).
  set (s_end := state_of (messageReceived (E := Example.env)
                            (VList [VInt 0; VInt 8; VStr "echo"; VList []]) None
                            (upd_stdout (fun l => l ++ [e]) s_mid))).
  destruct (@X19_exception_ends_the_batch Example.env msgpack_codec_laws
              [req] [VList [VInt 0; VInt 8; VStr "echo"; VList []]] req
              [x94; x00; x07; xa5; x6c; x61; x74; x65; x72; x90]
              [x94; x00; x07; xa5; x6c; x61; x74; x65; x72; x90]
              [x94; x00; x08; xa4; x65; x63; x68; x6f; x90]
              None (stream_protocol false) s_mid s_mid s_end e)
    as [H1 H2]; try (vm_compute; reflexivity).
  rewrite H2, H1. repeat split; vm_compute; reflexivity.
Defined.

(** ** A result the packer refuses *)

Section Refused.
Context {E : Env}.
Variable msgid : Value.
Variable k : Key.
Hypothesis Hk : key_of msgid = Some k.

(** [respondCallback] on a result whose Response the packer refuses: the
    exception of [writeMessage] becomes the result of the Deferred. *)
Lemma respondCallback_refused s context v e :
  registered_at k s context ->
  pack (VList [VInt MSGTYPE_RESPONSE; msgid; VNil; v]) = inl e ->
  exists s1,
    apply_cb (CbRespondCallback msgid) (Success v) s
    = Ok (Failure (write_error s [VInt MSGTYPE_RESPONSE; msgid; VNil; v] e)) s1 /\
    transport s1 = transport s /\
    resp_frame s s1.
Proof.
  intros [[h Hg] Hw] Hp.
  pose proof (resp_frame_writeMessage [VInt MSGTYPE_RESPONSE; msgid; VNil; v]
                context s) as Hf.
  destruct (@writeMessage_refused E s [VInt MSGTYPE_RESPONSE; msgid; VNil; v]
              context msgid k e eq_refl Hk Hp) as (s1 & H & Ht & _).
  rewrite H in Hf. exists s1. split; [|auto].
  cbn [apply_cb]. unfold bind, catch, respondCallback, bind.
  rewrite (incoming_context_spec s msgid Hk), Hg. now rewrite H.
Qed.

End Refused.

(** X20: a remote method whose Deferred fires with a value the packer
    refuses.  [respondCallback] raises what [writeMessage] raises: the
    packer's own exception when [sendErrors] is set, and otherwise the
    [TypeError] of the formatting of the text of the [SerializationError],
    the Response being a tuple of four items.  That exception becomes the
    result of the Deferred, and [respondErrback] answers it: the peer gets
    one error Response carrying the text of that exception, and the entry
    is removed. *)
Theorem X20_refused_result_is_answered_with_an_error {E : Env} (s : State)
    (h : nat) (msgid v : Value) (k : Key) (context : option Context)
    (e : exn) (b : list byte) :
  key_of msgid = Some k ->
  nth_error (handler_calls s) h
  = Some {| hd_result := None; hd_callbacks := request_chain msgid |} ->
  registered_at k s context ->
  pack (VList [VInt MSGTYPE_RESPONSE; msgid; VNil; v]) = inl e ->
  pack (VList (response_to (sendErrors s) msgid
                 (Failure
                    (if sendErrors s then e
                     else Exn TypeError
                            [VStr "not all arguments converted during string formatting"]))))
  = inr b ->
  exists s2,
    handlerFired h (Success v) s = Ok tt s2 /\
    transport s2 = (transport s ++ [(b, route s context)])%list /\
    PyDict.get k (incoming_requests s2) = None.
Proof.
  intros Hk Hn Hr Hp Hpe.
  change (if sendErrors s then e
          else Exn TypeError
                 [VStr "not all arguments converted during string formatting"])
    with (write_error s [VInt MSGTYPE_RESPONSE; msgid; VNil; v] e) in Hpe.
  set (f := write_error s [VInt MSGTYPE_RESPONSE; msgid; VNil; v] e) in *.
  set (sm := upd_handler_calls
               (list_set h {| hd_result := Some (Success v);
                              hd_callbacks := request_chain msgid |}) s).
  assert (Hrm : registered_at k sm context) by exact Hr.
  destruct (@respondCallback_refused E msgid k Hk sm context v e Hrm Hp)
    as (s1 & H1 & Ht1 & Hf1).
  change (write_error sm [VInt MSGTYPE_RESPONSE; msgid; VNil; v] e) with f in H1.
  pose proof (registered_at_frame Hf1 Hrm) as Hr1.
  assert (Hpe1 : pack (VList (response_to (sendErrors s1) msgid (Failure f))) = inr b).
  { destruct Hf1 as (_ & Hse & _). rewrite Hse. exact Hpe. }
  destruct (@respondErrback_answer E msgid k Hk s1 context f b Hr1 Hpe1)
    as (s2 & H2 & Ht2 & Hf2).
  pose proof (registered_at_frame Hf2 Hr1) as Hr2.
  assert (Hrun : run_cbs (request_chain msgid) (Success v) sm
                 = Ok (Success VNil) (upd_incoming (PyDict.remove k) s2)).
  { unfold request_chain. cbn [run_cbs].
    unfold bind at 1. rewrite H1. unfold bind at 1. rewrite H2.
    unfold bind, ret. now rewrite (apply_endRequest msgid Hk (Success VNil) Hr2). }
  assert (Hsm : nth_error (handler_calls sm) h
                = Some {| hd_result := Some (Success v);
                          hd_callbacks := request_chain msgid |})
    by (unfold sm; cbn [handler_calls upd_handler_calls];
        eapply nth_error_list_set_same; exact Hn).
  eexists. split.
  { unfold handlerFired, bind, gets. rewrite Hn.
    unfold modify, runCallbacks, bind, gets. fold sm. rewrite Hsm.
    unfold bind. rewrite Hrun. reflexivity. }
  cbn [transport incoming_requests upd_handler_calls upd_incoming].
  split; [|apply dict_get_remove].
  rewrite Ht2, Ht1. destruct Hf1 as (Hcls & _).
  unfold route. now rewrite Hcls.
Qed.

Lemma X20_witness :
  let s := state_of (requestReceived (E := Example.env)
                       (VList [VInt 0; VInt 7; VStr "later"; VList []]) None
                       (st (stream_protocol false))) in
  exists s2,
    handlerFired (E := Example.env) 0 (Success (VInt 18446744073709551616)) s
    = Ok tt s2 /\
    transport s2
    = [([x94; x01; x07; xa9; x54; x79; x70; x65; x45; x72; x72; x6f; x72; xc0],
        None)] /\
    PyDict.get (KInt 7) (incoming_requests s2) = None.
Proof.
  cbv zeta.
  apply (@X20_refused_result_is_answered_with_an_error Example.env
           (state_of (requestReceived (E := Example.env)
                        (VList [VInt 0; VInt 7; VStr "later"; VList []]) None
                        (st (stream_protocol false))))
           0%nat (VInt 7) (VInt 18446744073709551616) (KInt 7) None
           Msgpack.out_of_fragment
           [x94; x01; x07; xa9; x54; x79; x70; x65; x45; x72; x72; x6f; x72; xc0]);
    try (vm_compute; reflexivity).
  split; [exists 0%nat; vm_compute; reflexivity|left; reflexivity].
Defined.

(** ** From the bytes of one message to its effect *)

Section OneMessage.
Context {E : Env} {L : CodecLaws E}.

(** A delivery that is exactly one packed message, into an empty buffer. *)
Lemma rawDataReceived_one (m : Value) (bytes : list byte)
    (context : option Context) (p : Protocol) (s1 : State) :
  unpacker p = [] ->
  pack m = inr bytes ->
  messageReceived m context (st p) = Ok tt s1 ->
  rawDataReceived bytes context p = {| unpacker := []; st := s1 |}.
Proof.
  intros Hu Hp Hm. unfold rawDataReceived. rewrite Hu. cbn [app].
  rewrite <- (app_nil_r bytes) at 2.
  apply (unpacker_loop_complete context [m]); auto using unpack1_nil.
  - cbn [pack_all]. rewrite Hp. now rewrite app_nil_r.
  - cbn [handle_all]. now rewrite Hm.
  - pose proof (pack_nonempty m Hp). destruct bytes; [congruence|simpl; lia].
Qed.

End OneMessage.

(** X21: a datagram that is the packed Request of a remote method which
    returns a value or raises, received by a datagram protocol with an empty
    buffer.  [datagramReceived] hands it over with the sender's address as
    its context, and the one message written is the Response, addressed to
    that sender (not to the address the protocol was constructed with);
    nothing is printed, the buffer is empty again and no entry is left. *)
Theorem X21_request_datagram_is_answered_to_its_sender {E : Env}
    {L : CodecLaws E} (p : Protocol) (address : Addr)
    (msgid methodName params : Value) (bytes b : list byte) (k : Key)
    (o : outcome) :
  cls (st p) = Datagram ->
  unpacker p = [] ->
  pack (VList [VInt MSGTYPE_REQUEST; msgid; methodName; params]) = inr bytes ->
  key_of msgid = Some k ->
  PyDict.mem k (incoming_requests (st p)) = false ->
  call_result (callRemoteMethod msgid methodName params (st p)) = Some o ->
  pack (VList (response_to (sendErrors (st p)) msgid o)) = inr b ->
  let p' := datagramReceived bytes address p in
  unpacker p' = [] /\
  transport (st p') = (transport (st p) ++ [(b, Some address)])%list /\
  PyDict.get k (incoming_requests (st p')) = None /\
  stdout (st p') = stdout (st p).
Proof.
  intros Hcls Hu Hpr Hk Hm Hcall Hpb. cbv zeta.
  set (ctx := Some {| peer := Some address |}).
  set (message := VList [VInt MSGTYPE_REQUEST; msgid; methodName; params]) in *.
  assert (Hw : writable (st p) ctx) by (right; discriminate).
  destruct (@requestReceived_answers E (st p) message (VInt MSGTYPE_REQUEST) msgid
              methodName params ctx k o b eq_refl Hk Hm Hw Hcall Hpb)
    as (h & s1 & Heq & Ht & Hg).
  assert (Hso : stdout s1 = stdout (st p)).
  { change s1 with (state_of (Ok h s1)). rewrite <- Heq.
    generalize (st p).
    change (steps same_stdout (requestReceived message ctx)).
    apply steps_requestReceived; unfold same_stdout;
      first [ now intros | intros; congruence ]. }
  assert (Hmr : messageReceived message ctx (st p) = Ok tt s1).
  { unfold message, messageReceived, bind. cbn [getitem nth_error].
    unfold ret at 1. cbn [py_eq_int MSGTYPE_REQUEST Z.eqb].
    fold message. now rewrite Heq. }
  unfold datagramReceived. fold ctx.
  rewrite (@rawDataReceived_one E L message bytes ctx p s1 Hu Hpr Hmr).
  cbn [unpacker st]. repeat split; auto.
  rewrite Ht. unfold route. now rewrite Hcls.
Qed.

Lemma X21_witness :
  let p := step (E := Example.env) EvStartProtocol
             (datagram_protocol None false None) in
  let p' := datagramReceived (E := Example.env)
              [x94; x00; x07; xa4; x65; x63; x68; x6f; x91; xa2; x68; x69]
              Example.peer_a p in
  unpacker p' = [] /\
  transport (st p')
  = [([x94; x01; x07; xc0; x91; xa2; x68; x69], Some Example.peer_a)] /\
  PyDict.get (KInt 7) (incoming_requests (st p')) = None /\
  stdout (st p') = stdout (st p).
Proof.
  cbv zeta.
  apply (@X21_request_datagram_is_answered_to_its_sender Example.env
           msgpack_codec_laws
           (step (E := Example.env) EvStartProtocol (datagram_protocol None false None))
           Example.peer_a (VInt 7) (VStr "echo") (VList [VStr "hi"])
           [x94; x00; x07; xa4; x65; x63; x68; x6f; x91; xa2; x68; x69]
           [x94; x01; x07; xc0; x91; xa2; x68; x69] (KInt 7)
           (Success (VList [VStr "hi"])));
    vm_compute; reflexivity.
Defined.

(** X22: the bytes of the Response to a request a stream protocol has
    sent, delivered by the transport in one piece into an empty buffer.
    [dataReceived] resolves the handle [createRequest] returned, as
    [ResponseError(error)] or as a success with the result, removes the
    entry, prints nothing and leaves the buffer empty. *)
Theorem X22_response_bytes_resolve_the_request {E : Env} {L : CodecLaws E}
    (s s1 : State) (method params error result : Value) (d : nat)
    (bytes : list byte) :
  cls s = Stream ->
  createRequest method params s = Ok d s1 ->
  pack (VList [VInt MSGTYPE_RESPONSE; VInt (next_msgid s1); error; result]) = inr bytes ->
  let p' := dataReceived bytes {| unpacker := []; st := s1 |} in
  unpacker p' = [] /\
  fired_at (st p') d (if is_not_None error
                      then Failure (Exn ResponseError [error])
                      else Success result) /\
  PyDict.get (KInt (next_msgid s1)) (outgoing_requests (st p')) = None /\
  stdout (st p') = stdout s1.
Proof.
  intros Hcls H Hp. cbv zeta.
  pose proof (createRequest_spec method params s) as Hs. rewrite H in Hs.
  destruct Hs as (_ & Hd & Hn & Ho & Hds & Hc).
  assert (Hg : PyDict.get (KInt (next_msgid s1)) (outgoing_requests s1) = Some d)
    by (rewrite Ho, Hn; apply dict_get_set).
  assert (Hpd : pending_at s1 d)
    by (unfold pending_at; rewrite Hds, Hd; apply nth_error_snoc).
  set (message := VList [VInt MSGTYPE_RESPONSE; VInt (next_msgid s1); error; result]) in *.
  assert (Hmr : messageReceived message None s1
                = Ok tt (upd_deferreds
                           (list_set d (Fired (if is_not_None error
                                               then Failure (Exn ResponseError [error])
                                               else Success result)))
                           (upd_outgoing (PyDict.remove (KInt (next_msgid s1))) s1))).
  { unfold message. rewrite messageReceived_response.
    unfold responseReceived, bind, gets. rewrite Hc, Hcls.
    apply base_responseReceived_matched; auto. }
  unfold dataReceived.
  rewrite (@rawDataReceived_one E L message bytes None
             {| unpacker := []; st := s1 |} _ eq_refl Hp Hmr).
  cbn [unpacker st stdout outgoing_requests upd_deferreds upd_outgoing].
  repeat split.
  - unfold fired_at. cbn [deferreds upd_deferreds upd_outgoing].
    eapply nth_error_list_set_same. exact Hpd.
  - apply dict_get_remove.
Qed.

Lemma X22_witness :
  let s := st (step (E := Example.env) EvConnectionMade (stream_protocol false)) in
  let s1 := state_of (createRequest (E := Example.env) (VStr "echo") (VList [VStr "hi"]) s) in
  let p' := dataReceived (E := Example.env)
              [x94; x01; x01; xc0; xa2; x68; x69] {| unpacker := []; st := s1 |} in
  unpacker p' = [] /\
  fired_at (st p') 0 (Success (VStr "hi")) /\
  PyDict.get (KInt 1) (outgoing_requests (st p')) = None /\
  stdout (st p') = stdout s1.
Proof.
  cbv zeta.
  apply (@X22_response_bytes_resolve_the_request Example.env msgpack_codec_laws
           (st (step (E := Example.env) EvConnectionMade (stream_protocol false)))
           (state_of (createRequest (E := Example.env) (VStr "echo") (VList [VStr "hi"])
                        (st (step (E := Example.env) EvConnectionMade
                               (stream_protocol false)))))
           (VStr "echo") (VList [VStr "hi"]) VNil (VStr "hi") 0%nat
           [x94; x01; x01; xc0; xa2; x68; x69]);
    vm_compute; reflexivity.
Defined.
